(** * ragas testset generator: a shallow embedding of
      [src/ragas/testset/generator.py]

    The development follows the source file top to bottom:
    - [TestDataset] and its record view ([_to_records], [to_pandas],
      [to_dataset]);
    - [init_evolution], the lazy configuration of a strategy;
    - the scheduling loops of [generate] (main loop, backfill, creation of
      execution units);
    - [generate] and [generate_single] as programs in a small
      trace-and-exception monad.

    Python values are modelled as follows.  A [dict] with string keys is a
    [gmap string _]; a [dict] that is iterated in insertion order (the
    strategy distribution) is an association list; [int] is [Z]; a [float]
    is an IEEE 754 binary64 number, a [spec_float] of the Standard
    Library with 53 bits of precision (a product is rounded to the nearest
    float, [round] takes the float's exact value to the nearest integer,
    ties going to the even one); a raised exception is the
    [Raise] constructor of [Res]; an object whose identity matters (a
    node-context of [current_nodes]) carries its index in that list. *)

From Stdlib Require Import ZArith Zpower QArith Qabs Qround Lia List.
From Stdlib Require Import SpecFloat.
From stdpp Require Import base tactics option list gmap strings pretty.

Open Scope Z_scope.

(** ** Exceptions, traces and the monad of the orchestrator *)

(** The exceptions the orchestrator raises or lets through. *)
Inductive Exn :=
| ConfigError            (* the [ValueError] of the distribution check *)
| IndexError             (* list index out of range *)
| AssertionError         (* a failed [assert] *)
| TypeError              (* [dict] of a value that is not a row *)
| ExceptionInRunner      (* the empty-result error *)
| NodeSourceError        (* the node store could not supply the sample *)
| OverflowError          (* an [int] or a [float] too large to convert *)
| NanToIntError          (* the [ValueError] of [round] on a NaN *)
| TaskError (msg : string). (* an exception raised by a strategy's [evolve] *)

Inductive Res (A : Type) :=
| Ok (a : A)
| Raise (e : Exn).
Arguments Ok {A} a.
Arguments Raise {A} e.

Record RunConfig := mkRunConfig { max_retries : Z; max_wait : Z }.

Record Node := mkNode { doc_id : string }.

(** What the orchestrator stores as a node: an element of the node list,
    or (in the sampling branch of [generate_single]) the whole value that
    [get_random_nodes] returned. *)
Inductive PyNode :=
| NodeObj (n : Node)
| NodeSeq (l : list Node).

(** A node-context: [CurrentNodes(root_node=n, nodes=[n])]. *)
Record CurrentNodes := mkCurrentNodes {
  root_node : PyNode;
  nodes : list PyNode
}.

(** Calls the orchestrator makes to its collaborators, in program order. *)
Inductive Event :=
| EvSetRunConfig (rc : RunConfig)              (* [docstore.set_run_config] *)
| EvInitStrategy (cls : string) (is_async : bool) (* [evolution.init] *)
| EvPatchLoggers                               (* [patch_logger] calls *)
| EvSampleNodes (k : Z)                        (* [docstore.get_random_nodes] *)
| EvSubmit (unit_index : nat) (name : string)  (* [execs[-1].submit] *)
| EvNewUnit (desc : string)                    (* [execs.append(Executor(..))] *)
| EvPrint (units : nat)                        (* the [print] of [len(execs)] *)
| EvEvolve (cls : string) (node : CurrentNodes) (* [evolution.evolve(node)] *)
| EvTrack (num_rows : nat).                    (* telemetry *)

(** A computation reads the trace so far and returns a value or raises,
    together with the extended trace. *)
Definition M (A : Type) : Type := list Event -> Res A * list Event.

Definition ret {A} (a : A) : M A := fun tr => (Ok a, tr).
Definition raise {A} (e : Exn) : M A := fun tr => (Raise e, tr).
Definition tell (ev : Event) : M unit := fun tr => (Ok tt, tr ++ [ev]).
Definition bind {A B} (m : M A) (k : A -> M B) : M B :=
  fun tr => match m tr with
            | (Ok a, tr') => k a tr'
            | (Raise e, tr') => (Raise e, tr')
            end.
Definition lift {A} (r : Res A) : M A := fun tr => (r, tr).

Notation "'let*' x := m 'in' k" := (bind m (fun x => k))
  (at level 10, x name, m at level 100, k at level 200).
Notation "'run' m 'in' k" := (bind m (fun _ => k))
  (at level 10, m at level 100, k at level 200).

(** A [for] loop that threads a state through its body. *)
Fixpoint for_each {A S} (l : list A) (body : A -> S -> M S) (s : S) : M S :=
  match l with
  | [] => ret s
  | a :: rest => let* s' := body a s in for_each rest body s'
  end.

(** [range(n)] for an [int] [n]: empty when [n] is not positive. *)
Definition range (n : Z) : list nat := seq 0 (Z.to_nat n).

(** [l[i]] on a Python list: a negative index counts from the end. *)
Definition py_getitem {A} (l : list A) (i : Z) : Res A :=
  let n := Z.of_nat (length l) in
  let j := if i <? 0 then i + n else i in
  if (j <? 0) || (n <=? j) then Raise IndexError
  else match l !! Z.to_nat j with
       | Some x => Ok x
       | None => Raise IndexError
       end.

(** ** Result rows and the dataset wrapper *)

(** A field value of a [DataRow], as far as the wrapper looks at it. *)
Inductive Value :=
| VStr (s : string)
| VBool (b : bool)
| VList (l : list string).

(** [DataRow] is a pydantic model; [dict(data)] turns it into the mapping
    from its field names to their values. *)
Record DataRow := mkDataRow { fields : gmap string Value }.

(** What a strategy hands back: a row, or the invalid sentinel [np.nan]. *)
Inductive Outcome :=
| Row (r : DataRow)
| NaN.

(** Modelled from the spec: [is_nan] lives in [ragas.utils], not in this
    file; it recognises the invalid sentinel and nothing else. *)
Definition is_nan (x : Outcome) : bool :=
  match x with
  | NaN => true
  | Row _ => false
  end.

(** [dict(data)]: a row becomes its field mapping; the sentinel is a float
    and is not iterable. *)
Definition dict (data : Outcome) : Res (gmap string Value) :=
  match data with
  | Row r => Ok (fields r)
  | NaN => Raise TypeError
  end.

(** The dataclass does not enforce the annotation of [test_data]:
    [generate] stores a list of rows, [generate_single] a single row.  The
    payload type is therefore a parameter. *)
Record TestDataset (T : Type) := mkTestDataset { test_data : T }.
Arguments mkTestDataset {T} test_data.
Arguments test_data {T} t.

(** [TestDataset._to_records]: the loop appends one dict per row. *)
Fixpoint to_records_loop (rows : list Outcome)
    (data_samples : list (gmap string Value))
    : Res (list (gmap string Value)) :=
  match rows with
  | [] => Ok data_samples
  | data :: rest =>
      match dict data with
      | Ok data_dict =>
          let data_dict := <["episode_done" := VBool true]> data_dict in
          to_records_loop rest (data_samples ++ [data_dict])
      | Raise e => Raise e
      end
  end.

Definition _to_records (self : TestDataset (list Outcome))
    : Res (list (gmap string Value)) :=
  to_records_loop (test_data self) [].

(** [pd.DataFrame.from_records] and [Dataset.from_list] are library
    constructors that keep the records they are given, one table row per
    record, in order; a view is the record list it is built from. *)
Record DataFrame := mkDataFrame { df_records : list (gmap string Value) }.
Record HFDataset := mkHFDataset { ds_records : list (gmap string Value) }.

Definition to_pandas (self : TestDataset (list Outcome)) : Res DataFrame :=
  match _to_records self with
  | Ok recs => Ok (mkDataFrame recs)
  | Raise e => Raise e
  end.

Definition to_dataset (self : TestDataset (list Outcome)) : Res HFDataset :=
  match _to_records self with
  | Ok recs => Ok (mkHFDataset recs)
  | Raise e => Raise e
  end.

(** ** Strategies and their lazy configuration *)

Record LLM := mkLLM { llm_model : string }.
Record DocumentStore := mkDocumentStore { ds_nodes : list Node }.

Record QuestionFilter := mkQuestionFilter { qf_llm : LLM }.
Record NodeFilter := mkNodeFilter { nf_llm : LLM }.
Record EvolutionFilter := mkEvolutionFilter { ef_llm : LLM }.

(** An [Evolution] object.  [class_name] is [__class__.__name__];
    [is_complex] is [isinstance(evolution, ComplexEvolution)];
    [None] is an attribute that holds [None].  Only complex evolutions
    have the attribute [evolution_filter]; [init_evolution] never looks at
    it on a simple one. *)
Record Evolution := mkEvolution {
  class_name : string;
  is_complex : bool;
  generator_llm : option LLM;
  docstore : option DocumentStore;
  question_filter : option QuestionFilter;
  node_filter : option NodeFilter;
  evolution_filter : option EvolutionFilter
}.

Record TestsetGenerator := mkTestsetGenerator {
  self_generator_llm : LLM;
  self_critic_llm : LLM;
  self_embeddings : string;
  self_docstore : DocumentStore
}.

Definition set_generator_llm (v : LLM) (e : Evolution) : Evolution :=
  mkEvolution (class_name e) (is_complex e) (Some v) (docstore e)
    (question_filter e) (node_filter e) (evolution_filter e).
Definition set_docstore (v : DocumentStore) (e : Evolution) : Evolution :=
  mkEvolution (class_name e) (is_complex e) (generator_llm e) (Some v)
    (question_filter e) (node_filter e) (evolution_filter e).
Definition set_question_filter (v : QuestionFilter) (e : Evolution)
    : Evolution :=
  mkEvolution (class_name e) (is_complex e) (generator_llm e) (docstore e)
    (Some v) (node_filter e) (evolution_filter e).
Definition set_node_filter (v : NodeFilter) (e : Evolution) : Evolution :=
  mkEvolution (class_name e) (is_complex e) (generator_llm e) (docstore e)
    (question_filter e) (Some v) (evolution_filter e).
Definition set_evolution_filter (v : EvolutionFilter) (e : Evolution)
    : Evolution :=
  mkEvolution (class_name e) (is_complex e) (generator_llm e) (docstore e)
    (question_filter e) (node_filter e) (Some v).

(** [TestsetGenerator.init_evolution].  Every assignment sits inside the
    test [evolution.generator_llm is None]. *)
Definition init_evolution (self : TestsetGenerator) (evolution : Evolution)
    : Evolution :=
  match generator_llm evolution with
  | None =>
      let evolution := set_generator_llm (self_generator_llm self) evolution in
      let evolution :=
        match docstore evolution with
        | None => set_docstore (self_docstore self) evolution
        | Some _ => evolution
        end in
      let evolution :=
        match question_filter evolution with
        | None =>
            set_question_filter (mkQuestionFilter (self_critic_llm self))
              evolution
        | Some _ => evolution
        end in
      let evolution :=
        match node_filter evolution with
        | None =>
            set_node_filter (mkNodeFilter (self_critic_llm self)) evolution
        | Some _ => evolution
        end in
      if is_complex evolution then
        match evolution_filter evolution with
        | None =>
            set_evolution_filter (mkEvolutionFilter (self_critic_llm self))
              evolution
        | Some _ => evolution
        end
      else evolution
  | Some _ => evolution
  end.

(** ** Floats *)

(** A Python [float]: binary64, that is 53 bits of precision and exponents
    below 1024. *)
Definition float : Type := spec_float.
Definition prec : Z := 53.
Definition emax : Z := 1024.

(** The float a decimal literal denotes, the literal given as a fraction
    ([0.25] as [25/100]): the float nearest to the quotient, a tie going to
    the even mantissa. *)
Definition float_lit (n : Z) (d : positive) : float :=
  match n with
  | Z0 => S754_zero false
  | Zpos p => SFdiv prec emax (S754_finite false p 0) (S754_finite false d 0)
  | Zneg p => SFdiv prec emax (S754_finite true p 0) (S754_finite false d 0)
  end.

(** The conversion of an [int] operand of a float operator: the nearest
    float, [OverflowError] when the [int] is too large. *)
Definition float_of_int (n : Z) : Res float :=
  match binary_normalize prec emax n 0 false with
  | S754_infinity _ => Raise OverflowError
  | y => Ok y
  end.

(** [x * n] for a [float] [x] and an [int] [n]. *)
Definition float_mul_int (x : float) (n : Z) : Res float :=
  match float_of_int n with
  | Ok y => Ok (SFmul prec emax x y)
  | Raise e => Raise e
  end.

(** The rational number [m * 2^e]. *)
Definition scale (m e : Z) : Q :=
  match e with
  | Zneg p => m # (2 ^ p)
  | _ => inject_Z (m * 2 ^ e)
  end.

(** The exact value of a float, none for an infinity or a NaN. *)
Definition float_value (x : float) : option Q :=
  match x with
  | S754_zero _ => Some 0%Q
  | S754_finite s m e => Some (scale (if s then Zneg m else Zpos m) e)
  | S754_infinity _ | S754_nan => None
  end.

(** The integer nearest to a rational, a tie going to the even
    neighbour. *)
Definition round_half_even (x : Q) : Z :=
  let f := Qfloor x in
  match Qcompare (x - inject_Z f) (1 # 2) with
  | Lt => f
  | Gt => f + 1
  | Eq => if Z.even f then f else f + 1
  end.

(** Python's [round] of a float without [ndigits]: an [int], the nearest
    integer to the float's value, a tie going to the even neighbour; an
    infinity and a NaN cannot be converted. *)
Definition py_round (x : float) : Res Z :=
  match x with
  | S754_nan => Raise NanToIntError
  | S754_infinity _ => Raise OverflowError
  | S754_zero _ => Ok 0
  | S754_finite s m e =>
      Ok (round_half_even (scale (if s then Zneg m else Zpos m) e))
  end.

(** ** Weights *)

(** [Distributions = Dict[Any, float]]: the strategies with their weights,
    in the insertion order of the dict.  A weight is taken to be what the
    annotation says, a [float]. *)
Definition Distributions := list (Evolution * float).

(** The exact sum of rationals, left to right, starting from [0]. *)
Definition py_sum (values : list Q) : Q := fold_left Qplus values 0%Q.

(** The exact values of a list of floats, none when one of them is an
    infinity or a NaN. *)
Definition float_values (values : list float) : option (list Q) :=
  mapM float_value values.

(** Modelled from the spec: [check_if_sum_is_close] lives in [ragas.utils],
    not in this file.  The validator accepts when
    [|sum(values) - close_to| < 10^-num_places]; the sum is taken exactly,
    and a list that holds an infinity or a NaN has no sum that is close to
    anything. *)
Definition check_if_sum_is_close (values : list float) (close_to : float)
    (num_places : Z) : bool :=
  match float_values values, float_value close_to with
  | Some values, Some close_to =>
      let multiplier := 10 ^ num_places in
      let total := py_sum values in
      negb (Qle_bool (1 / inject_Z multiplier) (Qabs (total - close_to)))
  | _, _ => false
  end.

(** [round(probability * test_size)], the bound of the main loop's inner
    [range]. *)
Definition rounded_product (probability : float) (test_size : Z) : Res Z :=
  match float_mul_int probability test_size with
  | Ok product => py_round product
  | Raise e => Raise e
  end.

(** ** The collaborators the orchestrator calls *)

(** How one strategy invocation ends: it returns a row or the sentinel, or
    it raises after its retries are used up. *)
Inductive TaskResult :=
| Returns (o : Outcome)
| Fails (msg : string).

(** The node store's sampler, the random source of [random.choices] and the
    strategies' [evolve] are outside this file.  They are taken as oracles
    that may depend on everything that happened before the call.
    - [env_get_random_nodes tr ds k threshold] is
      [docstore.get_random_nodes(k, score_threshold)], [None] when the
      store fails to supply the sample;
    - [env_random tr j] is the [j]-th draw of one [choices] call, reduced
      modulo the population size where it is used;
    - [env_evolve tr evolution node] is [await evolution.evolve(node)]. *)
Record Env := mkEnv {
  env_get_random_nodes :
    list Event -> DocumentStore -> Z -> option float -> option (list Node);
  env_random : list Event -> nat -> nat;
  env_evolve : list Event -> Evolution -> CurrentNodes -> TaskResult
}.

Definition get_random_nodes (env : Env) (ds : DocumentStore) (k : Z)
    (score_threshold : option float) : M (list Node) :=
  fun tr =>
    (match env_get_random_nodes env tr ds k score_threshold with
     | Some sampled => Ok sampled
     | None => Raise NodeSourceError
     end,
     tr ++ [EvSampleNodes k]).

(** [random.choices(population, k=k)]: [k] uniform draws with replacement,
    [population[floor(random() * n)]] each; no weights are passed. *)
Fixpoint choices_from {A} (draw : nat -> nat) (population : list A)
    (js : list nat) : Res (list A) :=
  match js with
  | [] => Ok []
  | j :: rest =>
      match py_getitem population
              (Z.of_nat (draw j `mod` length population)) with
      | Ok x =>
          match choices_from draw population rest with
          | Ok xs => Ok (x :: xs)
          | Raise e => Raise e
          end
      | Raise e => Raise e
      end
  end.

Definition choices {A} (env : Env) (population : list A) (k : Z)
    : M (list A) :=
  fun tr => (choices_from (env_random env tr) population (range k), tr).

(** [await evolution.evolve(node)], an exception propagating. *)
Definition call_evolve (env : Env) (evolution : Evolution)
    (node : CurrentNodes) : M Outcome :=
  fun tr =>
    let tr' := tr ++ [EvEvolve (class_name evolution) node] in
    match env_evolve env tr evolution node with
    | Returns o => (Ok o, tr')
    | Fails msg => (Raise (TaskError msg), tr')
    end.

(** ** Execution units *)

(** A registered task: the bound method [evolution.evolve], its argument
    and its name.  [job_node_index] records which element of
    [current_nodes] the argument is (the identity of the object). *)
Record Job := mkJob {
  job_evolution : Evolution;
  job_node_index : nat;
  job_node : CurrentNodes;
  job_name : string
}.

Record Executor := mkExecutor {
  desc : string;
  keep_progress_bar : bool;
  raise_exceptions : bool;
  jobs : list Job
}.

(** [Executor(desc=f"Generating_{index}", keep_progress_bar=True,
    raise_exceptions=raise_exceptions)] *)
Definition new_executor (index : nat) (raise_exc : bool) : Executor :=
  mkExecutor ("Generating_" +:+ pretty index) true raise_exc [].

(** Modelled from the spec: [Executor] lives in [ragas.executor], not in
    this file.  A unit accepts task registrations and returns the per-task
    outcomes in registration order. *)
Definition submit (e : Executor) (j : Job) : Executor :=
  mkExecutor (desc e) (keep_progress_bar e) (raise_exceptions e)
    (jobs e ++ [j]).

(** Modelled from the spec: one task of [Executor.results].  A failure
    aborts the unit when [raise_exceptions] is set and becomes the invalid
    sentinel otherwise.  The tasks of a unit are run here one after the
    other, in registration order. *)
Definition run_job (env : Env) (raise_exc : bool) (j : Job)
    (outcomes : list Outcome) : M (list Outcome) :=
  fun tr =>
    let tr' := tr ++ [EvEvolve (class_name (job_evolution j)) (job_node j)] in
    match env_evolve env tr (job_evolution j) (job_node j) with
    | Returns o => (Ok (outcomes ++ [o]), tr')
    | Fails msg =>
        if raise_exc then (Raise (TaskError msg), tr')
        else (Ok (outcomes ++ [NaN]), tr')
    end.

(** Modelled from the spec: [Executor.results]. *)
Definition results (env : Env) (e : Executor) : M (list Outcome) :=
  for_each (jobs e) (run_job env (raise_exceptions e)) [].

(** ** The scheduling loops of [generate] *)

(** The two loop variables that the scheduling loops update. *)
Record Sched := mkSched {
  execs : list Executor;
  total_evolutions : nat
}.

Definition max_parallel_process : nat := 10.

(** [execs[-1].submit(...)] *)
Definition submit_last (units : list Executor) (j : Job)
    : Res (list Executor) :=
  match reverse units with
  | [] => Raise IndexError
  | e :: front => Ok (reverse front ++ [submit e j])
  end.

(** The body shared by the two loops: register
    [evolution.evolve(current_nodes[index])] under the name
    [f"{class name}-{index}"] with the last unit, open a new unit when
    [total_evolutions % max_parallel_process == max_parallel_process - 1],
    and count the task.  The main loop passes its own loop variable [i] as
    [index], the backfill loop passes [total_evolutions]. *)
Definition submit_task (raise_exc : bool) (current_nodes : list CurrentNodes)
    (evolution : Evolution) (index : nat) (st : Sched) : M Sched :=
  let* node := lift (py_getitem current_nodes (Z.of_nat index)) in
  let name := class_name evolution +:+ "-" +:+ pretty index in
  let* units := lift (submit_last (execs st)
                        (mkJob evolution index node name)) in
  run tell (EvSubmit (length units - 1) name) in
  if (total_evolutions st `mod` max_parallel_process
        =? max_parallel_process - 1)%nat
  then
    let e := new_executor (length units) raise_exc in
    run tell (EvNewUnit (desc e)) in
    ret (mkSched (units ++ [e]) (S (total_evolutions st)))
  else ret (mkSched units (S (total_evolutions st))).

(** Lines 328-343: for each strategy, [round(probability * test_size)]
    tasks, the [i]-th of them on [current_nodes[i]].  The bound of the
    inner [range] is computed once, before the strategy's first task. *)
Definition main_loop (raise_exc : bool) (current_nodes : list CurrentNodes)
    (test_size : Z) (distributions : Distributions) (st : Sched) : M Sched :=
  for_each distributions
    (fun item st =>
       let evolution := fst item in
       let probability := snd item in
       let* count := lift (rounded_product probability test_size) in
       for_each (range count)
         (fun i st => submit_task raise_exc current_nodes evolution i st)
         st)
    st.

(** Lines 344-362: the backfill. *)
Definition backfill (env : Env) (raise_exc : bool)
    (current_nodes : list CurrentNodes) (test_size : Z)
    (distributions : Distributions) (st : Sched) : M Sched :=
  if Z.of_nat (total_evolutions st) <=? test_size then
    let* filler_evolutions :=
      choices env (map fst distributions)
        (test_size - Z.of_nat (total_evolutions st)) in
    for_each filler_evolutions
      (fun evolution st =>
         submit_task raise_exc current_nodes evolution
           (total_evolutions st) st)
      st
  else ret st.

(** Lines 316-362 without the sampling call: from the first unit to the
    end of the backfill. *)
Definition schedule (env : Env) (raise_exc : bool)
    (current_nodes : list CurrentNodes) (test_size : Z)
    (distributions : Distributions) : M Sched :=
  let units := [new_executor 0 raise_exc] in
  let* st := main_loop raise_exc current_nodes test_size distributions
               (mkSched units 0) in
  backfill env raise_exc current_nodes test_size distributions st.

(** All registered tasks, in registration order. *)
Definition assignments (st : Sched) : list Job :=
  concat (map jobs (execs st)).

(** ** [generate] *)

(** Lines 303-305: configure every strategy of the mapping in place. *)
Definition init_strategies (self : TestsetGenerator) (is_async : bool)
    (distributions : Distributions) : M Distributions :=
  for_each distributions
    (fun item done =>
       let evolution := init_evolution self (fst item) in
       run tell (EvInitStrategy (class_name evolution) is_async) in
       ret (done ++ [(evolution, snd item)]))
    [].

(** Lines 367-369: concatenate the units' results in unit order. *)
Definition collect_results (env : Env) (units : list Executor)
    : M (list Outcome) :=
  for_each units
    (fun exec total_test_data_rows =>
       let* test_data_rows := results env exec in
       ret (total_test_data_rows ++ test_data_rows))
    [].

Definition is_empty {A} (l : list A) : bool :=
  match l with
  | [] => true
  | _ :: _ => false
  end.

(** [TestsetGenerator.generate].  The first unit is built inside
    [schedule]; building it before or after the sampling call makes no
    difference, a unit without tasks has no effect. *)
Definition generate (self : TestsetGenerator) (env : Env) (test_size : Z)
    (distributions : Distributions)
    (with_debugging_logs is_async raise_exc : bool)
    (run_config : option RunConfig) : M (TestDataset (list Outcome)) :=
  if negb (check_if_sum_is_close (map snd distributions) (float_lit 1 1) 3)
  then raise ConfigError
  else
    let run_config :=
      match run_config with
      | None => mkRunConfig 15 600
      | Some rc => rc
      end in
    run tell (EvSetRunConfig run_config) in
    let* distributions := init_strategies self is_async distributions in
    run (if with_debugging_logs then tell EvPatchLoggers else ret tt) in
    let* sampled := get_random_nodes env (self_docstore self) test_size None in
    let current_nodes :=
      map (fun n => mkCurrentNodes (NodeObj n) [NodeObj n]) sampled in
    let* st := schedule env raise_exc current_nodes test_size distributions in
    run tell (EvPrint (length (execs st))) in
    let* total_test_data_rows := collect_results env (execs st) in
    if is_empty total_test_data_rows then raise ExceptionInRunner
    else
      let total_test_data_rows :=
        List.filter (fun r => negb (is_nan r)) total_test_data_rows in
      let test_dataset := mkTestDataset total_test_data_rows in
      run tell (EvTrack (length (test_data test_dataset))) in
      ret test_dataset.

(** ** [generate_single] *)

Definition generate_single (self : TestsetGenerator) (env : Env)
    (evolution : Evolution) (score_threshold : float) (node_index : option Z)
    : M (option (TestDataset Outcome)) :=
  let run_config := mkRunConfig 15 600 in
  run tell (EvSetRunConfig run_config) in
  let evolution := init_evolution self evolution in
  run tell (EvInitStrategy (class_name evolution) true) in
  let* node :=
    match node_index with
    | Some node_index =>
        if node_index <? Z.of_nat (length (ds_nodes (self_docstore self)))
        then
          let* n := lift (py_getitem (ds_nodes (self_docstore self))
                            node_index) in
          ret (NodeObj n)
        else raise AssertionError
    | None =>
        let* l := get_random_nodes env (self_docstore self) 1
                    (Some score_threshold) in
        ret (NodeSeq l)
    end in
  let current_node := mkCurrentNodes node [node] in
  let* test_data_row := call_evolve env evolution current_node in
  if negb (is_nan test_data_row)
  then ret (Some (mkTestDataset test_data_row))
  else ret None.

(** ** Concrete strategies and environments used in the examples *)

Definition fresh_evolution (cls : string) (complex : bool) : Evolution :=
  mkEvolution cls complex None None None None None.

Definition simple : Evolution := fresh_evolution "SimpleEvolution" false.
Definition reasoning : Evolution := fresh_evolution "ReasoningEvolution" true.
Definition multi_context : Evolution :=
  fresh_evolution "MultiContextEvolution" true.

(** [{simple: 0.5, reasoning: 0.25, multi_context: 0.25}] *)
Definition DEFAULT_DISTRIBUTION : Distributions :=
  [(simple, float_lit 5 10); (reasoning, float_lit 25 100);
   (multi_context, float_lit 25 100)].

Definition demo_generator : TestsetGenerator :=
  mkTestsetGenerator (mkLLM "gpt-4") (mkLLM "gpt-4") "text-embedding-ada-002"
    (mkDocumentStore [mkNode "n0"; mkNode "n1"; mkNode "n2"]).

(** A node store that repeats its nodes cyclically and fails on a negative
    count or an empty store. *)
Definition cyclic_sample (ds : DocumentStore) (k : Z) : option (list Node) :=
  if k <? 0 then None
  else if is_empty (ds_nodes ds) && (0 <? k) then None
  else Some (omap (fun j => ds_nodes ds !! (j `mod` length (ds_nodes ds))%nat)
                (range k)).

(** An environment in which every strategy invocation returns [o]. *)
Definition const_env (o : Outcome) : Env :=
  mkEnv (fun _ ds k _ => cyclic_sample ds k)
        (fun _ j => j)
        (fun _ _ _ => Returns o).

Definition demo_row : DataRow :=
  mkDataRow {[ "question" := VStr "q" ]}.

Definition demo_nodes (n : nat) : list CurrentNodes :=
  map (fun j => mkCurrentNodes (NodeObj (mkNode (pretty j)))
                  [NodeObj (mkNode (pretty j))])
      (seq 0 n).

(** ** Notions used in the statements *)

(** The shape the unit-opening rule keeps: every unit but the last holds
    exactly [max_parallel_process] tasks, there are
    [total_evolutions / max_parallel_process] of them, and the last unit
    holds the remaining [total_evolutions % max_parallel_process] tasks. *)
Definition units_ok (st : Sched) : Prop :=
  exists (full : list Executor) (last_unit : Executor),
    execs st = full ++ [last_unit] /\
    Forall (fun e => length (jobs e) = max_parallel_process) full /\
    length full = (total_evolutions st / max_parallel_process)%nat /\
    length (jobs last_unit)
      = (total_evolutions st `mod` max_parallel_process)%nat.

(** The number of tasks the main loop creates for a strategy of weight
    [probability]: the length of [range(round(probability * test_size))].
    When the bound cannot be computed the loop raises before the
    strategy's first task. *)
Definition task_count (probability : float) (test_size : Z) : nat :=
  match rounded_product probability test_size with
  | Ok count => Z.to_nat count
  | Raise _ => 0%nat
  end.

(** The number of tasks the main loop creates for each strategy. *)
Definition rounded_counts (test_size : Z) (distributions : Distributions)
    : list nat :=
  map (fun item => task_count (snd item) test_size) distributions.

(** Every bound [round(probability * test_size)] can be computed: no
    product overflows and none is a NaN. *)
Definition counts_defined (test_size : Z) (distributions : Distributions)
    : Prop :=
  Forall (fun item => exists count,
              rounded_product (snd item) test_size = Ok count)
    distributions.

Definition rounded_total (test_size : Z) (distributions : Distributions)
    : nat :=
  sum_list (rounded_counts test_size distributions).

(** The node-context each registered task works on, as an index into
    [current_nodes], in registration order. *)
Definition node_indices (st : Sched) : list nat :=
  map job_node_index (assignments st).

(** The scheduling state a computation returned. *)
Definition sched_of (r : Res Sched * list Event) : Sched :=
  match fst r with
  | Ok st => st
  | Raise _ => mkSched [] 0
  end.

(** One strategy of weight [1.0]. *)
Definition only_simple : Distributions := [(simple, float_lit 1 1)].

(** One strategy of weight [0.5]: the weights do not sum to 1. *)
Definition half_simple : Distributions := [(simple, float_lit 5 10)].

(** The scenario of the spec: [C = 10], [N = 23], one strategy. *)
Definition run23 : Res Sched * list Event :=
  schedule (const_env NaN) true (demo_nodes 23) 23 only_simple [].

(** Ten rows, one strategy: the first unit is filled exactly. *)
Definition run10 : Res Sched * list Event :=
  schedule (const_env NaN) true (demo_nodes 10) 10 only_simple [].

(** Two strategies of weight [0.5] each. *)
Definition two_halves : Distributions :=
  [(simple, float_lit 5 10); (reasoning, float_lit 5 10)].

(** Weights [0.7] and [0.3], neither of them a binary fraction. *)
Definition seven_three : Distributions :=
  [(simple, float_lit 7 10); (reasoning, float_lit 3 10)].

(** Weights [1.5] and [-0.5]: they sum to 1. *)
Definition beyond_one : Distributions :=
  [(simple, float_lit 3 2); (reasoning, float_lit (-1) 2)].

(** Three rows over [two_halves]: both counts round up. *)
Definition run_overshoot : Res Sched * list Event :=
  schedule (const_env NaN) true (demo_nodes 3) 3 two_halves [].

(** Four rows over the default weights. *)
Definition run_default4 : Res Sched * list Event :=
  schedule (const_env NaN) true (demo_nodes 4) 4 DEFAULT_DISTRIBUTION [].

(** The strategies after [init_strategies], with their weights. *)
Definition configured (self : TestsetGenerator) (distributions : Distributions)
    : Distributions :=
  map (fun item => (init_evolution self (fst item), snd item)) distributions.

(** [ceil(n / c)] *)
Definition ceil_div (n c : nat) : nat := ((n + c - 1) / c)%nat.

(** Every weight is a number in [[0, 1]]. *)
Definition unit_weights (distributions : Distributions) : Prop :=
  Forall (fun item => exists q : Q,
              float_value (snd item) = Some q /\ (0 <= q)%Q /\ (q <= 1)%Q)
    distributions.

(** Every weight is a number: no infinity, no NaN. *)
Definition finite_weights (distributions : Distributions) : Prop :=
  Forall (fun item => is_Some (float_value (snd item))) distributions.

(** [m * 2^e <= n], for an exponent that is not positive. *)
Definition below (n : Z) (m e : Z) : Prop := e <= 0 /\ m <= n * 2 ^ (- e).

(** A shift record that has lost a non-zero bit. *)
Definition inexact (mrs : shr_record) : bool := shr_r mrs || shr_s mrs.

(** A strategy that arrives with its own generation model and nothing
    else. *)
Definition preconfigured : Evolution :=
  mkEvolution "SimpleEvolution" false (Some (mkLLM "own")) None None None None.

(** Any exception but the configuration error. *)
Definition not_config (e : Exn) : Prop := e <> ConfigError.

(** A computation that raises only exceptions in [P]. *)
Definition raises_only {A} (P : Exn -> Prop) (m : M A) : Prop :=
  forall tr e tr', m tr = (Raise e, tr') -> P e.

(** ** Further notions: the plan of a scheduling run *)

(** The task that one scheduling step registers for strategy [ev] and
    index [i]: none when [i] is not an index of [current_nodes]. *)
Definition task_for (cn : list CurrentNodes) (ev : Evolution) (i : nat)
    : list Job :=
  match cn !! i with
  | Some node => [mkJob ev i node (class_name ev +:+ "-" +:+ pretty i)]
  | None => []
  end.

(** The tasks of the main loop, strategy by strategy in the order of the
    mapping, each strategy on [current_nodes[0]], [current_nodes[1]], ... *)
Definition main_plan (cn : list CurrentNodes) (test_size : Z)
    (distributions : Distributions) : list Job :=
  flat_map
    (fun item =>
       flat_map (task_for cn (fst item))
         (seq 0 (task_count (snd item) test_size)))
    distributions.

(** The tasks of the backfill for the drawn strategies [filler], the
    first of them on [current_nodes[start]]. *)
Fixpoint backfill_plan (cn : list CurrentNodes) (filler : list Evolution)
    (start : nat) : list Job :=
  match filler with
  | [] => []
  | ev :: rest => task_for cn ev start ++ backfill_plan cn rest (S start)
  end.

(** How many registered tasks work on node-context [i]. *)
Definition uses (i : nat) (indices : list nat) : nat :=
  length (List.filter (Nat.eqb i) indices).

(** Every unit carries its position in its description and the run's
    flags. *)
Definition units_labelled (raise_exc : bool) (st : Sched) : Prop :=
  forall (k : nat) (e : Executor),
    execs st !! k = Some e ->
    desc e = "Generating_" +:+ pretty k /\
    keep_progress_bar e = true /\
    raise_exceptions e = raise_exc.

(** A task is named after its strategy's class and the index of its
    node-context, holds that node-context, and belongs to one of the
    strategies in [population]. *)
Definition task_ok (cn : list CurrentNodes) (population : list Evolution)
    (j : Job) : Prop :=
  job_name j
    = class_name (job_evolution j) +:+ "-" +:+ pretty (job_node_index j) /\
  cn !! job_node_index j = Some (job_node j) /\
  In (job_evolution j) population.

(** ** The functions around [generate] *)

(** Exceptions that only the functions around [generate] raise; [Core]
    carries an exception of the orchestrator. *)
Inductive PyExn :=
| Core (e : Exn)
| AttributeError        (* an attribute of [None] *)
| FileNotFoundError     (* [open(path, 'rb')] without a file at [path] *)
| UnpackError           (* unpacking a value that is not a triple *)
| External (msg : string). (* a failure inside a collaborator *)

Inductive PyRes (A : Type) :=
| Done (a : A)
| Throws (e : PyExn).
Arguments Done {A} a.
Arguments Throws {A} e.

Definition of_res {A} (r : Res A) : PyRes A :=
  match r with
  | Ok a => Done a
  | Raise e => Throws (Core e)
  end.

(** *** [filter_nodes_test] *)

(** The value under ["score"] in what [node_filter.filter] returns. *)
Definition Score := Z.

(** [await node_filter.filter(n)]["score"], an oracle of the filter, the
    node and the number of the call. *)
Definition FilterOracle := NodeFilter -> Node -> nat -> Score.

(** The loop [for i in range(200)]: read [nodes[i]], then call the filter
    of the strategy, then print [i] and the score.  [printed] collects the
    printed lines. *)
Fixpoint filter_loop (score : FilterOracle) (nf : option NodeFilter)
    (store_nodes : list Node) (indices : list nat)
    (printed : list (nat * Score)) : PyRes unit * list (nat * Score) :=
  match indices with
  | [] => (Done tt, printed)
  | i :: rest =>
      match py_getitem store_nodes (Z.of_nat i) with
      | Raise e => (Throws (Core e), printed)
      | Ok n =>
          match nf with
          | None => (Throws AttributeError, printed)
          | Some f =>
              filter_loop score nf store_nodes rest
                (printed ++ [(i, score f n i)])
          end
      end
  end.

(** [TestsetGenerator.filter_nodes_test]: the returned value, the printed
    lines, and the strategy now stored in [self.evolution]. *)
Definition filter_nodes_test (self : TestsetGenerator) (score : FilterOracle)
    (evolution : Evolution) (node : option Node)
    : PyRes (option Score) * list (nat * Score) * Evolution :=
  let evolution := init_evolution self evolution in
  match node with
  | None =>
      let out := filter_loop score (node_filter evolution)
                   (ds_nodes (self_docstore self)) (range 200) [] in
      (match fst out with
       | Done _ => Done None
       | Throws e => Throws e
       end, snd out, evolution)
  | Some n =>
      match node_filter evolution with
      | None => (Throws AttributeError, [], evolution)
      | Some f => (Done (Some (score f n 0%nat)), [], evolution)
      end
  end.

(** The lines the loop prints for the nodes at [indices]. *)
Definition printed_scores (score : FilterOracle) (f : NodeFilter)
    (store_nodes : list Node) (indices : list nat) : list (nat * Score) :=
  omap (fun i => (fun n => (i, score f n i)) <$> store_nodes !! i) indices.

(** *** [adapt] and [save] *)

(** What [adapt] and [save] ask of [self.docstore]: whether it is an
    [InMemoryDocumentStore], and its [extractor]. *)
Record StoreKind := mkStoreKind {
  is_in_memory : bool;
  extractor : option string
}.

(** The calls [adapt] and [save] make to the extractor and the
    strategies. *)
Inductive CacheEvent :=
| ExtractorAdapt (language : string) (cache_dir : option string)
| EvolutionInit (cls : string)
| EvolutionAdapt (cls : string) (language : string)
    (cache_dir : option string)
| ExtractorSave (cache_dir : option string)
| EvolutionSave (cls : string) (cache_dir : option string).

Fixpoint adapt_loop (self : TestsetGenerator) (language : string)
    (cache_dir : option string) (evolutions : list Evolution)
    : list Evolution * list CacheEvent :=
  match evolutions with
  | [] => ([], [])
  | evolution :: rest =>
      let evolution := init_evolution self evolution in
      let out := adapt_loop self language cache_dir rest in
      (evolution :: fst out,
       EvolutionInit (class_name evolution)
       :: EvolutionAdapt (class_name evolution) language cache_dir
       :: snd out)
  end.

(** [TestsetGenerator.adapt]: the strategies as the call leaves them and
    the calls made.  The calls to the extractor and to the strategies
    ([adapt], [init]) are taken to return. *)
Definition adapt (self : TestsetGenerator) (kind : StoreKind)
    (language : string) (evolutions : list Evolution)
    (cache_dir : option string)
    : Res (list Evolution) * list CacheEvent :=
  if negb (is_in_memory kind) then (Raise AssertionError, [])
  else
    match extractor kind with
    | None => (Raise AssertionError, [])
    | Some _ =>
        let out := adapt_loop self language cache_dir evolutions in
        (Ok (fst out), ExtractorAdapt language cache_dir :: snd out)
    end.

Fixpoint save_loop (cache_dir : option string) (evolutions : list Evolution)
    (log : list CacheEvent) : Res unit * list CacheEvent :=
  match evolutions with
  | [] => (Ok tt, log)
  | evolution :: rest =>
      match node_filter evolution with
      | None => (Raise AssertionError, log)
      | Some _ =>
          match question_filter evolution with
          | None => (Raise AssertionError, log)
          | Some _ =>
              if is_complex evolution
                 && negb (bool_decide (is_Some (evolution_filter evolution)))
              then (Raise AssertionError, log)
              else save_loop cache_dir rest
                     (log ++ [EvolutionSave (class_name evolution) cache_dir])
          end
      end
  end.

(** [TestsetGenerator.save].  The calls [extractor.save] and
    [evolution.save] are taken to return. *)
Definition save (kind : StoreKind) (evolutions : list Evolution)
    (cache_dir : option string) : Res unit * list CacheEvent :=
  if negb (is_in_memory kind) then (Raise AssertionError, [])
  else
    match extractor kind with
    | None => (Raise AssertionError, [])
    | Some _ => save_loop cache_dir evolutions [ExtractorSave cache_dir]
    end.

(** The three assertions [save] makes about a strategy. *)
Definition saveable (e : Evolution) : Prop :=
  is_Some (node_filter e) /\
  is_Some (question_filter e) /\
  (is_complex e = true -> is_Some (evolution_filter e)).

(** *** Saved embeddings and the document wrappers *)

(** The three attributes of the store that are pickled together:
    [nodes], [node_map] and [node_embeddings_list]. *)
Record StoreContent := mkStoreContent {
  sc_nodes : list Node;
  sc_node_map : gmap string Node;
  sc_node_embeddings_list : list (list float)
}.

(** What a pickle file holds: the triple written by
    [create_node_embeddings], or some other value (one that does not unpack
    into three). *)
Inductive Pickled :=
| PickledStore (c : StoreContent)
| PickledValue (tag : string).

(** The file system: the pickle file at each path.  [pickle.load] returns
    what [pickle.dump] wrote. *)
Abbreviation Files := (gmap string Pickled).

(** The generator with the attributes of its store that [DocumentStore]
    leaves out.  The store's [nodes] are [ds_nodes (self_docstore _)]. *)
Record GeneratorState := mkGeneratorState {
  gs_self : TestsetGenerator;
  gs_node_map : gmap string Node;
  gs_node_embeddings_list : list (list float);
  gs_node_scores : option Pickled
}.

Definition with_nodes (self : TestsetGenerator) (store_nodes : list Node)
    : TestsetGenerator :=
  mkTestsetGenerator (self_generator_llm self) (self_critic_llm self)
    (self_embeddings self) (mkDocumentStore store_nodes).

(** [(docstore.nodes, docstore.node_map, docstore.node_embeddings_list)] *)
Definition content_of (gs : GeneratorState) : StoreContent :=
  mkStoreContent (ds_nodes (self_docstore (gs_self gs))) (gs_node_map gs)
    (gs_node_embeddings_list gs).

(** [docstore.nodes, docstore.node_map, docstore.node_embeddings_list = c] *)
Definition set_content (gs : GeneratorState) (c : StoreContent)
    : GeneratorState :=
  mkGeneratorState (with_nodes (gs_self gs) (sc_nodes c)) (sc_node_map c)
    (sc_node_embeddings_list c) (gs_node_scores gs).

(** The document side of the collaborators: the two converters and
    [docstore.add_documents], which chunks and embeds the documents and
    gives the new content of the store, or fails. *)
Record DocEnv := mkDocEnv {
  from_langchain_document : string -> string;
  from_llamaindex_document : string -> string;
  add_documents : StoreContent -> list string -> option StoreContent
}.

(** [TestsetGenerator.create_node_embeddings].  Opening the file for
    writing is taken to succeed. *)
Definition create_node_embeddings (denv : DocEnv) (gs : GeneratorState)
    (files : Files) (documents : list string) (save_path : string)
    : PyRes unit * GeneratorState * Files :=
  match add_documents denv (content_of gs)
          (map (from_langchain_document denv) documents) with
  | None => (Throws (External "add_documents"), gs, files)
  | Some c =>
      let gs := set_content gs c in
      (Done tt, gs, <[save_path := PickledStore (content_of gs)]> files)
  end.

(** [TestsetGenerator.load_saved_embeddings] *)
Definition load_saved_embeddings (gs : GeneratorState) (files : Files)
    (save_path : string) : PyRes unit * GeneratorState :=
  match files !! save_path with
  | None => (Throws FileNotFoundError, gs)
  | Some (PickledStore c) => (Done tt, set_content gs c)
  | Some (PickledValue _) => (Throws UnpackError, gs)
  end.

(** [TestsetGenerator.load_node_scoring]: whatever the file holds becomes
    [docstore.node_scores]. *)
Definition load_node_scoring (gs : GeneratorState) (files : Files)
    (save_path : string) : PyRes unit * GeneratorState :=
  match files !! save_path with
  | None => (Throws FileNotFoundError, gs)
  | Some v =>
      (Done tt,
       mkGeneratorState (gs_self gs) (gs_node_map gs)
         (gs_node_embeddings_list gs) (Some v))
  end.

(** The call [self.generate(...)] at the end of the three wrappers. *)
Definition then_generate (gs : GeneratorState) (env : Env) (test_size : Z)
    (distributions : Distributions)
    (with_debugging_logs is_async raise_exc : bool)
    (run_config : option RunConfig) (tr : list Event)
    : PyRes (TestDataset (list Outcome)) * list Event * GeneratorState :=
  let out := generate (gs_self gs) env test_size distributions
               with_debugging_logs is_async raise_exc run_config tr in
  (of_res (fst out), snd out, gs).

(** [TestsetGenerator.generate_with_saved_embeddings] *)
Definition generate_with_saved_embeddings (gs : GeneratorState)
    (files : Files) (env : Env) (save_path : string) (test_size : Z)
    (distributions : Distributions)
    (with_debugging_logs is_async raise_exc : bool)
    (run_config : option RunConfig) (tr : list Event)
    : PyRes (TestDataset (list Outcome)) * list Event * GeneratorState :=
  match files !! save_path with
  | None => (Throws FileNotFoundError, tr, gs)
  | Some (PickledStore c) =>
      then_generate (set_content gs c) env test_size distributions
        with_debugging_logs is_async raise_exc run_config tr
  | Some (PickledValue _) => (Throws UnpackError, tr, gs)
  end.

(** [TestsetGenerator.generate_with_langchain_docs] *)
Definition generate_with_langchain_docs (denv : DocEnv)
    (gs : GeneratorState) (env : Env) (documents : list string)
    (test_size : Z) (distributions : Distributions)
    (with_debugging_logs is_async raise_exc : bool)
    (run_config : option RunConfig) (tr : list Event)
    : PyRes (TestDataset (list Outcome)) * list Event * GeneratorState :=
  match add_documents denv (content_of gs)
          (map (from_langchain_document denv) documents) with
  | None => (Throws (External "add_documents"), tr, gs)
  | Some c =>
      then_generate (set_content gs c) env test_size distributions
        with_debugging_logs is_async raise_exc run_config tr
  end.

(** [TestsetGenerator.generate_with_llamaindex_docs] *)
Definition generate_with_llamaindex_docs (denv : DocEnv)
    (gs : GeneratorState) (env : Env) (documents : list string)
    (test_size : Z) (distributions : Distributions)
    (with_debugging_logs is_async raise_exc : bool)
    (run_config : option RunConfig) (tr : list Event)
    : PyRes (TestDataset (list Outcome)) * list Event * GeneratorState :=
  match add_documents denv (content_of gs)
          (map (from_llamaindex_document denv) documents) with
  | None => (Throws (External "add_documents"), tr, gs)
  | Some c =>
      then_generate (set_content gs c) env test_size distributions
        with_debugging_logs is_async raise_exc run_config tr
  end.

(** A generator state and a document environment for the examples: the
    store appends one node per document. *)
Definition demo_state : GeneratorState :=
  mkGeneratorState demo_generator ∅ [] None.

Definition demo_docs : DocEnv :=
  mkDocEnv (fun d => d) (fun d => d)
    (fun c docs =>
       Some (mkStoreContent (sc_nodes c ++ map mkNode docs) (sc_node_map c)
               (sc_node_embeddings_list c))).

(** *** The phases of a run *)



(** The [evolve] call that runs a task. *)
Definition evolve_event (j : Job) : Event :=
  EvEvolve (class_name (job_evolution j)) (job_node j).



(** * Theorems *)

(** ** The dataset wrapper *)

Lemma to_records_loop_rows (rows : list DataRow) acc :
  to_records_loop (map Row rows) acc =
  Ok (acc ++ map (fun r => <["episode_done" := VBool true]> (fields r)) rows).
Proof.
  revert acc. induction rows as [|r rows IH]; intros acc; simpl.
  - by rewrite app_nil_r.
  - rewrite IH. by rewrite <- app_assoc.
Qed.

(** C10.  For a dataset of rows, [_to_records] succeeds, and the two views
    [to_pandas] and [to_dataset] are built from its records: there is one
    record per stored row, the [i]-th record is the [i]-th row's field
    mapping with [episode_done] set to [True], and so every record carries
    [episode_done = True]. *)
Theorem to_records_one_per_row (rows : list DataRow) :
  exists records : list (gmap string Value),
    _to_records (mkTestDataset (map Row rows)) = Ok records /\
    to_pandas (mkTestDataset (map Row rows)) = Ok (mkDataFrame records) /\
    to_dataset (mkTestDataset (map Row rows)) = Ok (mkHFDataset records) /\
    length records = length rows /\
    (forall (i : nat) (r : DataRow),
        rows !! i = Some r ->
        records !! i = Some (<["episode_done" := VBool true]> (fields r))) /\
    (forall (i : nat) (rec : gmap string Value),
        records !! i = Some rec ->
        rec !! "episode_done" = Some (VBool true)).
Proof.
  exists (map (fun r => <["episode_done" := VBool true]> (fields r)) rows).
  assert (Hrec : _to_records (mkTestDataset (map Row rows)) =
                 Ok (map (fun r => <["episode_done" := VBool true]> (fields r))
                       rows)).
  { unfold _to_records. simpl. by rewrite to_records_loop_rows. }
  split; [exact Hrec|].
  split; [unfold to_pandas; by rewrite Hrec|].
  split; [unfold to_dataset; by rewrite Hrec|].
  split; [by rewrite length_map|].
  split.
  - intros i r Hi. rewrite list_lookup_fmap. by rewrite Hi.
  - intros i rec Hi. rewrite list_lookup_fmap in Hi.
    destruct (rows !! i) as [r|]; simpl in Hi; [|done].
    injection Hi as <-. apply lookup_insert_eq.
Qed.

Lemma to_records_one_per_row_witness :
  _to_records (mkTestDataset [Row demo_row])
  = Ok [<["episode_done" := VBool true]> (fields demo_row)].
Proof.
  destruct (to_records_one_per_row [demo_row])
    as (records & Hrec & _ & _ & Hlen & Hrow & _).
  change (map Row [demo_row]) with [Row demo_row] in Hrec.
  rewrite Hrec. f_equal.
  destruct records as [|rec [|rec' records]]; [done| |done].
  specialize (Hrow 0%nat demo_row eq_refl). simpl in Hrow.
  by injection Hrow as ->.
Defined.

(** ** Strategy configuration *)

(** C9, as stated, fails: a strategy whose generation model is already set
    but whose node filter is unset comes out of the initialization step
    with the node filter still unset. *)
Lemma init_evolution_skips_configured :
  node_filter preconfigured = None /\
  node_filter (init_evolution demo_generator preconfigured) = None /\
  question_filter (init_evolution demo_generator preconfigured) = None.
Proof. repeat split. Qed.

(** C9, amended.  The initialization step is idempotent.  When the
    generation model is already set it changes nothing.  When the
    generation model is unset it sets the generation model and fills each
    of docstore, question filter, node filter and, for a composite
    strategy only, evolution filter that is unset, leaving the ones
    already set as they are. *)
Theorem init_evolution_fills_when_unconfigured
    (self : TestsetGenerator) (e : Evolution) :
  init_evolution self (init_evolution self e) = init_evolution self e /\
  (is_Some (generator_llm e) -> init_evolution self e = e) /\
  (generator_llm e = None ->
   let e' := init_evolution self e in
   class_name e' = class_name e /\
   is_complex e' = is_complex e /\
   generator_llm e' = Some (self_generator_llm self) /\
   docstore e' = Some (default (self_docstore self) (docstore e)) /\
   question_filter e' =
     Some (default (mkQuestionFilter (self_critic_llm self))
             (question_filter e)) /\
   node_filter e' =
     Some (default (mkNodeFilter (self_critic_llm self)) (node_filter e)) /\
   evolution_filter e' =
     if is_complex e
     then Some (default (mkEvolutionFilter (self_critic_llm self))
                  (evolution_filter e))
     else evolution_filter e).
Proof.
  destruct e as [cls cx g d q n f].
  split; [|split].
  - destruct g, d, q, n, f, cx; reflexivity.
  - intros [g' Hg]. simpl in Hg. subst g. reflexivity.
  - simpl. intros ->. destruct d, q, n, f, cx; repeat split.
Qed.

Lemma init_evolution_fills_when_unconfigured_witness :
  init_evolution demo_generator
    (init_evolution demo_generator multi_context)
  = init_evolution demo_generator multi_context /\
  init_evolution demo_generator preconfigured = preconfigured /\
  node_filter (init_evolution demo_generator multi_context)
  = Some (mkNodeFilter (mkLLM "gpt-4")) /\
  evolution_filter (init_evolution demo_generator multi_context)
  = Some (mkEvolutionFilter (mkLLM "gpt-4")) /\
  evolution_filter (init_evolution demo_generator simple) = None.
Proof.
  destruct (init_evolution_fills_when_unconfigured demo_generator
              multi_context) as (Hidem & _ & Hfill).
  destruct (Hfill eq_refl) as (_ & _ & _ & _ & _ & Hnf & Hef).
  destruct (init_evolution_fills_when_unconfigured demo_generator
              preconfigured) as (_ & Hnoop & _).
  destruct (init_evolution_fills_when_unconfigured demo_generator simple)
    as (_ & _ & Hsimple).
  destruct (Hsimple eq_refl) as (_ & _ & _ & _ & _ & _ & Hefs).
  split; [exact Hidem|]. split; [apply Hnoop; by eexists|].
  split; [exact Hnf|]. split; [exact Hef|exact Hefs].
Defined.

(** ** Python list indexing *)

Lemma py_getitem_nat {A} (l : list A) (i : nat) (x : A) :
  l !! i = Some x -> py_getitem l (Z.of_nat i) = Ok x.
Proof.
  intros Hi. pose proof (lookup_lt_Some _ _ _ Hi) as Hlt.
  unfold py_getitem.
  destruct (Z.ltb_spec (Z.of_nat i) 0) as [?|_]; [lia|].
  destruct (Z.ltb_spec (Z.of_nat i) 0) as [?|_]; [lia|].
  destruct (Z.leb_spec (Z.of_nat (length l)) (Z.of_nat i)) as [?|_]; [lia|].
  simpl. rewrite Nat2Z.id. by rewrite Hi.
Qed.

Lemma py_getitem_too_large {A} (l : list A) (i : Z) :
  Z.of_nat (length l) <= i -> py_getitem l i = Raise IndexError.
Proof.
  intros Hi. unfold py_getitem.
  destruct (Z.ltb_spec i 0) as [?|_]; [lia|].
  destruct (Z.ltb_spec i 0) as [?|_]; [lia|].
  destruct (Z.leb_spec (Z.of_nat (length l)) i) as [_|?]; [done|lia].
Qed.

Lemma py_getitem_too_small {A} (l : list A) (i : Z) :
  i < - Z.of_nat (length l) -> py_getitem l i = Raise IndexError.
Proof.
  intros Hi. unfold py_getitem.
  destruct (Z.ltb_spec i 0) as [_|?]; [|lia].
  destruct (Z.ltb_spec (i + Z.of_nat (length l)) 0) as [_|?]; [done|lia].
Qed.

(** A negative index within [-len, -1] is in range: it addresses the list
    from its end. *)
Lemma py_getitem_negative {A} (l : list A) (i : Z) (x : A) :
  - Z.of_nat (length l) <= i < 0 ->
  l !! Z.to_nat (i + Z.of_nat (length l)) = Some x ->
  py_getitem l i = Ok x.
Proof.
  intros Hi Hx. unfold py_getitem.
  destruct (Z.ltb_spec i 0) as [_|?]; [|lia].
  destruct (Z.ltb_spec (i + Z.of_nat (length l)) 0) as [?|_]; [lia|].
  destruct (Z.leb_spec (Z.of_nat (length l)) (i + Z.of_nat (length l)))
    as [?|_]; [lia|].
  simpl. by rewrite Hx.
Qed.

(** ** The single-row path *)

(** C7.  With an explicit node index that is out of range for the node
    list (at or beyond its length, or below minus its length),
    [generate_single] raises a bounds error: the failed assertion in the
    first case, the list's index error in the second.  The trace at that
    point holds the run configuration and the strategy's initialization
    and no [evolve] call. *)
Theorem generate_single_out_of_range
    (self : TestsetGenerator) (env : Env) (evolution : Evolution)
    (score_threshold : float) (node_index : Z) (tr : list Event) :
  Z.of_nat (length (ds_nodes (self_docstore self))) <= node_index \/
  node_index < - Z.of_nat (length (ds_nodes (self_docstore self))) ->
  generate_single self env evolution score_threshold (Some node_index) tr =
  (Raise (if Z.of_nat (length (ds_nodes (self_docstore self))) <=? node_index
          then AssertionError else IndexError),
   tr ++ [EvSetRunConfig (mkRunConfig 15 600);
          EvInitStrategy (class_name (init_evolution self evolution)) true]).
Proof.
  intros Hrange. unfold generate_single, bind, tell, raise, lift, ret.
  rewrite <- app_assoc. simpl.
  destruct Hrange as [Hhi|Hlo].
  - destruct (Z.ltb_spec node_index
                (Z.of_nat (length (ds_nodes (self_docstore self)))))
      as [?|_]; [lia|].
    destruct (Z.leb_spec (Z.of_nat (length (ds_nodes (self_docstore self))))
                node_index) as [_|?]; [done|lia].
  - destruct (Z.ltb_spec node_index
                (Z.of_nat (length (ds_nodes (self_docstore self)))))
      as [_|?]; [|lia].
    destruct (Z.leb_spec (Z.of_nat (length (ds_nodes (self_docstore self))))
                node_index) as [?|_]; [lia|].
    by rewrite py_getitem_too_small.
Qed.

Lemma generate_single_out_of_range_witness :
  generate_single demo_generator (const_env NaN) simple (float_lit 4 1) (Some 3) [] =
  (Raise AssertionError,
   [EvSetRunConfig (mkRunConfig 15 600);
    EvInitStrategy "SimpleEvolution" true]).
Proof.
  apply (generate_single_out_of_range demo_generator (const_env NaN) simple (float_lit 4 1)
           3 []).
  left. simpl. lia.
Defined.

(** The index [-1] is in range for a Python list: the call goes on to
    [evolve] with the last node. *)
Lemma generate_single_negative_index :
  generate_single demo_generator (const_env NaN) simple (float_lit 4 1) (Some (-1)) []
  = (Ok None,
     [EvSetRunConfig (mkRunConfig 15 600);
      EvInitStrategy "SimpleEvolution" true;
      EvEvolve "SimpleEvolution"
        (mkCurrentNodes (NodeObj (mkNode "n2")) [NodeObj (mkNode "n2")])]).
Proof. vm_compute. reflexivity. Qed.

(** C8.  A call of [generate_single] that returns made exactly one
    [evolve] call, the last event of the trace.  When that call produced a
    row, the result holds exactly that row; when it produced the invalid
    sentinel, the result is [None].  The result never holds the
    sentinel. *)
Theorem generate_single_row_or_nothing
    (self : TestsetGenerator) (env : Env) (evolution : Evolution)
    (score_threshold : float) (node_index : option Z) (tr tr' : list Event)
    (res : option (TestDataset Outcome)) :
  generate_single self env evolution score_threshold node_index tr
    = (Ok res, tr') ->
  exists (before : list Event) (node : CurrentNodes) (o : Outcome),
    tr' = before ++ [EvEvolve (class_name (init_evolution self evolution))
                       node] /\
    Forall (fun ev => forall cls nd, ev <> EvEvolve cls nd)
      (drop (length tr) before) /\
    env_evolve env before (init_evolution self evolution) node = Returns o /\
    match o with
    | Row r => res = Some (mkTestDataset (Row r))
    | NaN => res = None
    end /\
    res <> Some (mkTestDataset NaN).
Proof.
  unfold generate_single, bind, tell, raise, lift, ret, call_evolve,
    get_random_nodes.
  rewrite <- app_assoc. simpl.
  set (e' := init_evolution self evolution).
  set (pre := tr ++ [EvSetRunConfig (mkRunConfig 15 600);
                     EvInitStrategy (class_name e') true]).
  assert (Hpre : Forall (fun ev => forall cls nd, ev <> EvEvolve cls nd)
                   (drop (length tr) pre)).
  { subst pre. rewrite drop_app_length. repeat constructor; discriminate. }
  assert (Hpre' : forall k,
             Forall (fun ev => forall cls nd, ev <> EvEvolve cls nd)
               (drop (length tr) (pre ++ [EvSampleNodes k]))).
  { intros k. subst pre. rewrite <- app_assoc. rewrite drop_app_length.
    repeat constructor; discriminate. }
  destruct node_index as [i|].
  - destruct (i <? Z.of_nat (length (ds_nodes (self_docstore self))));
      [|discriminate].
    destruct (py_getitem (ds_nodes (self_docstore self)) i) as [n|];
      [|discriminate].
    destruct (env_evolve env pre e' _) as [o|msg] eqn:Hev; [|discriminate].
    destruct o as [r|]; simpl; intros [= <- <-];
      eexists pre, _, _; (split; [reflexivity|]);
      (split; [exact Hpre|]); (split; [exact Hev|]); split; done.
  - destruct (env_get_random_nodes env pre _ 1 _) as [l|]; [|discriminate].
    destruct (env_evolve env _ e' _) as [o|msg] eqn:Hev; [|discriminate].
    destruct o as [r|]; simpl; intros [= <- <-];
      eexists (pre ++ [EvSampleNodes 1]), _, _; (split; [reflexivity|]);
      (split; [apply Hpre'|]); (split; [exact Hev|]); split; done.
Qed.

Lemma generate_single_row_or_nothing_witness :
  exists (before : list Event) (node : CurrentNodes) (o : Outcome),
    [EvSetRunConfig (mkRunConfig 15 600);
     EvInitStrategy "SimpleEvolution" true;
     EvEvolve "SimpleEvolution"
       (mkCurrentNodes (NodeObj (mkNode "n1")) [NodeObj (mkNode "n1")])]
    = before ++ [EvEvolve (class_name (init_evolution demo_generator simple))
                   node] /\
    Forall (fun ev => forall cls nd, ev <> EvEvolve cls nd)
      (drop (length (@nil Event)) before) /\
    env_evolve (const_env (Row demo_row)) before
      (init_evolution demo_generator simple) node = Returns o /\
    match o with
    | Row r => Some (mkTestDataset (Row demo_row))
               = Some (mkTestDataset (Row r))
    | NaN => Some (mkTestDataset (Row demo_row)) = None
    end /\
    Some (mkTestDataset (Row demo_row)) <> Some (mkTestDataset NaN).
Proof.
  apply (generate_single_row_or_nothing demo_generator
           (const_env (Row demo_row)) simple (float_lit 4 1) (Some 1) []).
  reflexivity.
Defined.

(** ** Rounding a product to the float format *)

(** One right shift halves the mantissa; a record that is inexact
    afterwards was inexact before or has lost a set bit. *)
Lemma shr_1_spec (mrs : shr_record) :
  0 <= shr_m mrs ->
  shr_m (shr_1 mrs) = shr_m mrs / 2 /\
  (inexact (shr_1 mrs) = true ->
   inexact mrs = true \/ shr_m mrs `mod` 2 <> 0).
Proof.
  destruct mrs as [m r s]. unfold inexact. simpl. intros Hm.
  destruct m as [|[p|p|]|p]; simpl; try lia.
  - split; [done|]. destruct r, s; simpl; auto.
  - split; [rewrite Pos2Z.inj_xI; Z.div_mod_to_equations; lia|].
    intros _. right. rewrite Pos2Z.inj_xI. Z.div_mod_to_equations. lia.
  - split; [rewrite Pos2Z.inj_xO; Z.div_mod_to_equations; lia|].
    destruct r, s; simpl; auto.
  - split; [done|]. intros _. by right.
Qed.

Lemma iter_shr_1_spec (p : positive) (mrs : shr_record) :
  0 <= shr_m mrs ->
  shr_m (SpecFloat.iter_pos shr_1 p mrs) = shr_m mrs / 2 ^ Zpos p /\
  (inexact (SpecFloat.iter_pos shr_1 p mrs) = true ->
   inexact mrs = true \/ shr_m mrs `mod` 2 ^ Zpos p <> 0).
Proof.
  revert mrs. induction p as [p IH|p IH|]; intros mrs Hm.
  - simpl SpecFloat.iter_pos.
    destruct (shr_1_spec mrs Hm) as [H1 I1].
    assert (Hm1 : 0 <= shr_m (shr_1 mrs)) by (rewrite H1; apply Z.div_pos; lia).
    destruct (IH _ Hm1) as [H2 I2].
    assert (Hm2 : 0 <= shr_m (SpecFloat.iter_pos shr_1 p (shr_1 mrs))).
    { rewrite H2. apply Z.div_pos; [done|]. apply Z.pow_pos_nonneg; lia. }
    destruct (IH _ Hm2) as [H3 I3].
    assert (Hpow : 2 ^ Zpos p~1 = 2 * 2 ^ Zpos p * 2 ^ Zpos p).
    { replace (Zpos p~1) with (1 + Zpos p + Zpos p) by lia.
      rewrite !Z.pow_add_r by lia. by rewrite Z.pow_1_r. }
    pose proof (Z.pow_pos_nonneg 2 (Zpos p) ltac:(lia) ltac:(lia)) as Hpp.
    split.
    + rewrite H3, H2, H1, Hpow. rewrite !Z.div_div by lia. f_equal; lia.
    + intros Hi. apply I3 in Hi as [Hi|Hi].
      * apply I2 in Hi as [Hi|Hi].
        -- apply I1 in Hi as [Hi|Hi]; [by left|]. right.
           intros H0. apply Hi. rewrite Hpow in H0.
           apply Z.mod_divide in H0; [|lia]. apply Z.mod_divide; [lia|].
           destruct H0 as [c Hc]. exists (c * 2 ^ Zpos p * 2 ^ Zpos p). lia.
        -- right. intros H0. apply Hi. rewrite H1. rewrite Hpow in H0.
           apply Z.mod_divide in H0; [|lia]. destruct H0 as [c Hc].
           rewrite Hc. replace (c * (2 * 2 ^ Zpos p * 2 ^ Zpos p)) with ((c * 2 ^ Zpos p * 2 ^ Zpos p) * 2) by lia.
           rewrite Z.div_mul by lia.
           replace (c * 2 ^ Zpos p * 2 ^ Zpos p) with ((c * 2 ^ Zpos p) * 2 ^ Zpos p) by lia.
           apply Z.mod_mul. lia.
      * right. intros H0. apply Hi. rewrite H2, H1. rewrite Hpow in H0.
        apply Z.mod_divide in H0; [|lia]. destruct H0 as [c Hc].
        rewrite Hc. rewrite Z.div_div by lia.
        replace (c * (2 * 2 ^ Zpos p * 2 ^ Zpos p)) with ((c * 2 ^ Zpos p) * (2 * 2 ^ Zpos p)) by lia.
        rewrite Z.div_mul by lia. apply Z.mod_mul. lia.
  - simpl SpecFloat.iter_pos.
    destruct (IH _ Hm) as [H2 I2].
    assert (Hm2 : 0 <= shr_m (SpecFloat.iter_pos shr_1 p mrs)).
    { rewrite H2. apply Z.div_pos; [done|]. apply Z.pow_pos_nonneg; lia. }
    destruct (IH _ Hm2) as [H3 I3].
    assert (Hpow : 2 ^ Zpos p~0 = 2 ^ Zpos p * 2 ^ Zpos p).
    { replace (Zpos p~0) with (Zpos p + Zpos p) by lia.
      rewrite Z.pow_add_r by lia. reflexivity. }
    pose proof (Z.pow_pos_nonneg 2 (Zpos p) ltac:(lia) ltac:(lia)) as Hpp.
    split.
    + rewrite H3, H2, Hpow. by rewrite Z.div_div by lia.
    + intros Hi. apply I3 in Hi as [Hi|Hi].
      * apply I2 in Hi as [Hi|Hi]; [by left|]. right.
        intros H0. apply Hi. rewrite Hpow in H0.
        apply Z.mod_divide in H0; [|lia]. apply Z.mod_divide; [lia|].
        destruct H0 as [c Hc]. exists (c * 2 ^ Zpos p). lia.
      * right. intros H0. apply Hi. rewrite H2. rewrite Hpow in H0.
        apply Z.mod_divide in H0; [|lia]. destruct H0 as [c Hc].
        rewrite Hc.
        replace (c * (2 ^ Zpos p * 2 ^ Zpos p)) with ((c * 2 ^ Zpos p) * 2 ^ Zpos p) by lia.
        rewrite Z.div_mul by lia. apply Z.mod_mul. lia.
  - simpl SpecFloat.iter_pos. change (2 ^ 1) with 2. by apply shr_1_spec.
Qed.
Lemma shr_exact_spec (m e n : Z) (mrs : shr_record) (e' : Z) :
  0 <= m ->
  shr (Build_shr_record m false false) e n = (mrs, e') ->
  0 <= e' - e /\ (e' = e \/ e' = e + n) /\
  shr_m mrs = m / 2 ^ (e' - e) /\
  (inexact mrs = true -> m `mod` 2 ^ (e' - e) <> 0).
Proof.
  intros Hm. unfold shr.
  destruct n as [|p|p]; intros [= <- <-];
    try (rewrite Z.sub_diag; simpl; rewrite Z.div_1_r;
         split; [lia|]; split; [by left|]; split; [done|]; discriminate).
  replace (e + Zpos p - e) with (Zpos p) by lia.
  destruct (iter_shr_1_spec p (Build_shr_record m false false) Hm) as [H1 H2].
  split; [lia|]. split; [by right|]. split; [exact H1|].
  intros Hi. by destruct (H2 Hi).
Qed.

Lemma round_nearest_even_spec (mrs : shr_record) :
  let m1 := round_nearest_even (shr_m mrs) (loc_of_shr_record mrs) in
  shr_m mrs <= m1 <= shr_m mrs + 1 /\
  (inexact mrs = false -> m1 = shr_m mrs).
Proof.
  destruct mrs as [m r s]. unfold inexact. simpl.
  destruct r, s; simpl; try (split; [lia|done]).
  destruct (Z.even m); split; (lia || done).
Qed.

Lemma digits2_pos_size (m : positive) : digits2_pos m = Pos.size m.
Proof. induction m as [m IH|m IH|]; simpl; by rewrite ?IH. Qed.

Lemma digits2_pos_lower (m : positive) : 2 ^ (Zpos (digits2_pos m) - 1) <= Zpos m.
Proof.
  rewrite digits2_pos_size.
  pose proof (Pos.size_le m) as H.
  apply Pos2Z.pos_le_pos in H. rewrite Pos2Z.inj_pow in H.
  replace (Zpos (Pos.size m)) with (1 + (Zpos (Pos.size m) - 1)) in H by lia.
  rewrite Z.pow_add_r in H by lia. rewrite Z.pow_1_r in H. lia.
Qed.

Lemma fexp_below (n m e : Z) :
  0 <= n < 2 ^ 53 -> 0 <= m -> below n m e ->
  fexp prec emax (Zdigits2 m + e) <= 0.
Proof.
  intros Hn Hm [He Hle]. unfold fexp, emin, prec, emax.
  apply Z.max_lub; [|lia].
  destruct m as [|p|p]; [simpl; lia| |lia].
  simpl Zdigits2. pose proof (digits2_pos_lower p) as Hlow.
  assert (Hlt : 2 ^ (Zpos (digits2_pos p) - 1) < 2 ^ (53 - e)).
  { eapply Z.le_lt_trans; [exact Hlow|]. eapply Z.le_lt_trans; [exact Hle|].
    replace (53 - e) with (53 + - e) by lia. rewrite Z.pow_add_r by lia.
    apply Z.mul_lt_mono_pos_r; [apply Z.pow_pos_nonneg; lia|lia]. }
  apply Z.pow_lt_mono_r_iff in Hlt; lia.
Qed.

(** One right shift to the format's exponent, then rounding to nearest:
    a value below an integer [n < 2^53] stays below it. *)
Lemma shift_round_below (n m e : Z) (mrs : shr_record) (e' : Z) :
  0 <= n < 2 ^ 53 -> 0 <= m -> below n m e ->
  shr_fexp prec emax m e loc_Exact = (mrs, e') ->
  0 <= round_nearest_even (shr_m mrs) (loc_of_shr_record mrs) /\
  below n (round_nearest_even (shr_m mrs) (loc_of_shr_record mrs)) e'.
Proof.
  intros Hn Hm Hb Hs. pose proof (fexp_below n m e Hn Hm Hb) as Hf.
  destruct Hb as [He Hle].
  unfold shr_fexp in Hs. simpl shr_record_of_loc in Hs.
  apply shr_exact_spec in Hs as (HK & He' & Hm' & Hin); [|done].
  destruct (round_nearest_even_spec mrs) as [[Hlo Hhi] Hex].
  set (m1 := round_nearest_even _ _) in *.
  assert (He0 : e' <= 0) by (destruct He' as [->| ->]; lia).
  set (K := e' - e) in *.
  pose proof (Z.pow_pos_nonneg 2 K ltac:(lia) HK) as HpK.
  assert (Hsplit : n * 2 ^ (- e) = n * 2 ^ (- e') * 2 ^ K).
  { replace (- e) with (- e' + K) by lia. rewrite Z.pow_add_r by lia. lia. }
  pose proof (Z.div_mod m (2 ^ K) ltac:(lia)) as Hdm.
  pose proof (Z.mod_pos_bound m (2 ^ K) HpK) as Hmod.
  rewrite <- Hm' in Hdm.
  assert (Hm0 : 0 <= shr_m mrs) by (rewrite Hm'; apply Z.div_pos; lia).
  split; [lia|]. split; [exact He0|].
  destruct (inexact mrs) eqn:Hi.
  - specialize (Hin eq_refl). nia.
  - rewrite (Hex eq_refl). nia.
Qed.

(** A second shift only truncates. *)
Lemma shift_below (n m e : Z) (mrs : shr_record) (e' : Z) :
  0 <= n < 2 ^ 53 -> 0 <= m -> below n m e ->
  shr_fexp prec emax m e loc_Exact = (mrs, e') ->
  0 <= shr_m mrs /\ below n (shr_m mrs) e'.
Proof.
  intros Hn Hm Hb Hs. pose proof (fexp_below n m e Hn Hm Hb) as Hf.
  destruct Hb as [He Hle].
  unfold shr_fexp in Hs. simpl shr_record_of_loc in Hs.
  apply shr_exact_spec in Hs as (HK & He' & Hm' & _); [|done].
  assert (He0 : e' <= 0) by (destruct He' as [->| ->]; lia).
  set (K := e' - e) in *.
  pose proof (Z.pow_pos_nonneg 2 K ltac:(lia) HK) as HpK.
  assert (Hsplit : n * 2 ^ (- e) = n * 2 ^ (- e') * 2 ^ K).
  { replace (- e) with (- e' + K) by lia. rewrite Z.pow_add_r by lia. lia. }
  pose proof (Z.div_mod m (2 ^ K) ltac:(lia)) as Hdm.
  pose proof (Z.mod_pos_bound m (2 ^ K) HpK) as Hmod.
  rewrite <- Hm' in Hdm.
  assert (Hm0 : 0 <= shr_m mrs) by (rewrite Hm'; apply Z.div_pos; lia).
  split; [lia|]. split; [exact He0|]. nia.
Qed.

(** Rounding a positive value below [n] to the format: the result is a
    zero or a positive finite float below [n]. *)
Lemma binary_round_aux_below (n : Z) (m : positive) (e : Z) :
  0 <= n < 2 ^ 53 -> below n (Zpos m) e ->
  binary_round_aux prec emax false (Zpos m) e loc_Exact = S754_zero false \/
  exists m2 e2,
    binary_round_aux prec emax false (Zpos m) e loc_Exact
    = S754_finite false m2 e2 /\
    below n (Zpos m2) e2.
Proof.
  intros Hn Hb. unfold binary_round_aux.
  destruct (shr_fexp prec emax (Zpos m) e loc_Exact) as [mrs1 e1] eqn:H1.
  destruct (shift_round_below n (Zpos m) e mrs1 e1 Hn ltac:(lia) Hb H1)
    as [Hm1 Hb1].
  destruct (shr_fexp prec emax _ e1 loc_Exact) as [mrs2 e2] eqn:H2.
  destruct (shift_below n _ e1 mrs2 e2 Hn Hm1 Hb1 H2) as [Hm2 Hb2].
  destruct (shr_m mrs2) as [|m2|m2]; [by left| |lia].
  right. exists m2, e2.
  destruct Hb2 as [He2 Hle2].
  destruct (Z.leb_spec e2 (emax - prec)) as [_|Hbig]; [done|].
  unfold emax, prec in Hbig. lia.
Qed.
(** Rounding never passes an integer bound. *)
Lemma round_half_even_le (x : Q) (n : Z) : (x <= inject_Z n)%Q -> round_half_even x <= n.
Proof.
  intros Hx. unfold round_half_even.
  pose proof (Qfloor_le x) as Hfl.
  assert (Hfn : Qfloor x <= n).
  { rewrite <- (Qfloor_Z n). by apply Qfloor_resp_le. }
  destruct (Z.eq_dec (Qfloor x) n) as [Heq|Hne].
  - assert (Hd : (x - inject_Z (Qfloor x) == 0)%Q).
    { rewrite Heq. apply Qle_antisym.
      - apply (Qplus_le_l _ _ (inject_Z n)). ring_simplify. exact Hx.
      - apply (Qplus_le_l _ _ (inject_Z n)). ring_simplify.
        rewrite <- Heq. exact Hfl. }
    rewrite (Qcompare_comp _ _ Hd (1 # 2) (1 # 2) (Qeq_refl _)).
    simpl. lia.
  - destruct (x - inject_Z (Qfloor x) ?= 1 # 2)%Q; [destruct (Z.even _)| |];
      lia.
Qed.

Lemma round_half_even_nonneg (x : Q) : (0 <= x)%Q -> 0 <= round_half_even x.
Proof.
  intros Hx. unfold round_half_even.
  assert (0 <= Qfloor x).
  { change 0 with (Qfloor 0). by apply Qfloor_resp_le. }
  destruct (Qcompare _ _); [destruct (Z.even _)| |]; lia.
Qed.

Lemma scale_below (n : Z) (m : positive) (e : Z) :
  below n (Zpos m) e ->
  (0 <= scale (Zpos m) e)%Q /\ (scale (Zpos m) e <= inject_Z n)%Q.
Proof.
  intros [He Hle]. unfold scale, Qle. destruct e as [|p|p]; [| lia |]; simpl.
  - simpl in Hle. lia.
  - change (- Zneg p) with (Zpos p) in Hle. rewrite Pos2Z.inj_pow. lia.
Qed.

Lemma below_of_scale (m : positive) (e : Z) :
  (scale (Zpos m) e <= 1)%Q -> below 1 (Zpos m) e.
Proof.
  unfold scale, Qle, below. destruct e as [|p|p]; simpl.
  - lia.
  - intros H. exfalso. pose proof (Z.pow_pos_nonneg 2 (Zpos p) ltac:(lia) ltac:(lia)).
    assert (2 ^ 1 <= 2 ^ Zpos p) by (apply Z.pow_le_mono_r; lia).
    change (Z.pow_pos 2 p) with (2 ^ Zpos p) in H. nia.
  - rewrite Pos2Z.inj_pow. change (- Zneg p) with (Zpos p). lia.
Qed.

Lemma float_of_int_below (n : Z) :
  0 <= n < 2 ^ 53 ->
  exists y : float,
    float_of_int n = Ok y /\
    (y = S754_zero false \/
     exists m e, y = S754_finite false m e /\ below n (Zpos m) e).
Proof.
  intros Hn. unfold float_of_int.
  destruct n as [|p|p]; [exists (S754_zero false); by split; [|left]| |lia].
  unfold binary_normalize, binary_round.
  assert (Hd : Zpos (digits2_pos p) <= 53).
  { pose proof (digits2_pos_lower p) as Hlow.
    assert (Hlt : 2 ^ (Zpos (digits2_pos p) - 1) < 2 ^ 53) by lia.
    apply Z.pow_lt_mono_r_iff in Hlt; lia. }
  assert (Hf : fexp prec emax (Zpos (digits2_pos p) + 0)
               = Zpos (digits2_pos p) - 53).
  { unfold fexp, emin, prec, emax. lia. }
  rewrite Hf.
  destruct (shl_align p 0 (Zpos (digits2_pos p) - 53)) as [mz ez] eqn:Hal.
  assert (Hb : below (Zpos p) (Zpos mz) ez).
  { unfold shl_align in Hal.
    destruct (Zpos (digits2_pos p) - 53 - 0) as [|d|d] eqn:Hdiff;
      injection Hal as <- <-.
    - split; [lia|]. simpl. lia.
    - lia.
    - split; [lia|].
      change (Pos.iter xO p d) with (shift_pos d p).
      rewrite shift_pos_correct.
      replace (- (Zpos (digits2_pos p) - 53)) with (Zpos d) by lia.
      change (Z.pow_pos 2 d) with (2 ^ Zpos d). lia. }
  destruct (binary_round_aux_below (Zpos p) mz ez Hn Hb)
    as [Hz|(m2 & e2 & Hr & Hb2)].
  - rewrite Hz. eexists. split; [reflexivity|by left].
  - rewrite Hr. eexists. split; [reflexivity|]. right. by exists m2, e2.
Qed.

(** A weight in [[0, 1]] and a size below [2^53]: the rounded count is
    defined and lies between 0 and the size. *)
Lemma rounded_product_unit (probability : float) (test_size : Z) (q : Q) :
  float_value probability = Some q -> (0 <= q)%Q -> (q <= 1)%Q ->
  0 <= test_size < 2 ^ 53 ->
  exists count,
    rounded_product probability test_size = Ok count /\
    0 <= count <= test_size.
Proof.
  intros Hv Hq0 Hq1 Hn. unfold rounded_product, float_mul_int.
  destruct (float_of_int_below test_size Hn) as (y & -> & Hy).
  destruct probability as [s| | |s m e]; simpl in Hv; try done.
  - destruct Hy as [->|(my & ey & -> & _)]; exists 0; simpl; (split; [done|lia]).
  - injection Hv as <-.
    destruct s.
    { exfalso. revert Hq0. unfold scale, Qle.
      destruct e as [|p|p]; simpl; lia. }
    destruct Hy as [->|(my & ey & -> & [Hey Hmy])].
    { exists 0. simpl. split; [done|lia]. }
    simpl SFmul.
    destruct (below_of_scale m e Hq1) as [He Hm].
    assert (Hb : below test_size (Zpos (m * my)) (e + ey)).
    { split; [lia|].
      replace (- (e + ey)) with (- e + - ey) by lia.
      rewrite Z.pow_add_r by lia. rewrite Pos2Z.inj_mul.
      pose proof (Z.pow_pos_nonneg 2 (- e) ltac:(lia) ltac:(lia)).
      pose proof (Z.pow_pos_nonneg 2 (- ey) ltac:(lia) ltac:(lia)).
      nia. }
    destruct (binary_round_aux_below test_size (m * my) (e + ey) Hn Hb)
      as [Hz|(m2 & e2 & Hr & Hb2)].
    + rewrite Hz. exists 0. simpl. split; [done|lia].
    + rewrite Hr. simpl. eexists. split; [reflexivity|].
      destruct (scale_below _ _ _ Hb2) as [Hlo Hhi].
      split; [by apply round_half_even_nonneg|by apply round_half_even_le].
Qed.

(** A number times zero rounds to zero. *)
Lemma rounded_product_zero (probability : float) (q : Q) :
  float_value probability = Some q -> rounded_product probability 0 = Ok 0.
Proof. by destruct probability. Qed.

(** The bound of the inner loop fails only on a value too large for the
    conversion or on a NaN. *)
Lemma rounded_product_raises (probability : float) (test_size : Z)
    (e : Exn) :
  rounded_product probability test_size = Raise e ->
  e = OverflowError \/ e = NanToIntError.
Proof.
  unfold rounded_product, float_mul_int, float_of_int.
  destruct (binary_normalize _ _ _ _ _);
    try (intros [= <-]; by left);
    (destruct (SFmul _ _ _ _); simpl; intros [= <-]; (by left) || (by right)).
Qed.

Lemma task_count_ok (probability : float) (test_size count : Z) :
  rounded_product probability test_size = Ok count ->
  task_count probability test_size = Z.to_nat count.
Proof. unfold task_count. by intros ->. Qed.

(** ** Loops in the monad *)

#[local] Arguments Nat.modulo : simpl never.
#[local] Arguments Nat.div : simpl never.
#[local] Arguments Nat.sub : simpl never.

Lemma for_each_cons {A S} (a : A) (l : list A) (body : A -> S -> M S) s tr :
  for_each (a :: l) body s tr =
  match body a s tr with
  | (Ok s1, tr1) => for_each l body s1 tr1
  | (Raise e, tr1) => (Raise e, tr1)
  end.
Proof. reflexivity. Qed.

Lemma bind_ok {A B} (m : M A) (k : A -> M B) (tr tr' : list Event) (a : A) :
  m tr = (Ok a, tr') -> bind m k tr = k a tr'.
Proof. unfold bind. by intros ->. Qed.

Lemma bind_raises {A B} (m : M A) (k : A -> M B) (tr tr' : list Event)
    (e : Exn) :
  m tr = (Raise e, tr') -> bind m k tr = (Raise e, tr').
Proof. unfold bind. by intros ->. Qed.

Lemma bind_inv {A B} (m : M A) (k : A -> M B) (tr tr' : list Event) (b : B) :
  bind m k tr = (Ok b, tr') ->
  exists a tr1, m tr = (Ok a, tr1) /\ k a tr1 = (Ok b, tr').
Proof.
  unfold bind. destruct (m tr) as [[a|e] tr1]; [|done].
  intros Hk. by exists a, tr1.
Qed.

(** A property of the loop state that every successful iteration keeps
    holds after a successful loop. *)
Lemma for_each_inv {A S} (I : S -> Prop) (l : list A)
    (body : A -> S -> M S) :
  (forall a s tr s' tr', I s -> body a s tr = (Ok s', tr') -> I s') ->
  forall s tr s' tr',
    I s -> for_each l body s tr = (Ok s', tr') -> I s'.
Proof.
  intros Hbody. induction l as [|a l IH]; intros s tr s' tr' Hs; simpl.
  - unfold ret. by intros [= <- <-].
  - unfold bind. destruct (body a s tr) as [[s1|e] tr1] eqn:Hb; [|done].
    intros Hrest. eapply IH; [|exact Hrest]. eapply Hbody; eauto.
Qed.

Lemma for_each_raises_only {A S} (P : Exn -> Prop) (l : list A)
    (body : A -> S -> M S) :
  (forall a s, raises_only P (body a s)) ->
  forall s, raises_only P (for_each l body s).
Proof.
  intros Hbody. induction l as [|a l IH]; intros s tr e tr'; simpl.
  - unfold ret. done.
  - unfold bind. destruct (body a s tr) as [[s1|e1] tr1] eqn:Hb.
    + apply IH.
    + intros [= <- <-]. eapply Hbody; eauto.
Qed.

(** ** Arithmetic and list facts used by the scheduler *)

Lemma succ_div_mod_wrap (t : nat) :
  (t `mod` 10 = 9 -> S t / 10 = t / 10 + 1 /\ S t `mod` 10 = 0)%nat.
Proof.
  intros Hm.
  pose proof (Nat.div_mod_eq t 10) as H1.
  pose proof (Nat.div_mod_eq (S t) 10) as H2.
  pose proof (Nat.mod_upper_bound (S t) 10 ltac:(lia)) as H3.
  pose proof (Nat.mod_upper_bound t 10 ltac:(lia)) as H4.
  lia.
Qed.

Lemma succ_div_mod_step (t : nat) :
  (t `mod` 10 <> 9 ->
   S t / 10 = t / 10 /\ S t `mod` 10 = t `mod` 10 + 1)%nat.
Proof.
  intros Hm.
  pose proof (Nat.div_mod_eq t 10) as H1.
  pose proof (Nat.div_mod_eq (S t) 10) as H2.
  pose proof (Nat.mod_upper_bound (S t) 10 ltac:(lia)) as H3.
  pose proof (Nat.mod_upper_bound t 10 ltac:(lia)) as H4.
  lia.
Qed.

Lemma py_getitem_nat_inv {A} (l : list A) (i : nat) (x : A) :
  py_getitem l (Z.of_nat i) = Ok x -> l !! i = Some x.
Proof.
  unfold py_getitem.
  destruct (Z.ltb_spec (Z.of_nat i) 0) as [?|_]; [lia|].
  destruct (Z.ltb_spec (Z.of_nat i) 0) as [?|_]; [lia|].
  destruct (Z.leb_spec (Z.of_nat (length l)) (Z.of_nat i)) as [?|_];
    [done|].
  simpl. rewrite Nat2Z.id. destruct (l !! i); [|done]. by intros [= ->].
Qed.

Lemma submit_last_snoc (full : list Executor) (e : Executor) (j : Job) :
  submit_last (full ++ [e]) j = Ok (full ++ [submit e j]).
Proof.
  unfold submit_last. rewrite reverse_snoc. by rewrite reverse_involutive.
Qed.

Lemma assignments_snoc (full : list Executor) (e : Executor) (n : nat) :
  assignments (mkSched (full ++ [e]) n)
  = concat (map jobs full) ++ jobs e.
Proof.
  unfold assignments. simpl. rewrite map_app, concat_app. simpl.
  by rewrite app_nil_r.
Qed.

Lemma node_indices_snoc (st st' : Sched) (j : Job) :
  assignments st' = assignments st ++ [j] ->
  node_indices st' = node_indices st ++ [job_node_index j].
Proof. unfold node_indices. intros ->. by rewrite map_app. Qed.

Lemma choices_from_runs {A} (draw : nat -> nat) (population : list A)
    (js : list nat) :
  population <> [] ->
  exists xs,
    choices_from draw population js = Ok xs /\ length xs = length js.
Proof.
  intros Hne. induction js as [|j js (xs & Hxs & Hlen)].
  - by exists [].
  - assert (Hlt : (draw j `mod` length population < length population)%nat).
    { apply Nat.mod_upper_bound. by destruct population. }
    destruct (lookup_lt_is_Some_2 population _ Hlt) as [x Hx].
    exists (x :: xs). simpl.
    rewrite (py_getitem_nat _ _ _ Hx), Hxs. split; [done|]. simpl. lia.
Qed.

(** For weights in [[0, 1]] and a size below [2^53] every bound of the
    main loop can be computed and none exceeds the size. *)
(** Decide [unit_weights] for given weights by evaluation. *)
Ltac weights_in_unit :=
  repeat (apply List.Forall_cons;
          [eexists; split;
           [vm_compute; reflexivity|split; vm_compute; discriminate]|]);
  apply List.Forall_nil.

Lemma unit_weights_defined (test_size : Z) (distributions : Distributions) :
  0 <= test_size < 2 ^ 53 -> unit_weights distributions ->
  counts_defined test_size distributions.
Proof.
  intros Hn Hw. eapply Forall_impl; [exact Hw|].
  intros [ev p] (q & Hv & Hq0 & Hq1). simpl in *.
  destruct (rounded_product_unit p test_size q Hv Hq0 Hq1 Hn)
    as (count & Hcount & _).
  by exists count.
Qed.

Lemma unit_weights_counts (test_size : Z) (distributions : Distributions) :
  0 <= test_size < 2 ^ 53 -> unit_weights distributions ->
  Forall (fun c => (c <= Z.to_nat test_size)%nat)
    (rounded_counts test_size distributions).
Proof.
  intros Hn Hw. unfold rounded_counts. apply Forall_map.
  eapply Forall_impl; [exact Hw|].
  intros [ev p] (q & Hv & Hq0 & Hq1). simpl in *.
  destruct (rounded_product_unit p test_size q Hv Hq0 Hq1 Hn)
    as (count & Hcount & Hrange).
  rewrite (task_count_ok _ _ _ Hcount). lia.
Qed.

(** ** The shape of the units *)

Lemma units_ok_initial (raise_exc : bool) :
  units_ok (mkSched [new_executor 0 raise_exc] 0).
Proof. exists [], (new_executor 0 raise_exc). repeat split; constructor. Qed.

Lemma length_concat_full (full : list Executor) :
  Forall (fun e => length (jobs e) = max_parallel_process) full ->
  length (concat (map jobs full)) = (max_parallel_process * length full)%nat.
Proof.
  unfold max_parallel_process.
  induction 1 as [|e full He _ IH]; simpl; [lia|].
  rewrite length_app, IH, He. lia.
Qed.

(** What [units_ok] says about counts: the counter is the number of
    registered tasks, there are [total / 10 + 1] units, and no unit holds
    more than ten tasks. *)
Lemma units_ok_counts (st : Sched) :
  units_ok st ->
  length (assignments st) = total_evolutions st /\
  length (execs st)
    = (total_evolutions st / max_parallel_process + 1)%nat /\
  Forall (fun e => (length (jobs e) <= max_parallel_process)%nat) (execs st).
Proof.
  intros (full & e & Hex & Hfull & Hlen & Hlast).
  destruct st as [units total]. simpl in *. subst units.
  pose proof (length_concat_full _ Hfull) as Hcat.
  unfold max_parallel_process in *.
  pose proof (Nat.div_mod_eq total 10) as Hdm.
  pose proof (Nat.mod_upper_bound total 10 ltac:(lia)) as Hub.
  split; [|split].
  - rewrite assignments_snoc, length_app, Hcat. lia.
  - rewrite length_app. simpl. lia.
  - apply Forall_app. split.
    + eapply Forall_impl; [exact Hfull|]. simpl. intros x ->. lia.
    + constructor; [lia|constructor].
Qed.

(** ** The scheduling loops *)

(** One round of the main loop: the bound is computed, then the strategy's
    tasks are registered, then the next strategy follows. *)
Lemma main_loop_cons (raise_exc : bool) (cn : list CurrentNodes)
    (test_size : Z) (ev : Evolution) (p : float) (dist : Distributions)
    (st : Sched) (tr : list Event) (count : Z) :
  rounded_product p test_size = Ok count ->
  main_loop raise_exc cn test_size ((ev, p) :: dist) st tr
  = match for_each (range count)
            (fun i st => submit_task raise_exc cn ev i st) st tr with
    | (Ok st1, tr1) => main_loop raise_exc cn test_size dist st1 tr1
    | (Raise e, tr1) => (Raise e, tr1)
    end.
Proof.
  intros Hcount. unfold main_loop. rewrite for_each_cons. cbv beta.
  unfold bind at 1, lift. simpl fst. simpl snd. by rewrite Hcount.
Qed.

Lemma main_loop_cons_raises (raise_exc : bool) (cn : list CurrentNodes)
    (test_size : Z) (ev : Evolution) (p : float) (dist : Distributions)
    (st : Sched) (tr : list Event) (e : Exn) :
  rounded_product p test_size = Raise e ->
  main_loop raise_exc cn test_size ((ev, p) :: dist) st tr = (Raise e, tr).
Proof.
  intros Hcount. unfold main_loop. rewrite for_each_cons. cbv beta.
  unfold bind at 1, lift. simpl fst. simpl snd. by rewrite Hcount.
Qed.

Section Scheduling.

  Context (env : Env) (raise_exc : bool) (cn : list CurrentNodes).

(** A step whose node index is in range registers the task with the last
    unit, keeps the shape of the units and advances the counter by one. *)
Lemma submit_task_step (ev : Evolution) (i : nat) (st : Sched)
    (tr : list Event) (node : CurrentNodes) :
  units_ok st -> cn !! i = Some node ->
  exists st' tr',
    submit_task raise_exc cn ev i st tr = (Ok st', tr') /\
    units_ok st' /\
    total_evolutions st' = S (total_evolutions st) /\
    assignments st' =
      assignments st
      ++ [mkJob ev i node (class_name ev +:+ "-" +:+ pretty i)].
Proof.
  intros (full & e & Hex & Hfull & Hlen & Hlast) Hi.
  destruct st as [units total]. simpl in *. subst units.
  unfold submit_task, bind, lift, tell, ret. simpl.
  rewrite (py_getitem_nat _ _ _ Hi), submit_last_snoc.
  unfold max_parallel_process in *.
  set (j := mkJob ev i node (class_name ev +:+ "-" +:+ pretty i)).
  destruct (Nat.eqb_spec (total `mod` 10) (10 - 1)) as [Hm|Hm].
  - destruct (succ_div_mod_wrap total ltac:(lia)) as [Hq Hr].
    eexists _, _. split; [reflexivity|].
    unfold units_ok, max_parallel_process. split; [|split; [done|]].
    + exists (full ++ [submit e j]),
        (new_executor (length (full ++ [submit e j])) raise_exc).
      simpl. split; [done|]. split; [|split].
      * apply Forall_app. split; [done|]. constructor; [|done].
        simpl. rewrite length_app. simpl. lia.
      * rewrite length_app. simpl. lia.
      * lia.
    + rewrite !assignments_snoc. rewrite map_app, concat_app. simpl.
      rewrite !app_nil_r. by rewrite app_assoc.
  - destruct (succ_div_mod_step total ltac:(lia)) as [Hq Hr].
    eexists _, _. split; [reflexivity|].
    unfold units_ok, max_parallel_process. split; [|split; [done|]].
    + exists full, (submit e j).
      simpl. split; [done|]. split; [done|]. split.
      * lia.
      * rewrite length_app. simpl. lia.
    + rewrite !assignments_snoc. simpl. by rewrite app_assoc.
Qed.

(** A step that returns had its node index in range. *)
Lemma submit_task_returns (ev : Evolution) (i : nat) (st st' : Sched)
    (tr tr' : list Event) :
  submit_task raise_exc cn ev i st tr = (Ok st', tr') ->
  exists node, cn !! i = Some node.
Proof.
  unfold submit_task, bind, lift.
  destruct (py_getitem cn (Z.of_nat i)) as [node|] eqn:Hg; [|done].
  intros _. exists node. by apply py_getitem_nat_inv.
Qed.

Lemma submit_task_keeps (ev : Evolution) (i : nat) (st st' : Sched)
    (tr tr' : list Event) :
  units_ok st ->
  submit_task raise_exc cn ev i st tr = (Ok st', tr') ->
  units_ok st'.
Proof.
  intros Hok Hrun.
  destruct (submit_task_returns _ _ _ _ _ _ Hrun) as [node Hnode].
  destruct (submit_task_step ev i st tr node Hok Hnode)
    as (st2 & tr2 & Heq & Hok2 & _).
  rewrite Hrun in Heq. by injection Heq as -> ->.
Qed.

(** The scheduling loops keep the shape of the units. *)

Lemma main_loop_keeps (test_size : Z) (distributions : Distributions)
    (st st' : Sched) (tr tr' : list Event) :
  units_ok st ->
  main_loop raise_exc cn test_size distributions st tr = (Ok st', tr') ->
  units_ok st'.
Proof.
  unfold main_loop. intros Hok Hrun.
  eapply (for_each_inv units_ok); [|exact Hok|exact Hrun].
  intros item s t s' t' Hs Hinner.
  apply bind_inv in Hinner as (count & t1 & _ & Hinner).
  eapply (for_each_inv units_ok); [|exact Hs|exact Hinner].
  intros i s1 t2 s2 t3 Hs1 Hstep. by eapply submit_task_keeps.
Qed.

Lemma backfill_keeps (test_size : Z) (distributions : Distributions)
    (st st' : Sched) (tr tr' : list Event) :
  units_ok st ->
  backfill env raise_exc cn test_size distributions st tr = (Ok st', tr') ->
  units_ok st'.
Proof.
  unfold backfill. intros Hok.
  destruct (Z.of_nat (total_evolutions st) <=? test_size).
  - unfold bind, choices.
    destruct (choices_from _ _ _) as [filler|]; simpl; [|done].
    intros Hrun.
    eapply (for_each_inv units_ok); [|exact Hok|exact Hrun].
    intros ev s1 t1 s2 t2 Hs1 Hstep.
    exact (submit_task_keeps _ _ _ _ _ _ Hs1 Hstep).
  - unfold ret. by intros [= <- <-].
Qed.

Lemma schedule_keeps (test_size : Z) (distributions : Distributions)
    (st : Sched) (tr tr' : list Event) :
  schedule env raise_exc cn test_size distributions tr = (Ok st, tr') ->
  units_ok st.
Proof.
  unfold schedule, bind.
  destruct (main_loop _ _ _ _ _ tr) as [[st1|] tr1] eqn:Hmain; [|done].
  intros Hback.
  eapply backfill_keeps; [|exact Hback].
  eapply main_loop_keeps; [|exact Hmain].
  apply units_ok_initial.
Qed.

(** The inner loop over [i = a, ..., a + c - 1], all within the node
    list. *)
Lemma index_loop_runs (ev : Evolution) (c a : nat) (st : Sched) (tr : list Event) :
  units_ok st -> (a + c <= length cn)%nat ->
  exists st' tr',
    for_each (seq a c)
      (fun i st => submit_task raise_exc cn ev i st) st tr = (Ok st', tr') /\
    units_ok st' /\
    total_evolutions st' = (total_evolutions st + c)%nat /\
    node_indices st' = node_indices st ++ seq a c.
Proof.
  revert a st tr. induction c as [|c IH]; intros a st tr Hok Hlen.
  - exists st, tr. simpl. rewrite app_nil_r. repeat split; [done|lia].
  - destruct (lookup_lt_is_Some_2 cn a ltac:(lia)) as [node Hnode].
    destruct (submit_task_step ev a st tr node Hok Hnode)
      as (st1 & tr1 & Hstep & Hok1 & Htot1 & Hasg1).
    destruct (IH (S a) st1 tr1 Hok1 ltac:(lia))
      as (st2 & tr2 & Hrest & Hok2 & Htot2 & Hidx2).
    exists st2, tr2. simpl. unfold bind. rewrite Hstep.
    split; [exact Hrest|]. split; [exact Hok2|]. split; [lia|].
    rewrite Hidx2, (node_indices_snoc _ _ _ Hasg1). simpl.
    by rewrite <- app_assoc.
Qed.

(** The backfill loop: each task takes the node at the running counter. *)
Lemma filler_loop_runs (filler : list Evolution) (st : Sched) (tr : list Event) :
  units_ok st ->
  (total_evolutions st + length filler <= length cn)%nat ->
  exists st' tr',
    for_each filler
      (fun ev st => submit_task raise_exc cn ev (total_evolutions st) st)
      st tr = (Ok st', tr') /\
    units_ok st' /\
    total_evolutions st' = (total_evolutions st + length filler)%nat /\
    node_indices st'
      = node_indices st ++ seq (total_evolutions st) (length filler).
Proof.
  revert st tr. induction filler as [|ev filler IH]; intros st tr Hok Hlen.
  - exists st, tr. simpl. rewrite app_nil_r. repeat split; [done|lia].
  - simpl in Hlen.
    destruct (lookup_lt_is_Some_2 cn (total_evolutions st) ltac:(lia))
      as [node Hnode].
    destruct (submit_task_step ev (total_evolutions st) st tr
                node Hok Hnode)
      as (st1 & tr1 & Hstep & Hok1 & Htot1 & Hasg1).
    destruct (IH st1 tr1 Hok1 ltac:(lia))
      as (st2 & tr2 & Hrest & Hok2 & Htot2 & Hidx2).
    exists st2, tr2. simpl. unfold bind. rewrite Hstep.
    split; [exact Hrest|]. split; [exact Hok2|]. split; [lia|].
    rewrite Hidx2, (node_indices_snoc _ _ _ Hasg1), Htot1. simpl.
    by rewrite <- app_assoc.
Qed.

Lemma main_loop_runs (test_size : Z) (distributions : Distributions)
    (st : Sched) (tr : list Event) :
  units_ok st ->
  counts_defined test_size distributions ->
  Forall (fun c => (c <= length cn)%nat)
    (rounded_counts test_size distributions) ->
  exists st' tr',
    main_loop raise_exc cn test_size distributions st tr = (Ok st', tr') /\
    units_ok st' /\
    total_evolutions st'
      = (total_evolutions st + rounded_total test_size distributions)%nat /\
    node_indices st'
      = node_indices st
        ++ concat (map (seq 0) (rounded_counts test_size distributions)).
Proof.
  unfold rounded_total.
  revert st tr.
  induction distributions as [|[ev p] dist IH]; intros st tr Hok Hdef Hall.
  - exists st, tr. simpl. rewrite app_nil_r. repeat split; [done|lia].
  - simpl in Hall. apply Forall_cons in Hall as [Hc Hall].
    apply Forall_cons in Hdef as [[count Hcount] Hdef]. simpl in Hcount.
    rewrite (task_count_ok _ _ _ Hcount) in Hc.
    destruct (index_loop_runs ev (Z.to_nat count) 0 st tr Hok ltac:(lia))
      as (st1 & tr1 & Hinner & Hok1 & Htot1 & Hidx1).
    destruct (IH st1 tr1 Hok1 Hdef Hall)
      as (st2 & tr2 & Hrest & Hok2 & Htot2 & Hidx2).
    exists st2, tr2. rewrite (main_loop_cons _ _ _ _ _ _ _ _ _ Hcount).
    unfold range. rewrite Hinner.
    split; [exact Hrest|]. split; [exact Hok2|].
    simpl. rewrite (task_count_ok _ _ _ Hcount).
    split; [lia|].
    rewrite Hidx2, Hidx1. by rewrite <- app_assoc.
Qed.

(** The backfill brings the counter up to [test_size] when it is below,
    and changes nothing otherwise. *)
Lemma backfill_runs (test_size : Z) (distributions : Distributions)
    (st : Sched) (tr : list Event) :
  units_ok st -> distributions <> [] ->
  (Z.to_nat test_size <= length cn)%nat ->
  exists st' tr',
    backfill env raise_exc cn test_size distributions st tr = (Ok st', tr') /\
    units_ok st' /\
    total_evolutions st'
      = Nat.max (total_evolutions st) (Z.to_nat test_size) /\
    node_indices st'
      = node_indices st
        ++ seq (total_evolutions st)
             (Z.to_nat test_size - total_evolutions st) /\
    (test_size <= Z.of_nat (total_evolutions st) -> st' = st /\ tr' = tr).
Proof.
  intros Hok Hne Hcn. unfold backfill.
  destruct (Z.leb_spec (Z.of_nat (total_evolutions st)) test_size) as [Hle|Hgt].
  - unfold bind, choices.
    destruct (choices_from_runs (env_random env tr) (map fst distributions)
                (range (test_size - Z.of_nat (total_evolutions st))))
      as (filler & Hfill & Hflen).
    { by destruct distributions. }
    rewrite Hfill.
    unfold range in Hflen. rewrite length_seq in Hflen.
    assert (Hk : length filler
                 = (Z.to_nat test_size - total_evolutions st)%nat) by lia.
    destruct (filler_loop_runs filler st tr Hok ltac:(lia))
      as (st' & tr' & Hrun & Hok' & Htot' & Hidx').
    exists st', tr'. split; [exact Hrun|]. split; [exact Hok'|].
    split; [lia|]. split; [by rewrite Hidx', Hk|].
    intros Hge. assert (filler = []) as -> by (apply nil_length_inv; lia).
    simpl in Hrun. unfold ret in Hrun. by injection Hrun as -> ->.
  - exists st, tr. split; [done|]. split; [done|]. split; [lia|].
    split; [|done].
    replace (Z.to_nat test_size - total_evolutions st)%nat with 0%nat by lia.
    simpl. by rewrite app_nil_r.
Qed.

(** From the first unit to the end of the backfill, for weights in
    [[0, 1]], a size below [2^53] and one node-context per requested
    row. *)
Lemma schedule_runs (test_size : Z) (distributions : Distributions)
    (tr : list Event) :
  0 <= test_size < 2 ^ 53 -> length cn = Z.to_nat test_size ->
  distributions <> [] -> unit_weights distributions ->
  exists st_main tr_main st tr',
    main_loop raise_exc cn test_size distributions
      (mkSched [new_executor 0 raise_exc] 0) tr = (Ok st_main, tr_main) /\
    backfill env raise_exc cn test_size distributions st_main tr_main
      = (Ok st, tr') /\
    schedule env raise_exc cn test_size distributions tr = (Ok st, tr') /\
    units_ok st_main /\ units_ok st /\
    total_evolutions st_main = rounded_total test_size distributions /\
    total_evolutions st
      = Nat.max (rounded_total test_size distributions)
          (Z.to_nat test_size) /\
    node_indices st
      = concat (map (seq 0) (rounded_counts test_size distributions))
        ++ seq (rounded_total test_size distributions)
             (Z.to_nat test_size - rounded_total test_size distributions) /\
    (test_size <= Z.of_nat (rounded_total test_size distributions) ->
     st = st_main /\ tr' = tr_main).
Proof.
  intros Hn Hcn Hne Hw.
  destruct (main_loop_runs test_size distributions
              (mkSched [new_executor 0 raise_exc] 0) tr
              (units_ok_initial raise_exc))
    as (st1 & tr1 & Hmain & Hok1 & Htot1 & Hidx1).
  { by apply unit_weights_defined. }
  { rewrite Hcn. by apply unit_weights_counts. }
  simpl in Htot1.
  destruct (backfill_runs test_size distributions st1 tr1
              Hok1 Hne ltac:(lia))
    as (st2 & tr2 & Hback & Hok2 & Htot2 & Hidx2 & Hsame).
  exists st1, tr1, st2, tr2.
  split; [exact Hmain|]. split; [exact Hback|].
  split; [unfold schedule, bind; by rewrite Hmain|].
  split; [exact Hok1|]. split; [exact Hok2|]. split; [exact Htot1|].
  split; [by rewrite Htot2, Htot1|].
  split; [by rewrite Hidx2, Hidx1, Htot1|].
  rewrite <- Htot1. exact Hsame.
Qed.

End Scheduling.

(** ** Node-contexts *)

(** C2 fails on the code.  With [test_size = 4] and the default weights
    the main loop registers four tasks.  Each strategy starts again at
    [current_nodes[0]]: node-context 0 goes to three tasks, node-context 1
    to one, and node-contexts 2 and 3 to none. *)
Theorem main_loop_restarts_at_node_zero :
  fst run_default4 = Ok (sched_of run_default4) /\
  rounded_counts 4 DEFAULT_DISTRIBUTION = [2; 1; 1]%nat /\
  map job_name (assignments (sched_of run_default4))
  = ["SimpleEvolution-0"; "SimpleEvolution-1";
     "ReasoningEvolution-0"; "MultiContextEvolution-0"] /\
  node_indices (sched_of run_default4) = [0; 1; 0; 0]%nat.
Proof. repeat split; vm_compute; reflexivity. Qed.

(** ** Backfill *)

(** The products are binary64 products: [0.7 * 45] is the float
    [31.499999999999996] and rounds to 31, where the exact product [31.5]
    would round to 32; [0.14 * 75] is [10.500000000000002] and rounds to
    11, and [0.86 * 75] is exactly [64.5] and rounds to 64. *)
Lemma products_are_binary64 :
  rounded_counts 45 seven_three = [31; 14]%nat /\
  round_half_even ((7 # 10) * 45) = 32 /\
  rounded_total 45 seven_three = 45%nat /\
  rounded_counts 75 [(simple, float_lit 14 100); (reasoning, float_lit 86 100)]
  = [11; 64]%nat.
Proof. repeat split; vm_compute; reflexivity. Qed.

(** C3, as stated, fails: with [test_size = 3] and two strategies of
    weight [0.5] each, both counts round to 2, no backfill runs, and four
    tasks are registered, not three. *)
Lemma overshoot_leaves_more_than_requested :
  rounded_counts 3 two_halves = [2; 2]%nat /\
  fst run_overshoot = Ok (sched_of run_overshoot) /\
  length (assignments (sched_of run_overshoot)) = 4%nat /\
  length (assignments (sched_of run_overshoot)) <> Z.to_nat 3.
Proof. repeat split; [vm_compute; reflexivity ..|vm_compute; lia]. Qed.

(** C3, amended.  For weights in [[0, 1]], a size below [2^53] (every
    such size is a float) and one node-context per requested row,
    scheduling returns.  The backfill adds tasks only when
    the rounded counts sum to less than [test_size]: otherwise it leaves
    the state and the trace as the main loop left them.  After the
    backfill the number of tasks is [test_size] when the rounded counts sum
    to at most [test_size], and the sum of the rounded counts when they
    sum to more. *)
Theorem backfill_only_on_shortfall (env : Env) (raise_exc : bool)
    (cn : list CurrentNodes) (test_size : Z) (distributions : Distributions)
    (tr : list Event) :
  0 <= test_size < 2 ^ 53 -> length cn = Z.to_nat test_size ->
  distributions <> [] -> unit_weights distributions ->
  exists st_main tr_main st tr',
    main_loop raise_exc cn test_size distributions
      (mkSched [new_executor 0 raise_exc] 0) tr = (Ok st_main, tr_main) /\
    backfill env raise_exc cn test_size distributions st_main tr_main
      = (Ok st, tr') /\
    schedule env raise_exc cn test_size distributions tr = (Ok st, tr') /\
    length (assignments st_main) = rounded_total test_size distributions /\
    ((Z.to_nat test_size <= rounded_total test_size distributions)%nat ->
     st = st_main /\ tr' = tr_main) /\
    ((rounded_total test_size distributions <= Z.to_nat test_size)%nat ->
     length (assignments st) = Z.to_nat test_size) /\
    ((Z.to_nat test_size < rounded_total test_size distributions)%nat ->
     length (assignments st) = rounded_total test_size distributions).
Proof.
  intros Hn Hcn Hne Hw.
  destruct (schedule_runs env raise_exc cn test_size distributions tr
              Hn Hcn Hne Hw)
    as (st1 & tr1 & st2 & tr2 & Hmain & Hback & Hsched & Hok1 & Hok2
        & Htot1 & Htot2 & _ & Hsame).
  destruct (units_ok_counts _ Hok1) as [Hlen1 _].
  destruct (units_ok_counts _ Hok2) as [Hlen2 _].
  exists st1, tr1, st2, tr2.
  split; [exact Hmain|]. split; [exact Hback|]. split; [exact Hsched|].
  split; [lia|]. split; [|split].
  - intros Hge. apply Hsame. lia.
  - intros Hle. lia.
  - intros Hlt. lia.
Qed.

Lemma backfill_only_on_shortfall_witness :
  (exists st_main tr_main st tr',
      main_loop true (demo_nodes 45) 45 seven_three
        (mkSched [new_executor 0 true] 0) [] = (Ok st_main, tr_main) /\
      schedule (const_env NaN) true (demo_nodes 45) 45 seven_three []
        = (Ok st, tr') /\
      st = st_main /\ tr' = tr_main /\
      length (assignments st) = 45%nat) /\
  exists st_main tr_main st tr',
    main_loop true (demo_nodes 10) 10 DEFAULT_DISTRIBUTION
      (mkSched [new_executor 0 true] 0) [] = (Ok st_main, tr_main) /\
    backfill (const_env NaN) true (demo_nodes 10) 10 DEFAULT_DISTRIBUTION
      st_main tr_main = (Ok st, tr') /\
    schedule (const_env NaN) true (demo_nodes 10) 10 DEFAULT_DISTRIBUTION []
      = (Ok st, tr') /\
    length (assignments st_main) = rounded_total 10 DEFAULT_DISTRIBUTION /\
    ((Z.to_nat 10 <= rounded_total 10 DEFAULT_DISTRIBUTION)%nat ->
     st = st_main /\ tr' = tr_main) /\
    ((rounded_total 10 DEFAULT_DISTRIBUTION <= Z.to_nat 10)%nat ->
     length (assignments st) = Z.to_nat 10) /\
    ((Z.to_nat 10 < rounded_total 10 DEFAULT_DISTRIBUTION)%nat ->
     length (assignments st) = rounded_total 10 DEFAULT_DISTRIBUTION).
Proof.
  split.
  - destruct (backfill_only_on_shortfall (const_env NaN) true (demo_nodes 45)
                45 seven_three [])
      as (st_main & tr_main & st & tr' & Hmain & _ & Hsched & _ & Hsame
          & Hexact & _).
    + lia.
    + reflexivity.
    + discriminate.
    + weights_in_unit.
    + destruct Hsame as [-> ->]; [vm_compute; lia|].
      exists st_main, tr_main, st_main, tr_main.
      split; [exact Hmain|]. split; [exact Hsched|].
      split; [reflexivity|]. split; [reflexivity|].
      apply Hexact. vm_compute. lia.
  - apply (backfill_only_on_shortfall (const_env NaN) true (demo_nodes 10) 10
             DEFAULT_DISTRIBUTION []).
    + lia.
    + reflexivity.
    + discriminate.
    + weights_in_unit.
Defined.

(** ** Execution units *)

Lemma ceil_div_ten (t : nat) :
  ((t `mod` 10 <> 0 -> ceil_div t 10 = t / 10 + 1) /\
   (t `mod` 10 = 0 -> ceil_div t 10 = t / 10))%nat.
Proof.
  unfold ceil_div.
  pose proof (Nat.div_mod_eq t 10) as H1.
  pose proof (Nat.div_mod_eq (t + 10 - 1) 10) as H2.
  pose proof (Nat.mod_upper_bound (t + 10 - 1) 10 ltac:(lia)) as H3.
  pose proof (Nat.mod_upper_bound t 10 ltac:(lia)) as H4.
  lia.
Qed.

(** C5, as stated, fails: ten tasks fill the first unit, the rule then
    opens a second unit, which stays empty.  Two units exist where
    [ceil(10 / 10) = 1]. *)
Lemma full_unit_opens_an_empty_one :
  fst run10 = Ok (sched_of run10) /\
  length (assignments (sched_of run10)) = 10%nat /\
  map (fun e => length (jobs e)) (execs (sched_of run10)) = [10; 0]%nat /\
  length (execs (sched_of run10))
  <> ceil_div (length (assignments (sched_of run10))) max_parallel_process.
Proof. repeat split; [vm_compute; reflexivity ..|vm_compute; lia]. Qed.

(** C5, amended.  For weights in [[0, 1]], a size below [2^53] and one
    node-context per requested row the scheduling run returns.  After a scheduling run that
    registered [T] tasks, the units are consecutive batches of the task
    list: every unit but the last holds exactly ten tasks and the last
    holds [T mod 10].  No unit holds more than ten.  There are
    [T / 10 + 1] units: [ceil(T / 10)] when [T] is not a multiple of ten,
    and one more, the last one empty, when it is. *)
Theorem units_are_batches_of_ten (env : Env) (raise_exc : bool)
    (cn : list CurrentNodes) (test_size : Z) (distributions : Distributions)
    (tr : list Event) :
  (0 <= test_size < 2 ^ 53 -> length cn = Z.to_nat test_size ->
   distributions <> [] -> unit_weights distributions ->
   exists st tr',
     schedule env raise_exc cn test_size distributions tr = (Ok st, tr')) /\
  (forall (st : Sched) (tr' : list Event),
      schedule env raise_exc cn test_size distributions tr = (Ok st, tr') ->
      (exists (full : list Executor) (last_unit : Executor),
          execs st = full ++ [last_unit] /\
          Forall (fun e => length (jobs e) = max_parallel_process) full /\
          length (jobs last_unit)
            = (length (assignments st) `mod` max_parallel_process)%nat) /\
      Forall (fun e => (length (jobs e) <= max_parallel_process)%nat)
        (execs st) /\
      length (execs st)
        = (length (assignments st) / max_parallel_process + 1)%nat /\
      ((length (assignments st) `mod` max_parallel_process <> 0)%nat ->
       length (execs st)
         = ceil_div (length (assignments st)) max_parallel_process) /\
      ((length (assignments st) `mod` max_parallel_process = 0)%nat ->
       length (execs st)
         = (ceil_div (length (assignments st)) max_parallel_process
            + 1)%nat)).
Proof.
  split.
  - intros Hn Hcn Hne Hw.
    destruct (schedule_runs env raise_exc cn test_size distributions tr
                Hn Hcn Hne Hw)
      as (_ & _ & st & tr' & _ & _ & Hsched & _).
    by exists st, tr'.
  - intros st tr' Hrun.
    pose proof (schedule_keeps _ _ _ _ _ _ _ _ Hrun) as Hok.
    destruct (units_ok_counts _ Hok) as (Hlen & Hunits & Hcap).
    rewrite Hlen.
    destruct (ceil_div_ten (total_evolutions st)) as [Hc1 Hc2].
    unfold max_parallel_process in *.
    split; [|split; [exact Hcap|split; [exact Hunits|split]]].
    + destruct Hok as (full & e & Hex & Hfull & _ & Hlast).
      by exists full, e.
    + intros Hm. rewrite Hunits. by rewrite Hc1.
    + intros Hm. rewrite Hunits. by rewrite Hc2.
Qed.

Lemma units_are_batches_of_ten_witness :
  fst run23 = Ok (sched_of run23) /\
  map (fun e => length (jobs e)) (execs (sched_of run23)) = [10; 10; 3]%nat /\
  length (execs (sched_of run23))
    = ceil_div (length (assignments (sched_of run23))) max_parallel_process /\
  Forall (fun e => (length (jobs e) <= max_parallel_process)%nat)
    (execs (sched_of run23)).
Proof.
  destruct (units_are_batches_of_ten (const_env NaN) true (demo_nodes 23) 23
              only_simple []) as [Hruns Hshape].
  destruct Hruns as (st & tr' & Hrun).
  { lia. }
  { reflexivity. }
  { discriminate. }
  { weights_in_unit. }
  assert (Hst : st = sched_of run23).
  { unfold sched_of, run23. by rewrite Hrun. }
  subst st.
  destruct (Hshape _ _ Hrun) as (_ & Hcap & _ & Hceil & _).
  split; [unfold sched_of at 1, run23 at 1; by rewrite Hrun|].
  split; [vm_compute; reflexivity|].
  split; [apply Hceil; vm_compute; discriminate|exact Hcap].
Defined.

(** ** [generate]: its parts *)

(** Run the first computation of a sequence, given how it ends. *)
Tactic Notation "run_first" "by" tactic3(t) := erewrite bind_ok; [|t].

Lemma patch_loggers_trace (with_debugging_logs : bool) (tr : list Event) :
  (if with_debugging_logs then tell EvPatchLoggers else ret tt) tr
  = (Ok tt, tr ++ (if with_debugging_logs then [EvPatchLoggers] else [])).
Proof.
  destruct with_debugging_logs; unfold tell, ret; [done|].
  by rewrite app_nil_r.
Qed.

Lemma patch_loggers_runs (with_debugging_logs : bool) (tr : list Event) :
  exists tr',
    (if with_debugging_logs then tell EvPatchLoggers else ret tt) tr
    = (Ok tt, tr').
Proof. eexists. apply patch_loggers_trace. Qed.

Lemma init_strategies_loop (self : TestsetGenerator) (is_async : bool)
    (distributions done : Distributions) (tr : list Event) :
  for_each distributions
    (fun item done =>
       let evolution := init_evolution self (fst item) in
       run tell (EvInitStrategy (class_name evolution) is_async) in
       ret (done ++ [(evolution, snd item)]))
    done tr
  = (Ok (done ++ configured self distributions),
     tr ++ map (fun item =>
                  EvInitStrategy (class_name (init_evolution self (fst item)))
                    is_async)
             distributions).
Proof.
  revert done tr.
  induction distributions as [|item dist IH]; intros done tr; simpl.
  - unfold ret. by rewrite !app_nil_r.
  - unfold bind, tell, ret. simpl. rewrite IH.
    by rewrite <- !app_assoc.
Qed.

Lemma init_strategies_runs (self : TestsetGenerator) (is_async : bool)
    (distributions : Distributions) (tr : list Event) :
  init_strategies self is_async distributions tr
  = (Ok (configured self distributions),
     tr ++ map (fun item =>
                  EvInitStrategy (class_name (init_evolution self (fst item)))
                    is_async)
             distributions).
Proof. unfold init_strategies. by rewrite init_strategies_loop. Qed.

Lemma configured_unit_weights (self : TestsetGenerator)
    (distributions : Distributions) :
  unit_weights distributions -> unit_weights (configured self distributions).
Proof.
  unfold unit_weights, configured. intros Hw. apply Forall_map.
  eapply Forall_impl; [exact Hw|]. by intros [ev p].
Qed.

Lemma configured_finite_weights (self : TestsetGenerator)
    (distributions : Distributions) :
  finite_weights distributions ->
  finite_weights (configured self distributions).
Proof.
  unfold finite_weights, configured. intros Hw. apply Forall_map.
  eapply Forall_impl; [exact Hw|]. by intros [ev p].
Qed.

(** Accepted weights are numbers. *)
Lemma check_passes_finite (distributions : Distributions) :
  check_if_sum_is_close (map snd distributions) (float_lit 1 1) 3 = true ->
  finite_weights distributions.
Proof.
  unfold check_if_sum_is_close, float_values.
  destruct (mapM float_value (map snd distributions)) as [qs|] eqn:Hqs;
    [|done].
  intros _.
  assert (Hsome : is_Some (mapM float_value (map snd distributions)))
    by (by exists qs).
  apply mapM_is_Some in Hsome.
  change (map snd distributions) with (snd <$> distributions) in Hsome.
  rewrite Forall_fmap in Hsome. unfold finite_weights.
  eapply Forall_impl; [exact Hsome|]. by intros [ev p].
Qed.

Lemma rounded_total_zero (distributions : Distributions) :
  finite_weights distributions ->
  rounded_total 0 distributions = 0%nat.
Proof.
  unfold rounded_total, rounded_counts.
  induction 1 as [|[ev p] l [q Hq] _ IH]; [done|].
  simpl in *. unfold task_count. rewrite (rounded_product_zero p q Hq).
  simpl. exact IH.
Qed.

(** With [test_size = 0] the main loop and the backfill register
    nothing. *)
Lemma schedule_zero (env : Env) (raise_exc : bool)
    (cn : list CurrentNodes) (distributions : Distributions)
    (tr : list Event) :
  finite_weights distributions ->
  schedule env raise_exc cn 0 distributions tr
  = (Ok (mkSched [new_executor 0 raise_exc] 0), tr).
Proof.
  intros Hfin.
  assert (Hmain : forall st t,
             main_loop raise_exc cn 0 distributions st t = (Ok st, t)).
  { induction Hfin as [|[ev p] dist [q Hq] _ IH]; intros st t; [done|].
    simpl in Hq.
    rewrite (main_loop_cons _ _ _ _ _ _ _ _ _ (rounded_product_zero p q Hq)).
    simpl. apply IH. }
  unfold schedule, bind. rewrite Hmain. unfold backfill. simpl.
  unfold bind, choices. by simpl.
Qed.

Lemma results_all_invalid (env : Env) (raise_exc : bool) (js : list Job)
    (outcomes : list Outcome) (tr : list Event) :
  (forall tr0 ev nd, env_evolve env tr0 ev nd = Returns NaN) ->
  exists tr',
    for_each js (run_job env raise_exc) outcomes tr
    = (Ok (outcomes ++ repeat NaN (length js)), tr').
Proof.
  intros Hnan. revert outcomes tr.
  induction js as [|j js IH]; intros outcomes tr; simpl.
  - exists tr. unfold ret. by rewrite app_nil_r.
  - unfold bind.
    assert (Hjob : run_job env raise_exc j outcomes tr
                   = (Ok (outcomes ++ [NaN]),
                      tr ++ [EvEvolve (class_name (job_evolution j))
                               (job_node j)])).
    { unfold run_job. by rewrite Hnan. }
    rewrite Hjob.
    destruct (IH (outcomes ++ [NaN])
                (tr ++ [EvEvolve (class_name (job_evolution j)) (job_node j)]))
      as [tr' Hrest].
    exists tr'. rewrite Hrest. by rewrite <- app_assoc.
Qed.

Lemma collect_all_invalid (env : Env) (units : list Executor)
    (rows : list Outcome) (tr : list Event) :
  (forall tr0 ev nd, env_evolve env tr0 ev nd = Returns NaN) ->
  exists tr',
    for_each units
      (fun exec total_test_data_rows =>
         let* test_data_rows := results env exec in
         ret (total_test_data_rows ++ test_data_rows))
      rows tr
    = (Ok (rows ++ repeat NaN (length (concat (map jobs units)))), tr').
Proof.
  intros Hnan. revert rows tr.
  induction units as [|e units IH]; intros rows tr.
  - exists tr. simpl. unfold ret. by rewrite app_nil_r.
  - destruct (results_all_invalid env (raise_exceptions e) (jobs e) [] tr Hnan)
      as [tr1 Hres].
    assert (Hbody : (let* test_data_rows := results env e in
                     ret (rows ++ test_data_rows)) tr
                    = (Ok (rows ++ repeat NaN (length (jobs e))), tr1)).
    { unfold bind, results. by rewrite Hres. }
    destruct (IH (rows ++ repeat NaN (length (jobs e))) tr1) as [tr2 Hrest].
    exists tr2. rewrite for_each_cons. cbv beta. rewrite Hbody, Hrest.
    change (concat (map jobs (e :: units)))
      with (jobs e ++ concat (map jobs units)).
    by rewrite length_app, repeat_app, app_assoc.
Qed.

Lemma filter_all_invalid (n : nat) :
  List.filter (fun r => negb (is_nan r)) (repeat NaN n) = [].
Proof. induction n as [|n IH]; simpl; done. Qed.

(** An accepted mapping is not empty: the empty sum is [0]. *)
Lemma check_passes_nonempty (distributions : Distributions) :
  check_if_sum_is_close (map snd distributions) (float_lit 1 1) 3 = true ->
  distributions <> [].
Proof. intros Hc ->. vm_compute in Hc. discriminate. Qed.

(** ** [generate]: the empty-result check *)

(** C1, as stated, fails: one task that returns the invalid sentinel makes
    [generate] return an empty dataset; no error is raised. *)
Lemma all_invalid_returns_empty_dataset :
  fst (generate demo_generator (const_env NaN) 1 only_simple
         false true true None [])
  = Ok (mkTestDataset []) /\
  fst (generate demo_generator (const_env NaN) 1 only_simple
         false true true None [])
  <> Raise ExceptionInRunner.
Proof. split; vm_compute; [reflexivity|discriminate]. Qed.

(** C1, amended.  In a run in which every task returns the invalid
    sentinel, [generate] raises the empty-result error only when the
    concatenated outcome list is empty before the sentinels are filtered
    out, that is when no task was registered ([test_size = 0]).  When at
    least one task ran, the list holds one sentinel per task, the check
    passes, and [generate] returns a dataset without rows.  The run is
    one with accepted weights in [[0, 1]], a size below [2^53] and a node
    store that supplies one node per requested row. *)
Theorem generate_all_invalid
    (self : TestsetGenerator) (env : Env) (test_size : Z)
    (distributions : Distributions)
    (with_debugging_logs is_async raise_exc : bool)
    (run_config : option RunConfig) (tr : list Event)
    (sampled : list Node) :
  0 <= test_size < 2 ^ 53 ->
  check_if_sum_is_close (map snd distributions) (float_lit 1 1) 3 = true ->
  unit_weights distributions ->
  (forall tr0,
      env_get_random_nodes env tr0 (self_docstore self) test_size None
      = Some sampled) ->
  length sampled = Z.to_nat test_size ->
  (forall tr0 ev nd, env_evolve env tr0 ev nd = Returns NaN) ->
  fst (generate self env test_size distributions with_debugging_logs
         is_async raise_exc run_config tr)
  = if test_size =? 0 then Raise ExceptionInRunner
    else Ok (mkTestDataset []).
Proof.
  intros Hn Hcheck Hw Hsample Hlen Hnan.
  pose proof (check_passes_nonempty _ Hcheck) as Hne.
  unfold generate. rewrite Hcheck. cbn [negb].
  run_first by reflexivity.
  run_first by apply init_strategies_runs.
  destruct (patch_loggers_runs with_debugging_logs
              ((tr ++ [EvSetRunConfig (default (mkRunConfig 15 600)
                                         run_config)])
               ++ map (fun item =>
                         EvInitStrategy
                           (class_name (init_evolution self (fst item)))
                           is_async)
                    distributions))
    as [tr2 Hlog].
  run_first by exact Hlog.
  run_first by (unfold get_random_nodes; rewrite Hsample; reflexivity).
  set (cn := map _ sampled).
  destruct (schedule_runs env raise_exc cn test_size
              (configured self distributions)
              (tr2 ++ [EvSampleNodes test_size])
              Hn ltac:(subst cn; by rewrite length_map)
              ltac:(by destruct distributions)
              (configured_unit_weights self _ Hw))
    as (st1 & tr3 & st & tr4 & _ & _ & Hsched & _ & Hok & _ & Htot & _).
  run_first by exact Hsched.
  run_first by reflexivity.
  destruct (collect_all_invalid env (execs st) []
              (tr4 ++ [EvPrint (length (execs st))]) Hnan)
    as [tr5 Hcollect].
  run_first by exact Hcollect.
  rewrite !app_nil_l.
  destruct (units_ok_counts _ Hok) as [Hcount _].
  unfold assignments in Hcount. rewrite Hcount, Htot.
  destruct (Z.eqb_spec test_size 0) as [->|Hnz].
  - replace (Nat.max _ (Z.to_nat 0)) with 0%nat; [done|].
    rewrite rounded_total_zero; [reflexivity|].
    apply configured_finite_weights. by apply check_passes_finite.
  - set (n := Nat.max _ (Z.to_nat test_size)).
    assert (Hemp : is_empty (repeat NaN n) = false).
    { assert (n <> 0%nat) by (subst n; lia). by destruct n. }
    rewrite Hemp. run_first by reflexivity.
    unfold ret. simpl. by rewrite filter_all_invalid.
Qed.

Lemma generate_all_invalid_witness :
  fst (generate demo_generator (const_env NaN) 2 only_simple
         false true true None [])
  = Ok (mkTestDataset []).
Proof.
  apply (generate_all_invalid demo_generator (const_env NaN) 2
           only_simple false true true None []
           [mkNode "n0"; mkNode "n1"]).
  - lia.
  - vm_compute. reflexivity.
  - weights_in_unit.
  - intros tr0. reflexivity.
  - reflexivity.
  - intros tr0 ev nd. reflexivity.
Defined.

(** ** [generate] with [test_size = 0] *)

(** C6, as stated, fails: with [test_size = 0] and the default weights
    [generate] raises the empty-result error; it does not return a
    dataset. *)
Lemma zero_rows_raises :
  check_if_sum_is_close (map snd DEFAULT_DISTRIBUTION) (float_lit 1 1) 3 = true /\
  fst (generate demo_generator (const_env NaN) 0 DEFAULT_DISTRIBUTION
         false true true None [])
  = Raise ExceptionInRunner /\
  fst (generate demo_generator (const_env NaN) 0 DEFAULT_DISTRIBUTION
         false true true None [])
  <> Ok (mkTestDataset []).
Proof. repeat split; vm_compute; [reflexivity ..|discriminate]. Qed.

(** C6, amended.  With [test_size = 0], accepted weights and a node store
    that answers the request for zero nodes with the empty sample,
    [generate] registers no task and calls no strategy's [evolve]: it sets
    the run configuration, configures each strategy, samples zero nodes,
    finds the single unit empty and raises the empty-result error. *)
Theorem generate_zero_rows
    (self : TestsetGenerator) (env : Env) (distributions : Distributions)
    (with_debugging_logs is_async raise_exc : bool)
    (run_config : option RunConfig) (tr : list Event) :
  check_if_sum_is_close (map snd distributions) (float_lit 1 1) 3 = true ->
  (forall tr0,
      env_get_random_nodes env tr0 (self_docstore self) 0 None = Some []) ->
  generate self env 0 distributions with_debugging_logs is_async raise_exc
    run_config tr
  = (Raise ExceptionInRunner,
     tr ++ [EvSetRunConfig (default (mkRunConfig 15 600) run_config)]
        ++ map (fun item =>
                  EvInitStrategy
                    (class_name (init_evolution self (fst item))) is_async)
             distributions
        ++ (if with_debugging_logs then [EvPatchLoggers] else [])
        ++ [EvSampleNodes 0; EvPrint 1]).
Proof.
  intros Hcheck Hsample.
  unfold generate. rewrite Hcheck. cbn [negb].
  run_first by reflexivity.
  run_first by apply init_strategies_runs.
  run_first by apply patch_loggers_trace.
  run_first by (unfold get_random_nodes; rewrite Hsample; reflexivity).
  run_first by (apply schedule_zero, configured_finite_weights;
                by apply check_passes_finite).
  run_first by reflexivity.
  run_first by reflexivity.
  unfold raise. simpl. f_equal.
  by rewrite <- !app_assoc.
Qed.

Lemma generate_zero_rows_witness :
  generate demo_generator (const_env NaN) 0 DEFAULT_DISTRIBUTION
    false true true None []
  = (Raise ExceptionInRunner,
     [EvSetRunConfig (mkRunConfig 15 600);
      EvInitStrategy "SimpleEvolution" true;
      EvInitStrategy "ReasoningEvolution" true;
      EvInitStrategy "MultiContextEvolution" true;
      EvSampleNodes 0; EvPrint 1]).
Proof.
  apply (generate_zero_rows demo_generator (const_env NaN)
           DEFAULT_DISTRIBUTION false true true None []).
  - vm_compute. reflexivity.
  - intros tr0. reflexivity.
Defined.

(** ** [generate]: the distribution check *)

Lemma raises_only_ret {A} (P : Exn -> Prop) (a : A) : raises_only P (ret a).
Proof. intros tr e tr'. unfold ret. done. Qed.

Lemma raises_only_tell (P : Exn -> Prop) (ev : Event) :
  raises_only P (tell ev).
Proof. intros tr e tr'. unfold tell. done. Qed.

Lemma raises_only_raise {A} (P : Exn -> Prop) (e : Exn) :
  P e -> raises_only P (@raise A e).
Proof. intros He tr e' tr'. unfold raise. by intros [= <- <-]. Qed.

Lemma raises_only_lift {A} (P : Exn -> Prop) (r : Res A) :
  (forall e, r = Raise e -> P e) -> raises_only P (lift r).
Proof. intros Hr tr e tr'. unfold lift. intros [= -> <-]. by apply Hr. Qed.

Lemma raises_only_bind {A B} (P : Exn -> Prop) (m : M A) (k : A -> M B) :
  raises_only P m -> (forall a, raises_only P (k a)) ->
  raises_only P (bind m k).
Proof.
  intros Hm Hk tr e tr'. unfold bind.
  destruct (m tr) as [[a|e1] tr1] eqn:Hmt.
  - apply Hk.
  - intros [= <- <-]. eapply Hm; eauto.
Qed.

Create HintDb raises.
#[local] Hint Resolve raises_only_ret raises_only_tell : raises.

Lemma py_getitem_raises {A} (l : list A) (i : Z) (e : Exn) :
  py_getitem l i = Raise e -> e = IndexError.
Proof.
  unfold py_getitem.
  destruct (_ || _); [by intros [= <-]|].
  destruct (l !! _); [done|by intros [= <-]].
Qed.

Lemma choices_from_raises {A} (draw : nat -> nat) (population : list A)
    (js : list nat) (e : Exn) :
  choices_from draw population js = Raise e -> e = IndexError.
Proof.
  induction js as [|j js IH]; simpl; [done|].
  destruct (py_getitem population _) as [x|e1] eqn:Hg.
  - destruct (choices_from draw population js) as [xs|e2]; [done|].
    intros [= <-]. by apply IH.
  - intros [= <-]. by eapply py_getitem_raises.
Qed.

Lemma submit_last_raises (units : list Executor) (j : Job) (e : Exn) :
  submit_last units j = Raise e -> e = IndexError.
Proof. unfold submit_last. destruct (reverse units); [by intros [= <-]|done]. Qed.

Lemma submit_task_raises (raise_exc : bool) (cn : list CurrentNodes)
    (ev : Evolution) (i : nat) (st : Sched) :
  raises_only not_config (submit_task raise_exc cn ev i st).
Proof.
  unfold submit_task.
  apply raises_only_bind.
  { apply raises_only_lift. intros e He.
    rewrite (py_getitem_raises _ _ _ He). discriminate. }
  intros node. apply raises_only_bind.
  { apply raises_only_lift. intros e He.
    rewrite (submit_last_raises _ _ _ He). discriminate. }
  intros units. apply raises_only_bind; [auto with raises|].
  intros _. destruct (_ =? _)%nat; [|auto with raises].
  apply raises_only_bind; auto with raises.
Qed.

#[local] Hint Resolve submit_task_raises : raises.

Lemma schedule_raises (env : Env) (raise_exc : bool)
    (cn : list CurrentNodes) (test_size : Z) (distributions : Distributions) :
  raises_only not_config
    (schedule env raise_exc cn test_size distributions).
Proof.
  unfold schedule. apply raises_only_bind.
  - unfold main_loop. apply for_each_raises_only. intros item st.
    apply raises_only_bind.
    { apply raises_only_lift. intros e He.
      destruct (rounded_product_raises _ _ _ He) as [->| ->]; discriminate. }
    intros count. apply for_each_raises_only. auto with raises.
  - intros st. unfold backfill. destruct (_ <=? _); [|auto with raises].
    apply raises_only_bind.
    + intros tr e tr'. unfold choices. intros [= He <-].
      rewrite (choices_from_raises _ _ _ _ He). discriminate.
    + intros filler. apply for_each_raises_only. auto with raises.
Qed.

Lemma collect_results_raises (env : Env) (units : list Executor) :
  raises_only not_config (collect_results env units).
Proof.
  unfold collect_results. apply for_each_raises_only. intros e rows.
  apply raises_only_bind; [|auto with raises].
  unfold results. apply for_each_raises_only. intros j outcomes tr ex tr'.
  unfold run_job. destruct (env_evolve env tr _ _); [done|].
  destruct (raise_exceptions e); [|done]. by intros [= <- <-].
Qed.

#[local] Hint Resolve schedule_raises collect_results_raises : raises.

(** The check, spelled out: a list with an infinity or a NaN is refused,
    and so is a list whose exact sum differs from 1 by [1/1000] or
    more. *)
Lemma check_if_sum_is_close_spec (values : list float) :
  check_if_sum_is_close values (float_lit 1 1) 3 = false
  <-> match float_values values with
      | Some weights => (1 # 1000 <= Qabs (py_sum weights - 1))%Q
      | None => True
      end.
Proof.
  unfold check_if_sum_is_close.
  destruct (float_values values) as [weights|]; [|done].
  change (float_value (float_lit 1 1))
    with (Some (4503599627370496 # 4503599627370496)).
  change (1 / inject_Z (10 ^ 3))%Q with (1 # 1000)%Q.
  rewrite negb_false_iff, Qle_bool_iff.
  assert (Hone : (4503599627370496 # 4503599627370496 == 1)%Q) by done.
  assert (Heq : (Qabs (py_sum weights
                       - (4503599627370496 # 4503599627370496))
                 == Qabs (py_sum weights - 1))%Q)
    by (rewrite Hone; reflexivity).
  split; intros H.
  - eapply Qle_trans; [exact H|]. rewrite Heq. apply Qle_refl.
  - eapply Qle_trans; [exact H|]. rewrite Heq. apply Qle_refl.
Qed.

(** C4.  [generate] raises the configuration error exactly when the sum of
    the weights differs from 1 by at least [1/1000] (a weight that is an
    infinity or a NaN leaves no such sum), and then the trace is the one it
    started with: no node was sampled, no strategy configured, no task
    registered. *)
Theorem generate_config_error_iff
    (self : TestsetGenerator) (env : Env) (test_size : Z)
    (distributions : Distributions)
    (with_debugging_logs is_async raise_exc : bool)
    (run_config : option RunConfig) (tr : list Event) :
  (fst (generate self env test_size distributions with_debugging_logs
          is_async raise_exc run_config tr) = Raise ConfigError
   <-> match float_values (map snd distributions) with
       | Some weights => (1 # 1000 <= Qabs (py_sum weights - 1))%Q
       | None => True
       end) /\
  (fst (generate self env test_size distributions with_debugging_logs
          is_async raise_exc run_config tr) = Raise ConfigError ->
   snd (generate self env test_size distributions with_debugging_logs
          is_async raise_exc run_config tr) = tr).
Proof.
  rewrite <- check_if_sum_is_close_spec.
  unfold generate.
  destruct (check_if_sum_is_close (map snd distributions) (float_lit 1 1) 3)
    eqn:Hcheck;
    cbn [negb]; [|by repeat split].
  match goal with
  | |- context [fst (?m tr)] =>
      assert (Hbody : raises_only not_config m)
  end.
  { apply raises_only_bind; [auto with raises|]. intros _.
    apply raises_only_bind.
    { intros t e t'. by rewrite init_strategies_runs. }
    intros dist'. apply raises_only_bind.
    { intros t e t'. by rewrite patch_loggers_trace. }
    intros _. apply raises_only_bind.
    { intros t e t'. unfold get_random_nodes.
      destruct (env_get_random_nodes _ _ _ _ _); [done|].
      by intros [= <- <-]. }
    intros sampled. apply raises_only_bind; [auto with raises|].
    intros st. apply raises_only_bind; [auto with raises|].
    intros _. apply raises_only_bind; [auto with raises|].
    intros rows. destruct (is_empty rows).
    - by apply raises_only_raise.
    - apply raises_only_bind; auto with raises. }
  match goal with
  | |- context [fst (?m tr)] => destruct (m tr) as [[d|e] tr'] eqn:Hrun
  end; simpl.
  - by repeat split.
  - assert (He : e <> ConfigError) by (eapply Hbody; eauto).
    split; [split; [congruence|done]|congruence].
Qed.

Lemma generate_config_error_iff_witness :
  fst (generate demo_generator (const_env NaN) 2 half_simple
         false true true None [])
  = Raise ConfigError /\
  snd (generate demo_generator (const_env NaN) 2 half_simple
         false true true None [])
  = [] /\
  fst (generate demo_generator (const_env NaN) 2 DEFAULT_DISTRIBUTION
         false true true None [])
  <> Raise ConfigError.
Proof.
  destruct (generate_config_error_iff demo_generator (const_env NaN) 2
              half_simple false true true None [])
    as [[_ Hraise] Hquiet].
  destruct (generate_config_error_iff demo_generator (const_env NaN) 2
              DEFAULT_DISTRIBUTION false true true None [])
    as [[Hclose _] _].
  assert (Hbad : match float_values (map snd half_simple) with
                 | Some weights => (1 # 1000 <= Qabs (py_sum weights - 1))%Q
                 | None => True
                 end)
    by (vm_compute; discriminate).
  split; [exact (Hraise Hbad)|]. split; [exact (Hquiet (Hraise Hbad))|].
  intros Hcfg. apply Hclose in Hcfg. vm_compute in Hcfg. by apply Hcfg.
Defined.

(** * Further properties of the code *)

(** ** The plan of a scheduling run *)

Lemma for_each_app {A S} (l1 l2 : list A) (body : A -> S -> M S) s tr :
  for_each (l1 ++ l2) body s tr =
  match for_each l1 body s tr with
  | (Ok s1, tr1) => for_each l2 body s1 tr1
  | (Raise e, tr1) => (Raise e, tr1)
  end.
Proof.
  revert s tr. induction l1 as [|a l1 IH]; intros s tr; simpl; [done|].
  unfold bind. destruct (body a s tr) as [[s1|e] tr1]; [apply IH|done].
Qed.

Lemma task_for_in_range (cn : list CurrentNodes) (ev : Evolution) (i : nat)
    (node : CurrentNodes) :
  cn !! i = Some node ->
  task_for cn ev i = [mkJob ev i node (class_name ev +:+ "-" +:+ pretty i)].
Proof. unfold task_for. by intros ->. Qed.

Lemma choices_from_members {A} (draw : nat -> nat) (population : list A)
    (js : list nat) (xs : list A) :
  choices_from draw population js = Ok xs ->
  length xs = length js /\ Forall (fun x => In x population) xs.
Proof.
  revert xs. induction js as [|j js IH]; intros xs; simpl.
  - intros [= <-]. by split.
  - destruct (py_getitem population _) as [x|] eqn:Hx; [|done].
    destruct (choices_from draw population js) as [ys|]; [|done].
    intros [= <-]. destruct (IH ys eq_refl) as [Hlen Hin].
    split; [simpl; lia|]. constructor; [|done].
    unfold py_getitem in Hx.
    destruct (_ || _); [done|].
    destruct (population !! _) as [y|] eqn:Hy; [|done].
    injection Hx as ->. apply list_elem_of_In.
    by eapply list_elem_of_lookup_2.
Qed.

Section Plan.

  Context (env : Env) (raise_exc : bool) (cn : list CurrentNodes).

Lemma index_loop_plan (ev : Evolution) (c a : nat) (st : Sched)
    (tr : list Event) :
  units_ok st -> (a + c <= length cn)%nat ->
  exists st' tr',
    for_each (seq a c)
      (fun i st => submit_task raise_exc cn ev i st) st tr = (Ok st', tr') /\
    units_ok st' /\
    assignments st' = assignments st ++ flat_map (task_for cn ev) (seq a c).
Proof.
  revert a st tr. induction c as [|c IH]; intros a st tr Hok Hlen.
  - exists st, tr. simpl. by rewrite app_nil_r.
  - destruct (lookup_lt_is_Some_2 cn a ltac:(lia)) as [node Hnode].
    destruct (submit_task_step raise_exc cn ev a st tr node Hok Hnode)
      as (st1 & tr1 & Hstep & Hok1 & _ & Hasg1).
    destruct (IH (S a) st1 tr1 Hok1 ltac:(lia))
      as (st2 & tr2 & Hrest & Hok2 & Hasg2).
    exists st2, tr2. simpl. unfold bind. rewrite Hstep.
    split; [exact Hrest|]. split; [exact Hok2|].
    rewrite Hasg2, Hasg1, (task_for_in_range _ _ _ _ Hnode).
    by rewrite <- app_assoc.
Qed.

Lemma main_loop_plan (test_size : Z) (distributions : Distributions)
    (st : Sched) (tr : list Event) :
  units_ok st ->
  counts_defined test_size distributions ->
  Forall (fun c => (c <= length cn)%nat)
    (rounded_counts test_size distributions) ->
  exists st' tr',
    main_loop raise_exc cn test_size distributions st tr = (Ok st', tr') /\
    assignments st'
      = assignments st ++ main_plan cn test_size distributions.
Proof.
  unfold main_plan. revert st tr.
  induction distributions as [|[ev p] dist IH]; intros st tr Hok Hdef Hall.
  - exists st, tr. simpl. by rewrite app_nil_r.
  - simpl in Hall. apply Forall_cons in Hall as [Hc Hall].
    apply Forall_cons in Hdef as [[count Hcount] Hdef]. simpl in Hcount.
    rewrite (task_count_ok _ _ _ Hcount) in Hc.
    destruct (index_loop_plan ev (Z.to_nat count) 0 st tr Hok ltac:(lia))
      as (st1 & tr1 & Hinner & Hok1 & Hasg1).
    destruct (IH st1 tr1 Hok1 Hdef Hall) as (st2 & tr2 & Hrest & Hasg2).
    exists st2, tr2. rewrite (main_loop_cons _ _ _ _ _ _ _ _ _ Hcount).
    unfold range. rewrite Hinner.
    split; [exact Hrest|].
    simpl. rewrite (task_count_ok _ _ _ Hcount).
    rewrite Hasg2, Hasg1. by rewrite <- app_assoc.
Qed.

Lemma filler_loop_plan (filler : list Evolution) (st : Sched)
    (tr : list Event) :
  units_ok st ->
  (total_evolutions st + length filler <= length cn)%nat ->
  exists st' tr',
    for_each filler
      (fun ev st => submit_task raise_exc cn ev (total_evolutions st) st)
      st tr = (Ok st', tr') /\
    assignments st'
      = assignments st ++ backfill_plan cn filler (total_evolutions st).
Proof.
  revert st tr. induction filler as [|ev filler IH]; intros st tr Hok Hlen.
  - exists st, tr. simpl. by rewrite app_nil_r.
  - simpl in Hlen.
    destruct (lookup_lt_is_Some_2 cn (total_evolutions st) ltac:(lia))
      as [node Hnode].
    destruct (submit_task_step raise_exc cn ev (total_evolutions st) st tr
                node Hok Hnode)
      as (st1 & tr1 & Hstep & Hok1 & Htot1 & Hasg1).
    destruct (IH st1 tr1 Hok1 ltac:(lia)) as (st2 & tr2 & Hrest & Hasg2).
    exists st2, tr2. simpl. unfold bind. rewrite Hstep.
    split; [exact Hrest|].
    rewrite Hasg2, Hasg1, Htot1, (task_for_in_range _ _ _ _ Hnode).
    by rewrite <- app_assoc.
Qed.

End Plan.

(** X1.  For weights in [[0, 1]], a size below [2^53] and one node-context
    per requested row, the task list of a scheduling run is the main plan
    followed by the backfill plan: first, strategy by strategy in mapping
    order, the strategy's rounded count of tasks on node-contexts 0, 1, 2,
    ...; then one task per strategy that [choices] draws, with the random
    source as it stands after the main loop, from the strategies of the
    mapping, on the node-contexts from the main loop's task count
    upwards. *)
Theorem schedule_follows_plan (env : Env) (raise_exc : bool)
    (cn : list CurrentNodes) (test_size : Z) (distributions : Distributions)
    (tr : list Event) :
  0 <= test_size < 2 ^ 53 -> length cn = Z.to_nat test_size ->
  distributions <> [] -> unit_weights distributions ->
  exists (st_main : Sched) (tr_main : list Event)
         (st : Sched) (tr' : list Event) (filler : list Evolution),
    main_loop raise_exc cn test_size distributions
      (mkSched [new_executor 0 raise_exc] 0) tr = (Ok st_main, tr_main) /\
    schedule env raise_exc cn test_size distributions tr = (Ok st, tr') /\
    choices env (map fst distributions)
      (test_size - Z.of_nat (rounded_total test_size distributions)) tr_main
    = (Ok filler, tr_main) /\
    length filler
      = (Z.to_nat test_size - rounded_total test_size distributions)%nat /\
    Forall (fun ev => In ev (map fst distributions)) filler /\
    assignments st
      = main_plan cn test_size distributions
        ++ backfill_plan cn filler (rounded_total test_size distributions).
Proof.
  intros Hn Hcn Hne Hw.
  destruct (schedule_runs env raise_exc cn test_size distributions tr
              Hn Hcn Hne Hw)
    as (st1 & tr1 & st2 & tr2 & Hmain & Hback & Hsched & Hok1 & _
        & Htot1 & _).
  destruct (main_loop_plan raise_exc cn test_size distributions
              (mkSched [new_executor 0 raise_exc] 0) tr
              (units_ok_initial raise_exc))
    as (st1' & tr1' & Hmain' & Hasg1).
  { by apply unit_weights_defined. }
  { rewrite Hcn. by apply unit_weights_counts. }
  rewrite Hmain in Hmain'. injection Hmain' as <- <-.
  assert (Hasg1' : assignments st1 = main_plan cn test_size distributions)
    by (rewrite Hasg1; reflexivity).
  unfold backfill in Hback. rewrite <- Htot1.
  destruct (Z.leb_spec (Z.of_nat (total_evolutions st1)) test_size)
    as [Hle|Hgt].
  - unfold bind in Hback. unfold choices in *.
    destruct (choices_from (env_random env tr1) (map fst distributions)
                (range (test_size - Z.of_nat (total_evolutions st1))))
      as [filler|] eqn:Hfill; [|done].
    destruct (choices_from_members _ _ _ _ Hfill) as [Hflen Hfin].
    unfold range in Hflen. rewrite length_seq in Hflen.
    destruct (filler_loop_plan raise_exc cn filler st1 tr1 Hok1 ltac:(lia))
      as (st2' & tr2' & Hrun & Hasg2).
    rewrite Hback in Hrun. injection Hrun as <- <-.
    exists st1, tr1, st2, tr2, filler.
    split; [exact Hmain|]. split; [exact Hsched|].
    split; [by rewrite Hfill|].
    split; [lia|]. split; [exact Hfin|].
    by rewrite Hasg2, Hasg1'.
  - unfold ret in Hback. injection Hback as <- <-.
    exists st1, tr1, st1, tr1, [].
    split; [exact Hmain|]. split; [exact Hsched|].
    split.
    { unfold choices, range.
      replace (Z.to_nat (test_size - Z.of_nat (total_evolutions st1)))
        with 0%nat by lia.
      reflexivity. }
    split; [simpl; lia|]. split; [constructor|].
    simpl. by rewrite app_nil_r.
Qed.

Lemma schedule_follows_plan_witness :
  map (fun j => (class_name (job_evolution j), job_node_index j))
    (main_plan (demo_nodes 10) 10 DEFAULT_DISTRIBUTION)
  = [("SimpleEvolution", 0); ("SimpleEvolution", 1); ("SimpleEvolution", 2);
     ("SimpleEvolution", 3); ("SimpleEvolution", 4);
     ("ReasoningEvolution", 0); ("ReasoningEvolution", 1);
     ("MultiContextEvolution", 0); ("MultiContextEvolution", 1)]%nat /\
  exists (st_main : Sched) (tr_main : list Event)
         (st : Sched) (tr' : list Event) (filler : list Evolution),
    main_loop true (demo_nodes 10) 10 DEFAULT_DISTRIBUTION
      (mkSched [new_executor 0 true] 0) [] = (Ok st_main, tr_main) /\
    schedule (const_env NaN) true (demo_nodes 10) 10 DEFAULT_DISTRIBUTION []
      = (Ok st, tr') /\
    choices (const_env NaN) (map fst DEFAULT_DISTRIBUTION)
      (10 - Z.of_nat (rounded_total 10 DEFAULT_DISTRIBUTION)) tr_main
    = (Ok filler, tr_main) /\
    length filler = (Z.to_nat 10 - rounded_total 10 DEFAULT_DISTRIBUTION)%nat /\
    Forall (fun ev => In ev (map fst DEFAULT_DISTRIBUTION)) filler /\
    assignments st
      = main_plan (demo_nodes 10) 10 DEFAULT_DISTRIBUTION
        ++ backfill_plan (demo_nodes 10) filler
             (rounded_total 10 DEFAULT_DISTRIBUTION).
Proof.
  split; [vm_compute; reflexivity|].
  apply (schedule_follows_plan (const_env NaN) true (demo_nodes 10) 10
           DEFAULT_DISTRIBUTION []).
  - lia.
  - reflexivity.
  - discriminate.
  - weights_in_unit.
Defined.

(** ** How often a node-context is used *)

Lemma uses_app (i : nat) (l1 l2 : list nat) :
  uses i (l1 ++ l2) = (uses i l1 + uses i l2)%nat.
Proof. unfold uses. by rewrite List.filter_app, length_app. Qed.

Lemma uses_cons (i a : nat) (l : list nat) :
  uses i (a :: l) = ((if (i =? a)%nat then 1 else 0) + uses i l)%nat.
Proof. unfold uses. simpl. by destruct (i =? a)%nat. Qed.

Lemma uses_seq (i a c : nat) :
  uses i (seq a c)
  = if ((a <=? i) && (i <? a + c))%nat then 1%nat else 0%nat.
Proof.
  revert a. induction c as [|c IH]; intros a.
  - destruct (Nat.leb_spec a i), (Nat.ltb_spec i (a + 0)); simpl; done || lia.
  - change (seq a (S c)) with (a :: seq (S a) c).
    rewrite uses_cons, IH.
    destruct (Nat.eqb_spec i a), (Nat.leb_spec (S a) i), (Nat.leb_spec a i),
      (Nat.ltb_spec i (S a + c)), (Nat.ltb_spec i (a + S c));
      simpl; done || lia.
Qed.

Lemma uses_concat_seq (i : nat) (counts : list nat) :
  uses i (concat (map (seq 0) counts))
  = length (List.filter (fun c => (i <? c)%nat) counts).
Proof.
  induction counts as [|c counts IH]; [done|].
  change (concat (map (seq 0) (c :: counts)))
    with (seq 0 c ++ concat (map (seq 0) counts)).
  rewrite uses_app, uses_seq, IH.
  change (List.filter (fun c0 => (i <? c0)%nat) (c :: counts))
    with (if (i <? c)%nat
          then c :: List.filter (fun c0 => (i <? c0)%nat) counts
          else List.filter (fun c0 => (i <? c0)%nat) counts).
  destruct (Nat.leb_spec 0 i), (Nat.ltb_spec i (0 + c)), (Nat.ltb_spec i c);
    simpl; done || lia.
Qed.

Lemma count_le_total (c : nat) (counts : list nat) :
  In c counts -> (c <= sum_list counts)%nat.
Proof.
  induction counts as [|c' counts IH]; simpl; [done|].
  intros [->|Hin]; [lia|]. specialize (IH Hin). lia.
Qed.

Lemma filter_none {A} (f : A -> bool) (l : list A) :
  Forall (fun x => f x = false) l -> List.filter f l = [].
Proof. induction 1 as [|x l Hx _ IH]; simpl; [done|]. by rewrite Hx. Qed.

(** X2.  For weights in [[0, 1]], a size below [2^53] and one
    node-context per requested row, node-context [i] is given to one task
    per strategy whose rounded count exceeds [i], plus one backfill task
    when [i] lies between the sum of the rounded counts and
    [test_size]. *)
Theorem node_context_usage (env : Env) (raise_exc : bool)
    (cn : list CurrentNodes) (test_size : Z) (distributions : Distributions)
    (tr : list Event) :
  0 <= test_size < 2 ^ 53 -> length cn = Z.to_nat test_size ->
  distributions <> [] -> unit_weights distributions ->
  exists (st : Sched) (tr' : list Event),
    schedule env raise_exc cn test_size distributions tr = (Ok st, tr') /\
    forall i : nat,
      uses i (node_indices st)
      = (length (List.filter (fun c => (i <? c)%nat)
                   (rounded_counts test_size distributions))
         + if ((rounded_total test_size distributions <=? i)
               && (i <? Z.to_nat test_size))%nat
           then 1 else 0)%nat.
Proof.
  intros Hn Hcn Hne Hw.
  destruct (schedule_runs env raise_exc cn test_size distributions tr
              Hn Hcn Hne Hw)
    as (_ & _ & st & tr' & _ & _ & Hsched & _ & _ & _ & _ & Hidx & _).
  exists st, tr'. split; [exact Hsched|]. intros i.
  rewrite Hidx, uses_app, uses_concat_seq, uses_seq. f_equal.
  set (s := rounded_total test_size distributions).
  set (n := Z.to_nat test_size).
  destruct (Nat.leb_spec s i), (Nat.ltb_spec i (s + (n - s))),
    (Nat.ltb_spec i n); simpl; done || lia.
Qed.

Lemma node_context_usage_witness :
  exists (st : Sched) (tr' : list Event),
    schedule (const_env NaN) true (demo_nodes 10) 10 DEFAULT_DISTRIBUTION []
      = (Ok st, tr') /\
    forall i : nat,
      uses i (node_indices st)
      = (length (List.filter (fun c => (i <? c)%nat)
                   (rounded_counts 10 DEFAULT_DISTRIBUTION))
         + if ((rounded_total 10 DEFAULT_DISTRIBUTION <=? i)
               && (i <? Z.to_nat 10))%nat
           then 1 else 0)%nat.
Proof.
  apply (node_context_usage (const_env NaN) true (demo_nodes 10) 10
           DEFAULT_DISTRIBUTION []).
  - lia.
  - reflexivity.
  - discriminate.
  - weights_in_unit.
Defined.

(** X3.  In a run with weights in [[0, 1]], a size below [2^53] and one
    node-context per requested row, a node-context taken by the backfill (an index from
    the sum of the rounded counts up to [test_size]) belongs to that one
    task alone; a node-context below the sum of the rounded counts that no
    strategy's count reaches is given to no task; and no task works on an
    index from [test_size] on. *)
Theorem backfill_contexts_exclusive (env : Env) (raise_exc : bool)
    (cn : list CurrentNodes) (test_size : Z) (distributions : Distributions)
    (tr : list Event) :
  0 <= test_size < 2 ^ 53 -> length cn = Z.to_nat test_size ->
  distributions <> [] -> unit_weights distributions ->
  exists (st : Sched) (tr' : list Event),
    schedule env raise_exc cn test_size distributions tr = (Ok st, tr') /\
    forall i : nat,
      ((rounded_total test_size distributions <= i < Z.to_nat test_size)%nat
       -> uses i (node_indices st) = 1%nat) /\
      (Forall (fun c => (c <= i)%nat)
         (rounded_counts test_size distributions) ->
       (i < rounded_total test_size distributions)%nat ->
       uses i (node_indices st) = 0%nat) /\
      ((Z.to_nat test_size <= i)%nat -> uses i (node_indices st) = 0%nat).
Proof.
  intros Hn Hcn Hne Hw.
  destruct (schedule_runs env raise_exc cn test_size distributions tr
              Hn Hcn Hne Hw)
    as (_ & _ & st & tr' & _ & _ & Hsched & _ & _ & _ & _ & Hidx & _).
  pose proof (unit_weights_counts test_size distributions Hn Hw) as Hcounts.
  exists st, tr'. split; [exact Hsched|]. intros i.
  rewrite Hidx, uses_app, uses_concat_seq, uses_seq.
  set (s := rounded_total test_size distributions).
  set (n := Z.to_nat test_size).
  assert (Hbelow : Forall (fun c => (c <= s)%nat)
                     (rounded_counts test_size distributions)).
  { apply List.Forall_forall. intros c Hc. by apply count_le_total. }
  split; [|split].
  - intros [Hlo Hhi].
    rewrite filter_none.
    + destruct (Nat.leb_spec s i), (Nat.ltb_spec i (s + (n - s)));
        simpl; done || lia.
    + eapply Forall_impl; [exact Hbelow|]. simpl. intros c Hc.
      apply Nat.ltb_ge. lia.
  - intros Hall Hlt.
    rewrite filter_none.
    + destruct (Nat.leb_spec s i); simpl; done || lia.
    + eapply Forall_impl; [exact Hall|]. simpl. intros c Hc.
      by apply Nat.ltb_ge.
  - intros Hge.
    rewrite filter_none.
    + destruct (Nat.leb_spec s i), (Nat.ltb_spec i (s + (n - s)));
        simpl; done || lia.
    + eapply Forall_impl; [exact Hcounts|]. simpl. intros c Hc.
      apply Nat.ltb_ge. fold n in Hc. lia.
Qed.

Lemma backfill_contexts_exclusive_witness :
  exists (st : Sched) (tr' : list Event),
    schedule (const_env NaN) true (demo_nodes 10) 10 DEFAULT_DISTRIBUTION []
      = (Ok st, tr') /\
    uses 9 (node_indices st) = 1%nat /\
    uses 5 (node_indices st) = 0%nat /\
    uses 10 (node_indices st) = 0%nat.
Proof.
  destruct (backfill_contexts_exclusive (const_env NaN) true (demo_nodes 10)
              10 DEFAULT_DISTRIBUTION [])
    as (st & tr' & Hrun & Huse).
  - lia.
  - reflexivity.
  - discriminate.
  - weights_in_unit.
  - exists st, tr'. split; [exact Hrun|].
    split; [|split].
    + destruct (Huse 9%nat) as (H9 & _). apply H9. vm_compute. split; lia.
    + destruct (Huse 5%nat) as (_ & H5 & _). apply H5.
      * vm_compute. repeat (constructor; [lia|]). constructor.
      * vm_compute. lia.
    + destruct (Huse 10%nat) as (_ & _ & H10). apply H10. vm_compute. lia.
Defined.

(** ** What every scheduling step keeps *)

Lemma submit_last_inv (units units' : list Executor) (j : Job) :
  submit_last units j = Ok units' ->
  exists front e, units = front ++ [e] /\ units' = front ++ [submit e j].
Proof.
  unfold submit_last. destruct (reverse units) as [|e back] eqn:Hrev; [done|].
  intros [= <-]. exists (reverse back), e. split; [|done].
  rewrite <- (reverse_involutive units), Hrev. by rewrite reverse_cons.
Qed.

(** What a step that returns has done, whatever the shape of the units. *)
Lemma submit_task_inv (raise_exc : bool) (cn : list CurrentNodes)
    (ev : Evolution) (i : nat) (st st' : Sched) (tr tr' : list Event) :
  submit_task raise_exc cn ev i st tr = (Ok st', tr') ->
  exists node front e,
    cn !! i = Some node /\
    execs st = front ++ [e] /\
    total_evolutions st' = S (total_evolutions st) /\
    (execs st'
       = front ++ [submit e (mkJob ev i node
                               (class_name ev +:+ "-" +:+ pretty i))] \/
     execs st'
       = (front ++ [submit e (mkJob ev i node
                                (class_name ev +:+ "-" +:+ pretty i))])
         ++ [new_executor (S (length front)) raise_exc]).
Proof.
  unfold submit_task, bind, lift, tell, ret.
  destruct (py_getitem cn (Z.of_nat i)) as [node|] eqn:Hg; [|done].
  apply py_getitem_nat_inv in Hg.
  destruct (submit_last (execs st) _) as [units|] eqn:Hs; [|done].
  destruct (submit_last_inv _ _ _ Hs) as (front & e & Hex & ->).
  destruct (_ =? _)%nat; intros [= <- _]; exists node, front, e; simpl;
    (split; [done|]); (split; [done|]); (split; [done|]).
  - right. by rewrite length_app, Nat.add_1_r.
  - by left.
Qed.

Lemma submit_task_appends (raise_exc : bool) (cn : list CurrentNodes)
    (ev : Evolution) (i : nat) (st st' : Sched) (tr tr' : list Event) :
  submit_task raise_exc cn ev i st tr = (Ok st', tr') ->
  exists node,
    cn !! i = Some node /\
    assignments st'
    = assignments st
      ++ [mkJob ev i node (class_name ev +:+ "-" +:+ pretty i)].
Proof.
  intros Hrun.
  destruct (submit_task_inv _ _ _ _ _ _ _ _ Hrun)
    as (node & front & e & Hnode & Hex & _ & Hex').
  exists node. split; [exact Hnode|].
  unfold assignments. rewrite Hex.
  destruct Hex' as [->| ->];
    rewrite ?map_app, ?concat_app; simpl; rewrite ?app_nil_r;
    by rewrite <- ?app_assoc.
Qed.

Section Invariants.

  Context (env : Env) (raise_exc : bool) (cn : list CurrentNodes).

Lemma submit_task_keeps_tasks (population : list Evolution) (ev : Evolution)
    (i : nat) (st st' : Sched) (tr tr' : list Event) :
  In ev population ->
  Forall (task_ok cn population) (assignments st) ->
  submit_task raise_exc cn ev i st tr = (Ok st', tr') ->
  Forall (task_ok cn population) (assignments st').
Proof.
  intros Hin Hall Hrun.
  destruct (submit_task_appends _ _ _ _ _ _ _ _ Hrun) as (node & Hnode & ->).
  apply Forall_app. split; [exact Hall|]. constructor; [|constructor].
  by repeat split.
Qed.

Lemma submit_task_keeps_labels (ev : Evolution) (i : nat) (st st' : Sched)
    (tr tr' : list Event) :
  units_labelled raise_exc st ->
  submit_task raise_exc cn ev i st tr = (Ok st', tr') ->
  units_labelled raise_exc st'.
Proof.
  intros Hlab Hrun.
  destruct (submit_task_inv _ _ _ _ _ _ _ _ Hrun)
    as (node & front & e & _ & Hex & _ & Hex').
  set (j := mkJob ev i node (class_name ev +:+ "-" +:+ pretty i)) in *.
  assert (Hsame : forall k u,
             (front ++ [submit e j]) !! k = Some u ->
             desc u = "Generating_" +:+ pretty k /\
             keep_progress_bar u = true /\ raise_exceptions u = raise_exc).
  { intros k u Hk.
    destruct (decide (k < length front)%nat) as [Hlt|Hge].
    - rewrite lookup_app_l in Hk by done.
      apply (Hlab k u). rewrite Hex. by rewrite lookup_app_l.
    - rewrite lookup_app_r in Hk by lia.
      destruct (k - length front)%nat as [|m] eqn:Hm; [|done].
      simpl in Hk. injection Hk as <-. simpl.
      apply (Hlab k e). rewrite Hex, lookup_app_r by lia. by rewrite Hm. }
  intros k u Hk. destruct Hex' as [Hex'|Hex']; rewrite Hex' in Hk.
  - by apply Hsame.
  - destruct (decide (k < length (front ++ [submit e j]))%nat) as [Hlt|Hge].
    + rewrite lookup_app_l in Hk by done. by apply Hsame.
    + rewrite lookup_app_r in Hk by lia.
      destruct (k - length (front ++ [submit e j]))%nat as [|m] eqn:Hm;
        [|done].
      simpl in Hk. injection Hk as <-. simpl.
      rewrite length_app in Hge, Hm. simpl in Hge, Hm.
      replace k with (S (length front)) by lia. done.
Qed.

End Invariants.

Lemma units_labelled_initial (raise_exc : bool) :
  units_labelled raise_exc (mkSched [new_executor 0 raise_exc] 0).
Proof. intros [|k] e; simpl; [|done]. by intros [= <-]. Qed.

(** X4.  In every scheduling run that returns, each registered task is
    named [class name-index], where the index is that of the node-context
    the task holds (not a running task number), the task holds exactly
    [current_nodes[index]], and its strategy is one of the mapping's
    strategies. *)
Theorem tasks_named_after_node_index (env : Env) (raise_exc : bool)
    (cn : list CurrentNodes) (test_size : Z) (distributions : Distributions)
    (tr tr' : list Event) (st : Sched) :
  schedule env raise_exc cn test_size distributions tr = (Ok st, tr') ->
  Forall (task_ok cn (map fst distributions)) (assignments st).
Proof.
  unfold schedule, bind.
  destruct (main_loop _ _ _ _ _ tr) as [[st1|] tr1] eqn:Hmain; [|done].
  intros Hback.
  assert (Hmain_ok : Forall (task_ok cn (map fst distributions))
                       (assignments st1)).
  { assert (Hgen : forall (items : Distributions) s t s' t',
               (forall item, In item items ->
                             In (fst item) (map fst distributions)) ->
               Forall (task_ok cn (map fst distributions)) (assignments s) ->
               main_loop raise_exc cn test_size items s t = (Ok s', t') ->
               Forall (task_ok cn (map fst distributions)) (assignments s')).
    { unfold main_loop.
      induction items as [|item items IH]; intros s t s' t' Hsub Hs; simpl.
      - unfold ret. by intros [= <- <-].
      - intros Hrun. apply bind_inv in Hrun as (s1 & t1 & Hinner & Hrest).
        apply bind_inv in Hinner as (count & t0 & _ & Hinner).
        eapply IH; [|
          |exact Hrest].
        + intros it Hit. apply Hsub. by right.
        + eapply (for_each_inv
                    (fun s => Forall (task_ok cn (map fst distributions))
                                (assignments s)));
            [|exact Hs|exact Hinner].
          intros i s2 t2 s3 t3 Hs2 Hstep.
          eapply submit_task_keeps_tasks; [|exact Hs2|exact Hstep].
          apply Hsub. by left. }
    eapply Hgen; [|
      |exact Hmain].
    - intros item Hitem. by apply in_map.
    - constructor. }
  unfold backfill in Hback. destruct (_ <=? _).
  - unfold bind, choices in Hback.
    destruct (choices_from _ _ _) as [filler|] eqn:Hfill; [|done].
    destruct (choices_from_members _ _ _ _ Hfill) as [_ Hin].
    simpl in Hback. clear Hfill Hmain. revert st1 tr1 Hmain_ok Hback.
    induction Hin as [|ev filler Hev _ IH]; intros s t Hs; simpl.
    + unfold ret. by intros [= <- <-].
    + unfold bind.
      destruct (submit_task _ _ _ _ _ t) as [[s1|] t1] eqn:Hstep; [|done].
      apply IH. eapply submit_task_keeps_tasks; [exact Hev|exact Hs|].
      exact Hstep.
  - unfold ret in Hback. by injection Hback as <- <-.
Qed.

Lemma tasks_named_after_node_index_witness :
  Forall (task_ok (demo_nodes 4) (map fst DEFAULT_DISTRIBUTION))
    (assignments (sched_of run_default4)).
Proof.
  apply (tasks_named_after_node_index (const_env NaN) true (demo_nodes 4) 4
           DEFAULT_DISTRIBUTION [] (snd run_default4)).
  vm_compute. reflexivity.
Defined.

(** A property of the scheduling state that holds for the first, empty
    unit and that every registration keeps holds when scheduling
    returns. *)
Lemma schedule_invariant (I : Sched -> Prop) (env : Env) (raise_exc : bool)
    (cn : list CurrentNodes) (test_size : Z) (distributions : Distributions)
    (tr tr' : list Event) (st : Sched) :
  I (mkSched [new_executor 0 raise_exc] 0) ->
  (forall ev i s t s' t',
      I s -> submit_task raise_exc cn ev i s t = (Ok s', t') -> I s') ->
  schedule env raise_exc cn test_size distributions tr = (Ok st, tr') ->
  I st.
Proof.
  intros Hinit Hstep. unfold schedule, bind.
  destruct (main_loop _ _ _ _ _ tr) as [[st1|] tr1] eqn:Hmain; [|done].
  intros Hback.
  assert (Hmain_ok : I st1).
  { unfold main_loop in Hmain.
    eapply (for_each_inv I); [|exact Hinit|exact Hmain].
    intros item s t s' t' Hs Hinner.
    apply bind_inv in Hinner as (count & t0 & _ & Hinner).
    eapply (for_each_inv I); [|exact Hs|exact Hinner].
    intros i s1 t1 s2 t2 Hs1 Hrun. exact (Hstep _ _ _ _ _ _ Hs1 Hrun). }
  unfold backfill in Hback. destruct (_ <=? _).
  - unfold bind, choices in Hback.
    destruct (choices_from _ _ _) as [filler|]; [|done].
    simpl in Hback.
    eapply (for_each_inv I); [|exact Hmain_ok|exact Hback].
    intros ev s1 t1 s2 t2 Hs1 Hrun. exact (Hstep _ _ _ _ _ _ Hs1 Hrun).
  - unfold ret in Hback. by injection Hback as <- <-.
Qed.

(** X5.  In every scheduling run that returns, the unit at position [k]
    is described as [Generating_k], keeps its progress bar, and carries
    the [raise_exceptions] flag the run was called with. *)
Theorem units_carry_position_and_flags (env : Env) (raise_exc : bool)
    (cn : list CurrentNodes) (test_size : Z) (distributions : Distributions)
    (tr tr' : list Event) (st : Sched) :
  schedule env raise_exc cn test_size distributions tr = (Ok st, tr') ->
  units_labelled raise_exc st.
Proof.
  apply (schedule_invariant (units_labelled raise_exc)).
  - apply units_labelled_initial.
  - intros ev i s t s' t' Hs Hrun.
    exact (submit_task_keeps_labels _ _ _ _ _ _ _ _ Hs Hrun).
Qed.

Lemma units_carry_position_and_flags_witness :
  units_labelled true (sched_of run23) /\
  map desc (execs (sched_of run23))
  = ["Generating_0"; "Generating_1"; "Generating_2"].
Proof.
  split; [|vm_compute; reflexivity].
  apply (units_carry_position_and_flags (const_env NaN) true (demo_nodes 23)
           23 only_simple [] (snd run23)).
  vm_compute. reflexivity.
Defined.

(** ** A rounded count beyond the node-contexts *)

Lemma submit_task_past_the_end (raise_exc : bool) (cn : list CurrentNodes)
    (ev : Evolution) (i : nat) (st : Sched) (tr : list Event) :
  (length cn <= i)%nat ->
  submit_task raise_exc cn ev i st tr = (Raise IndexError, tr).
Proof.
  intros Hi. unfold submit_task, bind, lift.
  by rewrite py_getitem_too_large by lia.
Qed.

Lemma index_loop_overflows (raise_exc : bool) (cn : list CurrentNodes)
    (ev : Evolution) (c : nat) (st : Sched) (tr : list Event) :
  units_ok st -> (length cn < c)%nat ->
  exists tr',
    for_each (seq 0 c)
      (fun i st => submit_task raise_exc cn ev i st) st tr
    = (Raise IndexError, tr').
Proof.
  intros Hok Hc.
  replace c with (length cn + S (c - S (length cn)))%nat by lia.
  rewrite seq_app, for_each_app.
  destruct (index_loop_runs raise_exc cn ev (length cn) 0 st tr Hok
              ltac:(lia))
    as (st1 & tr1 & -> & _).
  exists tr1. simpl. unfold bind.
  by rewrite submit_task_past_the_end.
Qed.

Lemma main_loop_overflows (raise_exc : bool) (cn : list CurrentNodes)
    (test_size : Z) (distributions : Distributions)
    (st : Sched) (tr : list Event) :
  units_ok st ->
  counts_defined test_size distributions ->
  Exists (fun c => (length cn < c)%nat)
    (rounded_counts test_size distributions) ->
  exists tr',
    main_loop raise_exc cn test_size distributions st tr
    = (Raise IndexError, tr').
Proof.
  revert st tr.
  induction distributions as [|[ev p] dist IH]; intros st tr Hok Hdef Hex.
  - by apply Exists_nil in Hex.
  - apply Forall_cons in Hdef as [[count Hcount] Hdef]. simpl in Hcount.
    rewrite (main_loop_cons _ _ _ _ _ _ _ _ _ Hcount). unfold range.
    simpl in Hex. rewrite (task_count_ok _ _ _ Hcount) in Hex.
    set (c := Z.to_nat count) in *.
    destruct (decide (length cn < c)%nat) as [Hbig|Hsmall].
    + destruct (index_loop_overflows raise_exc cn ev c st tr Hok Hbig)
        as [tr' ->].
      by exists tr'.
    + destruct (index_loop_runs raise_exc cn ev c 0 st tr Hok ltac:(lia))
        as (st1 & tr1 & -> & Hok1 & _).
      apply IH; [exact Hok1|exact Hdef|].
      apply Exists_cons in Hex as [Hhere|Hthere]; done.
Qed.

Lemma counts_defined_configured (self : TestsetGenerator) (test_size : Z)
    (distributions : Distributions) :
  counts_defined test_size distributions ->
  counts_defined test_size (configured self distributions).
Proof.
  unfold counts_defined, configured. intros Hd. apply Forall_map.
  eapply Forall_impl; [exact Hd|]. by intros [ev p].
Qed.

Lemma rounded_counts_configured (self : TestsetGenerator) (test_size : Z)
    (distributions : Distributions) :
  rounded_counts test_size (configured self distributions)
  = rounded_counts test_size distributions.
Proof. unfold rounded_counts, configured. rewrite map_map. by apply map_ext. Qed.

Lemma rounded_total_configured (self : TestsetGenerator) (test_size : Z)
    (distributions : Distributions) :
  rounded_total test_size (configured self distributions)
  = rounded_total test_size distributions.
Proof. unfold rounded_total. by rewrite rounded_counts_configured. Qed.

(** X6.  Weights that pass the distribution check can still stop the run:
    when every product is within the range of [round] and some strategy's
    rounded count exceeds the number of sampled node-contexts (a weight
    above 1 balanced by a negative one), [generate] raises the list's index
    error out of the main loop. *)
Theorem generate_count_beyond_sample
    (self : TestsetGenerator) (env : Env) (test_size : Z)
    (distributions : Distributions)
    (with_debugging_logs is_async raise_exc : bool)
    (run_config : option RunConfig) (tr : list Event)
    (sampled : list Node) :
  check_if_sum_is_close (map snd distributions) (float_lit 1 1) 3 = true ->
  (forall tr0,
      env_get_random_nodes env tr0 (self_docstore self) test_size None
      = Some sampled) ->
  counts_defined test_size distributions ->
  Exists (fun c => (length sampled < c)%nat)
    (rounded_counts test_size distributions) ->
  fst (generate self env test_size distributions with_debugging_logs
         is_async raise_exc run_config tr)
  = Raise IndexError.
Proof.
  intros Hcheck Hsample Hdef Hbig.
  unfold generate. rewrite Hcheck. cbn [negb].
  run_first by reflexivity.
  run_first by apply init_strategies_runs.
  run_first by apply patch_loggers_trace.
  run_first by (unfold get_random_nodes; rewrite Hsample; reflexivity).
  set (cn := map _ sampled).
  assert (Hbig' : Exists (fun c => (length cn < c)%nat)
                    (rounded_counts test_size
                       (configured self distributions))).
  { rewrite rounded_counts_configured. subst cn. by rewrite length_map. }
  match goal with
  | |- fst (bind _ _ ?t) = _ =>
      destruct (main_loop_overflows raise_exc cn test_size
                  (configured self distributions)
                  (mkSched [new_executor 0 raise_exc] 0) t
                  (units_ok_initial raise_exc)
                  (counts_defined_configured self _ _ Hdef) Hbig')
        as [tr' Hmain]
  end.
  erewrite bind_raises; [done|].
  unfold schedule. by erewrite bind_raises.
Qed.

Lemma generate_count_beyond_sample_witness :
  fst (generate demo_generator (const_env NaN) 2
         beyond_one
         false true true None [])
  = Raise IndexError.
Proof.
  apply (generate_count_beyond_sample demo_generator (const_env NaN) 2
           beyond_one
           false true true None [] [mkNode "n0"; mkNode "n1"]).
  - vm_compute. reflexivity.
  - intros tr0. reflexivity.
  - repeat (apply List.Forall_cons; [eexists; vm_compute; reflexivity|]).
    apply List.Forall_nil.
  - vm_compute. apply Exists_cons_hd. lia.
Defined.

(** ** The dataset [generate] returns *)

Lemma filter_keeps_valid (rows : list Outcome) :
  Forall (fun r => is_nan r = false)
    (List.filter (fun r => negb (is_nan r)) rows).
Proof.
  apply List.Forall_forall. intros r Hr.
  apply List.filter_In in Hr as [_ Hr]. by apply negb_true_iff.
Qed.

Lemma filter_all_valid (rows : list Outcome) :
  Forall (fun r => is_nan r = false) rows ->
  List.filter (fun r => negb (is_nan r)) rows = rows.
Proof.
  induction 1 as [|r rows Hr _ IH]; simpl; [done|].
  rewrite Hr. simpl. by rewrite IH.
Qed.

Lemma to_records_loop_valid (rows : list Outcome)
    (acc : list (gmap string Value)) :
  Forall (fun r => is_nan r = false) rows ->
  exists recs,
    to_records_loop rows acc = Ok (acc ++ recs) /\
    length recs = length rows.
Proof.
  intros Hall. revert acc.
  induction Hall as [|r rows Hr _ IH]; intros acc; simpl.
  - exists []. by rewrite app_nil_r.
  - destruct r as [row|]; [|done]. simpl.
    destruct (IH (acc ++ [<["episode_done" := VBool true]> (fields row)]))
      as (recs & -> & Hlen).
    exists (<["episode_done" := VBool true]> (fields row) :: recs).
    split; [by rewrite <- app_assoc|]. simpl. lia.
Qed.

Lemma to_records_loop_invalid (rows : list Outcome)
    (acc : list (gmap string Value)) :
  Exists (fun r => is_nan r = true) rows ->
  to_records_loop rows acc = Raise TypeError.
Proof.
  intros Hex. revert acc.
  induction Hex as [r rows Hr|r rows _ IH]; intros acc; simpl.
  - by destruct r.
  - destruct r as [row|]; [apply IH|done].
Qed.

(** What the task at position [k] of [tasks] contributed to the outcome
    list when the units started at trace [tr]: the strategy's answer to
    the call, made after the [k] calls before it; a failure becomes the
    invalid sentinel, and only in a run that does not raise. *)
Lemma results_outcomes (env : Env) (raise_exc : bool) (js : list Job)
    (outcomes rows : list Outcome) (tr tr' : list Event) :
  for_each js (run_job env raise_exc) outcomes tr = (Ok rows, tr') ->
  exists new : list Outcome,
    rows = outcomes ++ new /\
    length new = length js /\
    tr' = tr ++ map evolve_event js /\
    forall (k : nat) (j : Job) (o : Outcome),
      js !! k = Some j -> new !! k = Some o ->
      match env_evolve env (tr ++ map evolve_event (take k js))
              (job_evolution j) (job_node j) with
      | Returns o' => o = o'
      | Fails _ => raise_exc = false /\ o = NaN
      end.
Proof.
  revert outcomes tr. induction js as [|j js IH]; intros outcomes tr.
  - simpl. unfold ret. intros [= <- <-]. exists [].
    rewrite !app_nil_r. repeat split. intros k j o Hk. done.
  - rewrite for_each_cons.
    destruct (run_job env raise_exc j outcomes tr) as [[o1|] t1] eqn:Hjob;
      [|done].
    intros Hrest. destruct (IH _ _ Hrest) as (new & -> & Hlen & -> & Hout).
    assert (Hfirst : exists o,
               o1 = outcomes ++ [o] /\ t1 = tr ++ [evolve_event j] /\
               match env_evolve env tr (job_evolution j) (job_node j) with
               | Returns o' => o = o'
               | Fails _ => raise_exc = false /\ o = NaN
               end).
    { unfold run_job in Hjob.
      destruct (env_evolve env tr _ _) as [o|msg].
      - injection Hjob as <- <-. by exists o.
      - destruct raise_exc; [done|]. injection Hjob as <- <-. by exists NaN. }
    destruct Hfirst as (o & -> & -> & Ho).
    exists (o :: new). split; [by rewrite <- app_assoc|].
    split; [simpl; lia|]. split; [simpl; by rewrite <- app_assoc|].
    intros [|k] j' o' Hj Ho'; simpl in Hj, Ho'.
    + injection Hj as <-. injection Ho' as <-. simpl. by rewrite app_nil_r.
    + specialize (Hout k j' o' Hj Ho'). simpl.
      by rewrite <- app_assoc in Hout.
Qed.

Lemma collect_outcomes (env : Env) (raise_exc : bool)
    (units : list Executor) (acc rows : list Outcome) (tr tr' : list Event) :
  Forall (fun e => raise_exceptions e = raise_exc) units ->
  for_each units
    (fun exec total_test_data_rows =>
       let* test_data_rows := results env exec in
       ret (total_test_data_rows ++ test_data_rows))
    acc tr = (Ok rows, tr') ->
  exists new : list Outcome,
    rows = acc ++ new /\
    length new = length (concat (map jobs units)) /\
    tr' = tr ++ map evolve_event (concat (map jobs units)) /\
    forall (k : nat) (j : Job) (o : Outcome),
      concat (map jobs units) !! k = Some j -> new !! k = Some o ->
      match env_evolve env
              (tr ++ map evolve_event (take k (concat (map jobs units))))
              (job_evolution j) (job_node j) with
      | Returns o' => o = o'
      | Fails _ => raise_exc = false /\ o = NaN
      end.
Proof.
  intros Hflags. revert acc tr.
  induction Hflags as [|e units He _ IH]; intros acc tr.
  - simpl. unfold ret. intros [= <- <-]. exists [].
    rewrite !app_nil_r. repeat split. intros k j o Hk. done.
  - rewrite for_each_cons. cbv beta. intros Hrun.
    apply bind_inv in Hrun as (rows1 & t1 & Hbody & Hrest).
    apply bind_inv in Hbody as (rows_e & t_e & Hres & Hret).
    unfold ret in Hret. injection Hret as <- <-.
    unfold results in Hres. rewrite He in Hres.
    apply results_outcomes in Hres as (new1 & -> & Hlen1 & -> & Hout1).
    destruct (IH _ _ Hrest) as (new2 & -> & Hlen2 & -> & Hout2).
    change (concat (map jobs (e :: units)))
      with (jobs e ++ concat (map jobs units)).
    exists (new1 ++ new2). rewrite app_nil_l.
    split; [by rewrite <- app_assoc|].
    split; [rewrite !length_app; lia|].
    split; [by rewrite map_app, <- app_assoc|].
    intros k j o Hj Ho.
    destruct (decide (k < length (jobs e))%nat) as [Hlt|Hge].
    + rewrite lookup_app_l in Hj by done.
      rewrite lookup_app_l in Ho by lia.
      rewrite take_app_le by lia.
      by apply Hout1.
    + rewrite lookup_app_r in Hj by lia.
      rewrite lookup_app_r in Ho by lia.
      rewrite take_app_ge by lia.
      rewrite map_app, app_assoc. rewrite Hlen1 in Ho.
      by apply Hout2.
Qed.

(** X7.  Whenever [generate] returns a dataset, the dataset holds exactly
    the valid outcomes of the run's tasks, in task order.  The node store
    supplied a sample, scheduling over it returned, and the units produced
    one outcome per registered task: the strategy's answer to the task's
    [evolve] call (made after the calls of the tasks before it), or the
    invalid sentinel for a call that failed in a run that does not raise.
    That outcome list was not empty; the dataset is that list without its
    invalid sentinels; the last thing [generate] did was to report the
    number of rows to telemetry; and the record view of the dataset
    succeeds with one record per row. *)
Theorem generate_returns_valid_rows
    (self : TestsetGenerator) (env : Env) (test_size : Z)
    (distributions : Distributions)
    (with_debugging_logs is_async raise_exc : bool)
    (run_config : option RunConfig) (tr tr' : list Event)
    (d : TestDataset (list Outcome)) :
  generate self env test_size distributions with_debugging_logs is_async
    raise_exc run_config tr = (Ok d, tr') ->
  exists (sampled : list Node) (st : Sched) (t0 t1 : list Event)
         (raw : list Outcome),
    env_get_random_nodes env t0 (self_docstore self) test_size None
      = Some sampled /\
    schedule env raise_exc
      (map (fun n => mkCurrentNodes (NodeObj n) [NodeObj n]) sampled)
      test_size (configured self distributions)
      (t0 ++ [EvSampleNodes test_size])
    = (Ok st, t1) /\
    tr' = (t1 ++ [EvPrint (length (execs st))])
          ++ map evolve_event (assignments st)
          ++ [EvTrack (length (test_data d))] /\
    length raw = length (assignments st) /\
    raw <> [] /\
    (forall (k : nat) (j : Job) (o : Outcome),
        assignments st !! k = Some j -> raw !! k = Some o ->
        match env_evolve env
                ((t1 ++ [EvPrint (length (execs st))])
                 ++ map evolve_event (take k (assignments st)))
                (job_evolution j) (job_node j) with
        | Returns o' => o = o'
        | Fails _ => raise_exc = false /\ o = NaN
        end) /\
    test_data d = List.filter (fun r => negb (is_nan r)) raw /\
    Forall (fun r => is_nan r = false) (test_data d) /\
    (exists records,
        _to_records d = Ok records /\
        length records = length (test_data d)).
Proof.
  unfold generate.
  destruct (check_if_sum_is_close _ _ _); cbn [negb]; [|done].
  intros H.
  apply bind_inv in H as (u1 & t1 & _ & H).
  apply bind_inv in H as (dist' & t2 & H2 & H).
  rewrite init_strategies_runs in H2. injection H2 as <- _.
  apply bind_inv in H as (u3 & t3 & _ & H).
  apply bind_inv in H as (sampled & t4 & H4 & H).
  unfold get_random_nodes in H4.
  destruct (env_get_random_nodes env t3 _ _ _) as [nodes_|] eqn:Hsample;
    [|done].
  injection H4 as <- <-.
  apply bind_inv in H as (st & t5 & Hsched & H).
  apply bind_inv in H as (u6 & t6 & H6 & H).
  unfold tell in H6. injection H6 as _ <-.
  apply bind_inv in H as (raw & t7 & H7 & H).
  assert (Hflags : Forall (fun e => raise_exceptions e = raise_exc)
                     (execs st)).
  { apply Forall_lookup. intros k e Hk.
    eapply (schedule_invariant (units_labelled raise_exc));
      [apply units_labelled_initial| |exact Hsched|exact Hk].
    intros ev i s t s' t' Hs Hrun.
    exact (submit_task_keeps_labels _ _ _ _ _ _ _ _ Hs Hrun). }
  unfold collect_results in H7.
  apply (collect_outcomes env raise_exc _ _ _ _ _ Hflags) in H7
    as (new & -> & Hlen & -> & Hout).
  rewrite app_nil_l in *.
  destruct (is_empty new) eqn:Hemp; [done|].
  unfold bind, tell, ret in H.
  injection H as <- <-. cbn [test_data].
  exists nodes_, st, t3, t5, new.
  split; [exact Hsample|]. split; [exact Hsched|].
  split; [by rewrite <- !app_assoc|].
  split; [exact Hlen|]. split; [by destruct new|].
  split; [exact Hout|]. split; [done|].
  split; [apply filter_keeps_valid|].
  unfold _to_records. cbn [test_data].
  destruct (to_records_loop_valid _ [] (filter_keeps_valid new))
    as (recs & Hrecs & Hlen').
  by exists recs.
Qed.

Lemma generate_returns_valid_rows_witness :
  exists records,
    _to_records (mkTestDataset [Row demo_row; Row demo_row]) = Ok records /\
    length records = 2%nat.
Proof.
  destruct (generate_returns_valid_rows demo_generator
              (const_env (Row demo_row)) 2 only_simple
              false true true None []
              (snd (generate demo_generator (const_env (Row demo_row)) 2
                      only_simple false true true None []))
              (mkTestDataset [Row demo_row; Row demo_row]))
    as (sampled & st & t0 & t1 & raw & _ & _ & _ & _ & _ & _ & _ & _ & Hrec).
  - vm_compute. reflexivity.
  - exact Hrec.
Defined.

(** X8.  [_to_records] succeeds, with one record per row, exactly on the
    datasets without an invalid sentinel; a dataset that holds one makes it
    raise a type error, and so do [to_pandas] and [to_dataset]. *)
Theorem to_records_needs_valid_rows (d : TestDataset (list Outcome)) :
  (Forall (fun r => is_nan r = false) (test_data d) ->
   exists records,
     _to_records d = Ok records /\
     to_pandas d = Ok (mkDataFrame records) /\
     to_dataset d = Ok (mkHFDataset records) /\
     length records = length (test_data d)) /\
  (Exists (fun r => is_nan r = true) (test_data d) ->
   _to_records d = Raise TypeError /\
   to_pandas d = Raise TypeError /\
   to_dataset d = Raise TypeError).
Proof.
  split.
  - intros Hall.
    destruct (to_records_loop_valid _ [] Hall) as (recs & Hrecs & Hlen).
    exists recs. unfold to_pandas, to_dataset, _to_records.
    rewrite Hrecs. by repeat split.
  - intros Hex. unfold to_pandas, to_dataset, _to_records.
    by rewrite (to_records_loop_invalid _ [] Hex).
Qed.

Lemma to_records_needs_valid_rows_witness :
  (exists records,
      _to_records (mkTestDataset [Row demo_row]) = Ok records /\
      to_pandas (mkTestDataset [Row demo_row]) = Ok (mkDataFrame records) /\
      to_dataset (mkTestDataset [Row demo_row]) = Ok (mkHFDataset records) /\
      length records = 1%nat) /\
  _to_records (mkTestDataset [Row demo_row; NaN]) = Raise TypeError.
Proof.
  split.
  - apply (to_records_needs_valid_rows (mkTestDataset [Row demo_row])).
    by repeat constructor.
  - apply (to_records_needs_valid_rows (mkTestDataset [Row demo_row; NaN])).
    apply Exists_cons_tl, Exists_cons_hd. reflexivity.
Defined.

(** X9.  A record differs from its row only at [episode_done]: every other
    field of the row is in the record with the same value, the record has
    no further field, and a value the row already had for [episode_done]
    is replaced by [True]. *)
Theorem to_records_keeps_fields (rows : list DataRow)
    (records : list (gmap string Value)) (i : nat) (r : DataRow)
    (rec : gmap string Value) :
  _to_records (mkTestDataset (map Row rows)) = Ok records ->
  rows !! i = Some r -> records !! i = Some rec ->
  (forall k : string, k <> "episode_done" -> rec !! k = fields r !! k) /\
  rec !! "episode_done" = Some (VBool true) /\
  dom rec = dom (fields r) ∪ {["episode_done"]}.
Proof.
  unfold _to_records. cbn [test_data].
  rewrite to_records_loop_rows. intros [= <-] Hr Hrec.
  rewrite list_lookup_fmap, Hr in Hrec. injection Hrec as <-.
  split; [|split].
  - intros k Hk. by rewrite lookup_insert_ne.
  - apply lookup_insert_eq.
  - rewrite dom_insert_L. apply (comm_L (∪)).
Qed.

Lemma to_records_keeps_fields_witness :
  (<["episode_done" := VBool true]>
     ({[ "question" := VStr "q"; "episode_done" := VBool false ]}
        : gmap string Value)) !! "question" = Some (VStr "q") /\
  (<["episode_done" := VBool true]>
     ({[ "question" := VStr "q"; "episode_done" := VBool false ]}
        : gmap string Value)) !! "episode_done" = Some (VBool true).
Proof.
  destruct (to_records_keeps_fields
              [mkDataRow {[ "question" := VStr "q";
                            "episode_done" := VBool false ]}]
              [<["episode_done" := VBool true]>
                 {[ "question" := VStr "q"; "episode_done" := VBool false ]}]
              0
              (mkDataRow {[ "question" := VStr "q";
                            "episode_done" := VBool false ]})
              (<["episode_done" := VBool true]>
                 {[ "question" := VStr "q"; "episode_done" := VBool false ]}))
    as (Hother & Hdone & _).
  - reflexivity.
  - reflexivity.
  - reflexivity.
  - split; [|exact Hdone].
    rewrite (Hother "question"); [|discriminate]. reflexivity.
Defined.

(** ** A run in which every task produces a row *)

Lemma results_all_return (env : Env) (raise_exc : bool) (P : Outcome -> Prop)
    (js : list Job) (outcomes : list Outcome) (tr : list Event) :
  (forall tr0 ev nd, exists o, env_evolve env tr0 ev nd = Returns o /\ P o) ->
  exists rows tr',
    for_each js (run_job env raise_exc) outcomes tr
    = (Ok (outcomes ++ rows), tr') /\
    length rows = length js /\ Forall P rows.
Proof.
  intros Hret. revert outcomes tr.
  induction js as [|j js IH]; intros outcomes tr.
  - exists [], tr. simpl. unfold ret. by rewrite app_nil_r.
  - destruct (Hret tr (job_evolution j) (job_node j)) as (o & Ho & HP).
    assert (Hjob : run_job env raise_exc j outcomes tr
                   = (Ok (outcomes ++ [o]),
                      tr ++ [EvEvolve (class_name (job_evolution j))
                               (job_node j)])).
    { unfold run_job. by rewrite Ho. }
    destruct (IH (outcomes ++ [o])
                (tr ++ [EvEvolve (class_name (job_evolution j)) (job_node j)]))
      as (rows & tr' & Hrest & Hlen & Hall).
    exists (o :: rows), tr'. rewrite for_each_cons, Hjob, Hrest.
    split; [by rewrite <- app_assoc|]. split; [simpl; lia|by constructor].
Qed.

Lemma collect_all_return (env : Env) (P : Outcome -> Prop)
    (units : list Executor) (acc : list Outcome) (tr : list Event) :
  (forall tr0 ev nd, exists o, env_evolve env tr0 ev nd = Returns o /\ P o) ->
  exists rows tr',
    for_each units
      (fun exec total_test_data_rows =>
         let* test_data_rows := results env exec in
         ret (total_test_data_rows ++ test_data_rows))
      acc tr
    = (Ok (acc ++ rows), tr') /\
    length rows = length (concat (map jobs units)) /\ Forall P rows.
Proof.
  intros Hret. revert acc tr.
  induction units as [|e units IH]; intros acc tr.
  - exists [], tr. simpl. unfold ret. by rewrite app_nil_r.
  - destruct (results_all_return env (raise_exceptions e) P (jobs e) [] tr
                Hret)
      as (rows1 & tr1 & Hres & Hlen1 & Hall1).
    assert (Hbody : (let* test_data_rows := results env e in
                     ret (acc ++ test_data_rows)) tr
                    = (Ok (acc ++ rows1), tr1)).
    { unfold bind, results. by rewrite Hres. }
    destruct (IH (acc ++ rows1) tr1) as (rows2 & tr2 & Hrest & Hlen2 & Hall2).
    exists (rows1 ++ rows2), tr2.
    rewrite for_each_cons. cbv beta. rewrite Hbody, Hrest.
    split; [by rewrite <- app_assoc|].
    split; [|by apply Forall_app].
    change (concat (map jobs (e :: units)))
      with (jobs e ++ concat (map jobs units)).
    rewrite !length_app. lia.
Qed.

(** X10.  For a positive [test_size] below [2^53], accepted weights in
    [[0, 1]], a node store that supplies [test_size] nodes and strategies
    that all return rows, [generate] returns a dataset with one row per
    task: [test_size] rows when the rounded counts sum to at most
    [test_size], and the sum of the rounded counts when they overshoot. *)
Theorem generate_all_rows
    (self : TestsetGenerator) (env : Env) (test_size : Z)
    (distributions : Distributions)
    (with_debugging_logs is_async raise_exc : bool)
    (run_config : option RunConfig) (tr : list Event)
    (sampled : list Node) :
  0 < test_size < 2 ^ 53 ->
  check_if_sum_is_close (map snd distributions) (float_lit 1 1) 3 = true ->
  unit_weights distributions ->
  (forall tr0,
      env_get_random_nodes env tr0 (self_docstore self) test_size None
      = Some sampled) ->
  length sampled = Z.to_nat test_size ->
  (forall tr0 ev nd,
      exists o, env_evolve env tr0 ev nd = Returns o /\ is_nan o = false) ->
  exists (d : TestDataset (list Outcome)) (tr' : list Event),
    generate self env test_size distributions with_debugging_logs is_async
      raise_exc run_config tr = (Ok d, tr') /\
    length (test_data d)
      = Nat.max (rounded_total test_size distributions)
          (Z.to_nat test_size) /\
    Forall (fun r => is_nan r = false) (test_data d).
Proof.
  intros Hn Hcheck Hw Hsample Hlen Hret.
  pose proof (check_passes_nonempty _ Hcheck) as Hne.
  unfold generate. rewrite Hcheck. cbn [negb].
  run_first by reflexivity.
  run_first by apply init_strategies_runs.
  run_first by apply patch_loggers_trace.
  run_first by (unfold get_random_nodes; rewrite Hsample; reflexivity).
  set (cn := map _ sampled).
  match goal with
  | |- context [bind (schedule env raise_exc cn test_size ?dist') _ ?t] =>
      destruct (schedule_runs env raise_exc cn test_size dist' t
                  ltac:(lia) ltac:(subst cn; by rewrite length_map)
                  ltac:(by destruct distributions)
                  (configured_unit_weights self _ Hw))
        as (st1 & tr3 & st & tr4 & _ & _ & Hsched & _ & Hok & _ & Htot & _)
  end.
  run_first by exact Hsched.
  run_first by reflexivity.
  destruct (collect_all_return env (fun o => is_nan o = false) (execs st) []
              (tr4 ++ [EvPrint (length (execs st))]) Hret)
    as (rows & tr5 & Hcollect & Hrows & Hvalid).
  run_first by exact Hcollect.
  rewrite !app_nil_l.
  destruct (units_ok_counts _ Hok) as [Hcount _].
  unfold assignments in Hcount.
  rewrite Hcount, Htot, rounded_total_configured in Hrows.
  assert (Hemp : is_empty rows = false).
  { destruct rows; [simpl in Hrows; lia|done]. }
  rewrite Hemp, (filter_all_valid _ Hvalid).
  eexists _, _. split; [reflexivity|]. cbn [test_data].
  by split.
Qed.

Lemma generate_all_rows_witness :
  exists (d : TestDataset (list Outcome)) (tr' : list Event),
    generate demo_generator (const_env (Row demo_row)) 3 two_halves
      false true true None [] = (Ok d, tr') /\
    length (test_data d)
      = Nat.max (rounded_total 3 two_halves) (Z.to_nat 3) /\
    Forall (fun r => is_nan r = false) (test_data d).
Proof.
  apply (generate_all_rows demo_generator (const_env (Row demo_row)) 3
           two_halves false true true None []
           [mkNode "n0"; mkNode "n1"; mkNode "n2"]).
  - lia.
  - vm_compute. reflexivity.
  - weights_in_unit.
  - intros tr0. reflexivity.
  - reflexivity.
  - intros tr0 ev nd. by exists (Row demo_row).
Defined.

(** ** The single-row path with an index in range *)

Lemma py_getitem_in_range {A} (l : list A) (i : Z) :
  - Z.of_nat (length l) <= i < Z.of_nat (length l) ->
  exists x,
    l !! Z.to_nat (if i <? 0 then i + Z.of_nat (length l) else i) = Some x /\
    py_getitem l i = Ok x.
Proof.
  intros Hi. unfold py_getitem.
  set (j := if i <? 0 then i + Z.of_nat (length l) else i).
  assert (Hj : 0 <= j < Z.of_nat (length l)).
  { subst j. destruct (Z.ltb_spec i 0); lia. }
  destruct (Z.ltb_spec j 0) as [?|_]; [lia|].
  destruct (Z.leb_spec (Z.of_nat (length l)) j) as [?|_]; [lia|].
  simpl.
  destruct (lookup_lt_is_Some_2 l (Z.to_nat j) ltac:(lia)) as [x Hx].
  exists x. by rewrite Hx.
Qed.

(** X11.  With an explicit index within [[-len, len)], [generate_single]
    makes exactly one [evolve] call, on the node at that index, a negative
    index counting from the end of the node list.  It returns the row
    wrapped in a [TestDataset], [None] for the invalid sentinel, and lets a
    failure of the strategy through. *)
Theorem generate_single_at_index
    (self : TestsetGenerator) (env : Env) (evolution : Evolution)
    (score_threshold : float) (node_index : Z) (tr : list Event) :
  - Z.of_nat (length (ds_nodes (self_docstore self))) <= node_index
    < Z.of_nat (length (ds_nodes (self_docstore self))) ->
  exists n : Node,
    ds_nodes (self_docstore self)
      !! Z.to_nat (if node_index <? 0
                   then node_index
                        + Z.of_nat (length (ds_nodes (self_docstore self)))
                   else node_index)
    = Some n /\
    generate_single self env evolution score_threshold (Some node_index) tr
    = (match env_evolve env
               (tr ++ [EvSetRunConfig (mkRunConfig 15 600);
                       EvInitStrategy
                         (class_name (init_evolution self evolution)) true])
               (init_evolution self evolution)
               (mkCurrentNodes (NodeObj n) [NodeObj n]) with
       | Returns (Row r) => Ok (Some (mkTestDataset (Row r)))
       | Returns NaN => Ok None
       | Fails msg => Raise (TaskError msg)
       end,
       tr ++ [EvSetRunConfig (mkRunConfig 15 600);
              EvInitStrategy (class_name (init_evolution self evolution)) true;
              EvEvolve (class_name (init_evolution self evolution))
                (mkCurrentNodes (NodeObj n) [NodeObj n])]).
Proof.
  intros Hrange.
  destruct (py_getitem_in_range (ds_nodes (self_docstore self)) node_index
              Hrange) as (n & Hn & Hget).
  exists n. split; [exact Hn|].
  unfold generate_single, bind, tell, raise, lift, ret, call_evolve.
  rewrite <- !app_assoc. simpl.
  destruct (Z.ltb_spec node_index
              (Z.of_nat (length (ds_nodes (self_docstore self)))))
    as [_|?]; [|lia].
  rewrite Hget.
  destruct (env_evolve env _ _ _) as [[r|]|msg]; by rewrite <- ?app_assoc.
Qed.

Lemma generate_single_at_index_witness :
  generate_single demo_generator (const_env (Row demo_row)) simple (float_lit 4 1)
    (Some (-3)) []
  = (Ok (Some (mkTestDataset (Row demo_row))),
     [EvSetRunConfig (mkRunConfig 15 600);
      EvInitStrategy "SimpleEvolution" true;
      EvEvolve "SimpleEvolution"
        (mkCurrentNodes (NodeObj (mkNode "n0")) [NodeObj (mkNode "n0")])]).
Proof.
  destruct (generate_single_at_index demo_generator
              (const_env (Row demo_row)) simple (float_lit 4 1) (-3) [])
    as (n & Hn & Hrun).
  - simpl. lia.
  - simpl in Hn. injection Hn as <-. exact Hrun.
Defined.

(** ** [filter_nodes_test] *)

Lemma filter_loop_runs (score : FilterOracle) (f : NodeFilter)
    (store_nodes : list Node) (c a : nat) (printed : list (nat * Score)) :
  (a + c <= length store_nodes)%nat ->
  filter_loop score (Some f) store_nodes (seq a c) printed
  = (Done tt, printed ++ printed_scores score f store_nodes (seq a c)).
Proof.
  revert a printed. induction c as [|c IH]; intros a printed Hlen.
  - simpl. by rewrite app_nil_r.
  - destruct (lookup_lt_is_Some_2 store_nodes a ltac:(lia)) as [n Hn].
    simpl. rewrite (py_getitem_nat _ _ _ Hn), IH by lia.
    unfold printed_scores. simpl. rewrite Hn. simpl.
    by rewrite <- app_assoc.
Qed.

Lemma filter_loop_app (score : FilterOracle) (nf : option NodeFilter)
    (store_nodes : list Node) (l1 l2 : list nat)
    (printed : list (nat * Score)) :
  filter_loop score nf store_nodes (l1 ++ l2) printed
  = match filter_loop score nf store_nodes l1 printed with
    | (Done _, printed1) => filter_loop score nf store_nodes l2 printed1
    | (Throws e, printed1) => (Throws e, printed1)
    end.
Proof.
  revert printed. induction l1 as [|i l1 IH]; intros printed; simpl; [done|].
  destruct (py_getitem store_nodes (Z.of_nat i)); [|done].
  destruct nf; [apply IH|done].
Qed.

(** X12.  Called without a node on a strategy that has a node filter after
    initialization, [filter_nodes_test] walks the first 200 nodes of the
    store in order.  With at least 200 nodes it prints exactly the 200
    lines [(i, score of node i)] and returns [None].  With fewer it prints
    one line for every node the store has and then raises the list's index
    error. *)
Theorem filter_nodes_test_first_200 (self : TestsetGenerator)
    (score : FilterOracle) (evolution : Evolution) (f : NodeFilter) :
  node_filter (init_evolution self evolution) = Some f ->
  ((200 <= length (ds_nodes (self_docstore self)))%nat ->
   filter_nodes_test self score evolution None
   = (Done None,
      printed_scores score f (ds_nodes (self_docstore self)) (seq 0 200),
      init_evolution self evolution)) /\
  ((length (ds_nodes (self_docstore self)) < 200)%nat ->
   filter_nodes_test self score evolution None
   = (Throws (Core IndexError),
      printed_scores score f (ds_nodes (self_docstore self))
        (seq 0 (length (ds_nodes (self_docstore self)))),
      init_evolution self evolution)).
Proof.
  intros Hf. unfold filter_nodes_test. rewrite Hf.
  change (range 200) with (seq 0 200).
  set (store_nodes := ds_nodes (self_docstore self)).
  split.
  - intros Hlen. by rewrite filter_loop_runs by lia.
  - intros Hlen.
    replace 200%nat
      with (length store_nodes + S (199 - length store_nodes))%nat at 1 2
      by lia.
    rewrite seq_app, filter_loop_app, filter_loop_runs by lia.
    change (seq (0 + length store_nodes) (S (199 - length store_nodes)))
      with (length store_nodes
            :: seq (S (length store_nodes)) (199 - length store_nodes)).
    cbn [filter_loop].
    by rewrite py_getitem_too_large by lia.
Qed.

Lemma filter_nodes_test_first_200_witness :
  filter_nodes_test demo_generator (fun _ _ i => Z.of_nat i) simple None
  = (Throws (Core IndexError),
     [(0%nat, 0); (1%nat, 1); (2%nat, 2)],
     init_evolution demo_generator simple).
Proof.
  destruct (filter_nodes_test_first_200 demo_generator
              (fun _ _ i => Z.of_nat i) simple (mkNodeFilter (mkLLM "gpt-4")))
    as [_ Hshort].
  - reflexivity.
  - apply Hshort. simpl. lia.
Defined.

(** X13.  A strategy that arrives with its own generation model and
    without a node filter is left without one by the initialization, and
    [filter_nodes_test] then raises an attribute error before any filter
    call: with a node given, or without a node on a store that is not
    empty.  Nothing is printed. *)
Theorem filter_nodes_test_without_filter (self : TestsetGenerator)
    (score : FilterOracle) (evolution : Evolution) (node : option Node) :
  is_Some (generator_llm evolution) -> node_filter evolution = None ->
  is_Some node \/ ds_nodes (self_docstore self) <> [] ->
  filter_nodes_test self score evolution node
  = (Throws AttributeError, [], evolution).
Proof.
  intros [g Hg] Hnf Hcase.
  assert (Hinit : init_evolution self evolution = evolution).
  { unfold init_evolution. by rewrite Hg. }
  unfold filter_nodes_test. rewrite Hinit, Hnf.
  destruct node as [n|]; [done|].
  destruct Hcase as [[n Hn]|Hne]; [done|].
  destruct (ds_nodes (self_docstore self)) as [|n0 ns] eqn:Hnodes; [done|].
  reflexivity.
Qed.

Lemma filter_nodes_test_without_filter_witness :
  filter_nodes_test demo_generator (fun _ _ i => Z.of_nat i) preconfigured
    None
  = (Throws AttributeError, [], preconfigured).
Proof.
  apply (filter_nodes_test_without_filter demo_generator
           (fun _ _ i => Z.of_nat i) preconfigured None).
  - by eexists.
  - reflexivity.
  - right. discriminate.
Defined.

(** ** [adapt] and [save] *)

Lemma save_loop_step_ok (cache_dir : option string) (e : Evolution)
    (rest : list Evolution) (log : list CacheEvent) :
  saveable e ->
  save_loop cache_dir (e :: rest) log
  = save_loop cache_dir rest (log ++ [EvolutionSave (class_name e) cache_dir]).
Proof.
  intros ([nf Hnf] & [qf Hqf] & Hef). simpl. rewrite Hnf, Hqf.
  destruct (is_complex e); [|done].
  destruct (Hef eq_refl) as [ef ->]. done.
Qed.

Lemma save_loop_step_fails (cache_dir : option string) (e : Evolution)
    (rest : list Evolution) (log : list CacheEvent) :
  ~ saveable e ->
  save_loop cache_dir (e :: rest) log = (Raise AssertionError, log).
Proof.
  intros Hno. simpl.
  destruct (node_filter e) as [nf|] eqn:Hnf; [|done].
  destruct (question_filter e) as [qf|] eqn:Hqf; [|done].
  destruct (is_complex e) eqn:Hcx;
    [destruct (evolution_filter e) as [ef|] eqn:Hef; [|done]|];
    exfalso; apply Hno; unfold saveable; rewrite Hnf, Hqf, ?Hef, ?Hcx;
    repeat split; by eauto.
Qed.

Lemma saveable_decide (e : Evolution) : saveable e \/ ~ saveable e.
Proof.
  unfold saveable.
  destruct (node_filter e); [|right; by intros ([? ?] & _)].
  destruct (question_filter e); [|right; by intros (_ & [? ?] & _)].
  destruct (is_complex e); [|left; repeat split; by eauto].
  destruct (evolution_filter e).
  - left. repeat split; by eauto.
  - right. intros (_ & _ & Hef). by destruct (Hef eq_refl).
Qed.

Lemma save_loop_all (cache_dir : option string) (evolutions : list Evolution)
    (log : list CacheEvent) :
  Forall saveable evolutions ->
  save_loop cache_dir evolutions log
  = (Ok tt,
     log ++ map (fun e => EvolutionSave (class_name e) cache_dir) evolutions).
Proof.
  intros Hall. revert log.
  induction Hall as [|e rest He _ IH]; intros log.
  - simpl. by rewrite app_nil_r.
  - rewrite save_loop_step_ok, IH by done. simpl. by rewrite <- app_assoc.
Qed.

Lemma save_loop_stops (cache_dir : option string)
    (good : list Evolution) (bad : Evolution) (rest : list Evolution)
    (log : list CacheEvent) :
  Forall saveable good -> ~ saveable bad ->
  save_loop cache_dir (good ++ bad :: rest) log
  = (Raise AssertionError,
     log ++ map (fun e => EvolutionSave (class_name e) cache_dir) good).
Proof.
  intros Hgood Hbad. revert log.
  induction Hgood as [|e good He _ IH]; intros log.
  - simpl app. rewrite save_loop_step_fails by done. by rewrite app_nil_r.
  - change ((e :: good) ++ bad :: rest) with (e :: (good ++ bad :: rest)).
    rewrite save_loop_step_ok, IH by done. simpl. by rewrite <- app_assoc.
Qed.

Lemma save_loop_returns (cache_dir : option string)
    (evolutions : list Evolution) (log : list CacheEvent) :
  fst (save_loop cache_dir evolutions log) = Ok tt ->
  Forall saveable evolutions.
Proof.
  revert log. induction evolutions as [|e rest IH]; intros log Hok.
  - constructor.
  - destruct (saveable_decide e) as [He|He].
    + constructor; [exact He|].
      rewrite save_loop_step_ok in Hok by done. by eapply IH.
    + by rewrite save_loop_step_fails in Hok.
Qed.

Lemma first_unsaveable (evolutions : list Evolution) :
  ~ Forall saveable evolutions ->
  exists good bad rest,
    evolutions = good ++ bad :: rest /\
    Forall saveable good /\ ~ saveable bad.
Proof.
  induction evolutions as [|e rest IH]; intros Hno.
  - exfalso. apply Hno. constructor.
  - destruct (saveable_decide e) as [He|He].
    + destruct IH as (good & bad & rest' & -> & Hgood & Hbad).
      { intros Hall. apply Hno. by constructor. }
      exists (e :: good), bad, rest'. split; [done|]. by split; [constructor|].
    + exists [], e, rest. by repeat split.
Qed.

(** X14.  [save] returns exactly when the store is an in-memory store with
    an extractor and every strategy has a node filter, a question filter
    and, if composite, an evolution filter; it has then saved the extractor
    and after it every strategy, in order. *)
Theorem save_succeeds_iff (kind : StoreKind) (evolutions : list Evolution)
    (cache_dir : option string) :
  (fst (save kind evolutions cache_dir) = Ok tt
   <-> is_in_memory kind = true /\ is_Some (extractor kind)
       /\ Forall saveable evolutions) /\
  (fst (save kind evolutions cache_dir) = Ok tt ->
   snd (save kind evolutions cache_dir)
   = ExtractorSave cache_dir
     :: map (fun e => EvolutionSave (class_name e) cache_dir) evolutions).
Proof.
  unfold save.
  destruct (is_in_memory kind); cbn [negb];
    [|split; [split; [done|by intros (? & _)]|done]].
  destruct (extractor kind) as [x|];
    [|split; [split; [done|by intros (_ & [? ?] & _)]|done]].
  split.
  - split.
    + intros Hok. split; [done|]. split; [by eexists|].
      by eapply save_loop_returns.
    + intros (_ & _ & Hall). by rewrite save_loop_all.
  - intros Hok. apply save_loop_returns in Hok.
    by rewrite save_loop_all.
Qed.

Lemma save_succeeds_iff_witness :
  save (mkStoreKind true (Some "keyphrase"))
    [init_evolution demo_generator simple;
     init_evolution demo_generator reasoning] None
  = (Ok tt,
     [ExtractorSave None; EvolutionSave "SimpleEvolution" None;
      EvolutionSave "ReasoningEvolution" None]).
Proof.
  destruct (save_succeeds_iff (mkStoreKind true (Some "keyphrase"))
              [init_evolution demo_generator simple;
               init_evolution demo_generator reasoning] None)
    as [[_ Hok] Hlog].
  assert (H : fst (save (mkStoreKind true (Some "keyphrase"))
                     [init_evolution demo_generator simple;
                      init_evolution demo_generator reasoning] None)
              = Ok tt).
  { apply Hok. split; [done|]. split; [by eexists|].
    repeat constructor; simpl; by eauto. }
  specialize (Hlog H).
  destruct (save _ _ _) as [r log]. simpl in *. by subst.
Defined.

(** X15.  [save] is not all-or-nothing.  On an in-memory store with an
    extractor, the first strategy that lacks a filter makes it raise the
    assertion error after the extractor and every strategy before that one
    have been saved; the strategies after it are not saved. *)
Theorem save_stops_at_first_unconfigured (kind : StoreKind)
    (good : list Evolution) (bad : Evolution) (rest : list Evolution)
    (cache_dir : option string) :
  is_in_memory kind = true -> is_Some (extractor kind) ->
  Forall saveable good -> ~ saveable bad ->
  save kind (good ++ bad :: rest) cache_dir
  = (Raise AssertionError,
     ExtractorSave cache_dir
     :: map (fun e => EvolutionSave (class_name e) cache_dir) good).
Proof.
  intros Hmem [x Hx] Hgood Hbad. unfold save. rewrite Hmem, Hx. cbn [negb].
  by rewrite save_loop_stops.
Qed.

Lemma save_stops_at_first_unconfigured_witness :
  save (mkStoreKind true (Some "keyphrase"))
    ([init_evolution demo_generator simple] ++ preconfigured :: [reasoning])
    None
  = (Raise AssertionError,
     [ExtractorSave None; EvolutionSave "SimpleEvolution" None]).
Proof.
  apply (save_stops_at_first_unconfigured
           (mkStoreKind true (Some "keyphrase"))
           [init_evolution demo_generator simple] preconfigured [reasoning]
           None).
  - reflexivity.
  - by eexists.
  - repeat constructor; simpl; by eauto.
  - intros ([nf Hnf] & _). discriminate.
Defined.

Lemma adapt_loop_strategies (self : TestsetGenerator) (language : string)
    (cache_dir : option string) (evolutions : list Evolution) :
  fst (adapt_loop self language cache_dir evolutions)
  = map (init_evolution self) evolutions.
Proof.
  induction evolutions as [|e rest IH]; simpl; [done|]. by rewrite IH.
Qed.

Lemma init_evolution_saveable (self : TestsetGenerator) (e : Evolution) :
  generator_llm e = None -> saveable (init_evolution self e).
Proof.
  destruct e as [cls cx g d q n f]. simpl. intros ->.
  unfold saveable, init_evolution. simpl.
  destruct d, q, n, f, cx; simpl; repeat split; by eauto.
Qed.

Lemma init_evolution_configured (self : TestsetGenerator) (e : Evolution) :
  is_Some (generator_llm e) -> init_evolution self e = e.
Proof. intros [g Hg]. unfold init_evolution. by rewrite Hg. Qed.

(** X16.  On an in-memory store with an extractor, [adapt] applied to
    strategies that have no generation model yet returns them as
    [init_evolution] makes them, and a following [save] of these
    strategies passes all its assertions.  A strategy that came with its
    own generation model and lacks a filter is not repaired by the
    initialization: a [save] of the initialized strategies then raises the
    assertion error. *)
Theorem adapt_then_save (self : TestsetGenerator) (kind : StoreKind)
    (language : string) (evolutions : list Evolution)
    (cache_dir : option string) :
  is_in_memory kind = true -> is_Some (extractor kind) ->
  (Forall (fun e => generator_llm e = None) evolutions ->
   fst (adapt self kind language evolutions cache_dir)
   = Ok (map (init_evolution self) evolutions) /\
   fst (save kind (map (init_evolution self) evolutions) cache_dir)
   = Ok tt) /\
  (Exists (fun e => is_Some (generator_llm e) /\ ~ saveable e) evolutions ->
   fst (save kind (map (init_evolution self) evolutions) cache_dir)
   = Raise AssertionError).
Proof.
  intros Hmem [x Hx]. split.
  - intros Hfresh. split.
    + unfold adapt. rewrite Hmem, Hx. cbn [negb fst].
      by rewrite adapt_loop_strategies.
    + unfold save. rewrite Hmem, Hx. cbn [negb].
      rewrite save_loop_all; [done|].
      apply Forall_map. eapply Forall_impl; [exact Hfresh|].
      intros e He. by apply init_evolution_saveable.
  - intros Hex. unfold save. rewrite Hmem, Hx. cbn [negb].
    destruct (first_unsaveable (map (init_evolution self) evolutions))
      as (good & bad & rest & -> & Hgood & Hbad).
    + intros Hall. apply List.Exists_exists in Hex as (e & Hin & Hg & Hno).
      apply Hno. rewrite <- (init_evolution_configured self e Hg).
      rewrite List.Forall_forall in Hall. apply Hall.
      by apply in_map.
    + by rewrite save_loop_stops.
Qed.

Lemma adapt_then_save_witness :
  fst (adapt demo_generator (mkStoreKind true (Some "keyphrase")) "hindi"
         [simple; multi_context] None)
  = Ok [init_evolution demo_generator simple;
        init_evolution demo_generator multi_context] /\
  fst (save (mkStoreKind true (Some "keyphrase"))
         (map (init_evolution demo_generator) [simple; multi_context]) None)
  = Ok tt /\
  fst (save (mkStoreKind true (Some "keyphrase"))
         (map (init_evolution demo_generator) [simple; preconfigured]) None)
  = Raise AssertionError.
Proof.
  destruct (adapt_then_save demo_generator
              (mkStoreKind true (Some "keyphrase")) "hindi"
              [simple; multi_context] None eq_refl ltac:(by eexists))
    as (Hfresh & _).
  destruct (adapt_then_save demo_generator
              (mkStoreKind true (Some "keyphrase")) "hindi"
              [simple; preconfigured] None eq_refl ltac:(by eexists))
    as (_ & Hfail).
  destruct (Hfresh ltac:(by repeat constructor)) as [Hadapt Hsave].
  split; [exact Hadapt|]. split; [exact Hsave|].
  apply Hfail. apply Exists_cons_tl, Exists_cons_hd.
  split; [by eexists|]. intros ([nf Hnf] & _). discriminate.
Defined.

(** ** Saved embeddings and the document wrappers *)

Lemma content_of_set_content (gs : GeneratorState) (c : StoreContent) :
  content_of (set_content gs c) = c.
Proof. by destruct c. Qed.

Lemma generate_rejects
    (self : TestsetGenerator) (env : Env) (test_size : Z)
    (distributions : Distributions)
    (with_debugging_logs is_async raise_exc : bool)
    (run_config : option RunConfig) (tr : list Event) :
  check_if_sum_is_close (map snd distributions) (float_lit 1 1) 3 = false ->
  generate self env test_size distributions with_debugging_logs is_async
    raise_exc run_config tr = (Raise ConfigError, tr).
Proof. intros Hbad. unfold generate. by rewrite Hbad. Qed.

(** X17.  What [create_node_embeddings] writes, [load_saved_embeddings]
    reads back: after a successful [create_node_embeddings] at a path,
    loading that path into any generator gives it the creator's nodes, node
    map and embeddings, and leaves its models and its node scores as they
    were.  The files at other paths are untouched. *)
Theorem saved_embeddings_round_trip (denv : DocEnv)
    (gs gs1 other : GeneratorState) (files files1 : Files)
    (documents : list string) (save_path : string) :
  create_node_embeddings denv gs files documents save_path
  = (Done tt, gs1, files1) ->
  (exists other',
      load_saved_embeddings other files1 save_path = (Done tt, other') /\
      content_of other' = content_of gs1 /\
      gs_node_scores other' = gs_node_scores other /\
      self_generator_llm (gs_self other')
        = self_generator_llm (gs_self other) /\
      self_critic_llm (gs_self other') = self_critic_llm (gs_self other) /\
      self_embeddings (gs_self other') = self_embeddings (gs_self other)) /\
  (forall path, path <> save_path -> files1 !! path = files !! path).
Proof.
  unfold create_node_embeddings.
  destruct (add_documents denv _ _) as [c|]; [|done].
  intros [= <- <-]. split.
  - unfold load_saved_embeddings. rewrite lookup_insert_eq.
    eexists. split; [reflexivity|].
    by rewrite !content_of_set_content.
  - intros path Hne. by rewrite lookup_insert_ne.
Qed.

Lemma saved_embeddings_round_trip_witness :
  exists other',
    load_saved_embeddings demo_state
      (<["nodes.pkl" :=
           PickledStore (mkStoreContent
                           [mkNode "n0"; mkNode "n1"; mkNode "n2";
                            mkNode "doc"] ∅ [])]> ∅)
      "nodes.pkl" = (Done tt, other') /\
    sc_nodes (content_of other')
    = [mkNode "n0"; mkNode "n1"; mkNode "n2"; mkNode "doc"].
Proof.
  destruct (saved_embeddings_round_trip demo_docs demo_state
              (set_content demo_state
                 (mkStoreContent
                    [mkNode "n0"; mkNode "n1"; mkNode "n2"; mkNode "doc"]
                    ∅ []))
              demo_state ∅
              (<["nodes.pkl" :=
                   PickledStore (mkStoreContent
                                   [mkNode "n0"; mkNode "n1"; mkNode "n2";
                                    mkNode "doc"] ∅ [])]> ∅)
              ["doc"] "nodes.pkl")
    as [(other' & Hload & Hcontent & _) _].
  - reflexivity.
  - exists other'. split; [exact Hload|]. by rewrite Hcontent.
Defined.

(** X18.  [generate_with_saved_embeddings] touches the store before it
    checks the weights.  Without a file at the path it raises
    [FileNotFoundError] and nothing has happened.  With a saved store at
    the path and weights that fail the check it raises the configuration
    error with the trace untouched, but the generator's nodes, node map and
    embeddings are already the loaded ones. *)
Theorem saved_embeddings_loaded_before_check (gs : GeneratorState)
    (files : Files) (env : Env) (save_path : string) (test_size : Z)
    (distributions : Distributions)
    (with_debugging_logs is_async raise_exc : bool)
    (run_config : option RunConfig) (tr : list Event) :
  (files !! save_path = None ->
   generate_with_saved_embeddings gs files env save_path test_size
     distributions with_debugging_logs is_async raise_exc run_config tr
   = (Throws FileNotFoundError, tr, gs)) /\
  (forall c : StoreContent,
      files !! save_path = Some (PickledStore c) ->
      check_if_sum_is_close (map snd distributions) (float_lit 1 1) 3 = false ->
      generate_with_saved_embeddings gs files env save_path test_size
        distributions with_debugging_logs is_async raise_exc run_config tr
      = (Throws (Core ConfigError), tr, set_content gs c) /\
      content_of (set_content gs c) = c).
Proof.
  unfold generate_with_saved_embeddings. split.
  - by intros ->.
  - intros c -> Hbad. unfold then_generate.
    rewrite generate_rejects by done. split; [done|].
    apply content_of_set_content.
Qed.

Lemma saved_embeddings_loaded_before_check_witness :
  generate_with_saved_embeddings demo_state
    (<["nodes.pkl" := PickledStore (mkStoreContent [mkNode "m"] ∅ [])]> ∅)
    (const_env NaN) "nodes.pkl" 2 half_simple
    false true true None []
  = (Throws (Core ConfigError), [],
     set_content demo_state (mkStoreContent [mkNode "m"] ∅ [])) /\
  generate_with_saved_embeddings demo_state
    (<["nodes.pkl" := PickledStore (mkStoreContent [mkNode "m"] ∅ [])]> ∅)
    (const_env NaN) "other.pkl" 2 half_simple
    false true true None []
  = (Throws FileNotFoundError, [], demo_state).
Proof.
  destruct (saved_embeddings_loaded_before_check demo_state
              (<["nodes.pkl" :=
                   PickledStore (mkStoreContent [mkNode "m"] ∅ [])]> ∅)
              (const_env NaN) "nodes.pkl" 2 half_simple
              false true true None []) as [_ Hfound].
  destruct (saved_embeddings_loaded_before_check demo_state
              (<["nodes.pkl" :=
                   PickledStore (mkStoreContent [mkNode "m"] ∅ [])]> ∅)
              (const_env NaN) "other.pkl" 2 half_simple
              false true true None []) as [Hmissing _].
  split.
  - apply (Hfound (mkStoreContent [mkNode "m"] ∅ [])).
    + reflexivity.
    + vm_compute. reflexivity.
  - apply Hmissing. reflexivity.
Defined.

(** X19.  The two document wrappers add the documents to the store before
    the weights are checked: when [add_documents] succeeds and the weights
    fail the check, the call raises the configuration error with no
    orchestrator call made, and the store already holds the added
    documents. *)
Theorem documents_added_before_check (denv : DocEnv) (gs : GeneratorState)
    (env : Env) (documents : list string) (test_size : Z)
    (distributions : Distributions)
    (with_debugging_logs is_async raise_exc : bool)
    (run_config : option RunConfig) (tr : list Event) :
  check_if_sum_is_close (map snd distributions) (float_lit 1 1) 3 = false ->
  (forall c,
      add_documents denv (content_of gs)
        (map (from_langchain_document denv) documents) = Some c ->
      generate_with_langchain_docs denv gs env documents test_size
        distributions with_debugging_logs is_async raise_exc run_config tr
      = (Throws (Core ConfigError), tr, set_content gs c) /\
      content_of (set_content gs c) = c) /\
  (forall c,
      add_documents denv (content_of gs)
        (map (from_llamaindex_document denv) documents) = Some c ->
      generate_with_llamaindex_docs denv gs env documents test_size
        distributions with_debugging_logs is_async raise_exc run_config tr
      = (Throws (Core ConfigError), tr, set_content gs c) /\
      content_of (set_content gs c) = c).
Proof.
  intros Hbad.
  unfold generate_with_langchain_docs, generate_with_llamaindex_docs.
  split; intros c ->; unfold then_generate;
    rewrite generate_rejects by done;
    (split; [done|apply content_of_set_content]).
Qed.

Lemma documents_added_before_check_witness :
  generate_with_langchain_docs demo_docs demo_state (const_env NaN) ["doc"]
    2 half_simple false true true None []
  = (Throws (Core ConfigError), [],
     set_content demo_state
       (mkStoreContent [mkNode "n0"; mkNode "n1"; mkNode "n2"; mkNode "doc"]
          ∅ [])).
Proof.
  destruct (documents_added_before_check demo_docs demo_state (const_env NaN)
              ["doc"] 2 half_simple false true true None [])
    as [Hlc _].
  - vm_compute. reflexivity.
  - apply (Hlc (mkStoreContent
                  [mkNode "n0"; mkNode "n1"; mkNode "n2"; mkNode "doc"]
                  ∅ [])).
    reflexivity.
Defined.

(** ** The phases of a run of [generate] *)











(** ** Float rounding in the main loop *)

Lemma sum_list_bounded (counts : list nat) (n : nat) :
  Forall (fun c => (c <= n)%nat) counts ->
  (sum_list counts <= length counts * n)%nat.
Proof. induction 1 as [|c counts Hc _ IH]; simpl; lia. Qed.

(** X21.  For weights in [[0, 1]] and a size below [2^53], float rounding
    never takes a strategy's count out of the sample: every bound
    [round(probability * test_size)] is computed without error and lies
    between 0 and [test_size], so with at least [test_size] node-contexts
    the main loop returns, having registered the sum of the counts, at most
    [test_size] tasks per strategy, each on a node-context below
    [test_size].  The bound on the size is needed: [2^53 + 3] is not a
    float, its conversion rounds up, and the weight [1.0] then gives the
    count [2^53 + 4]. *)
Theorem main_loop_within_sample (raise_exc : bool)
    (cn : list CurrentNodes) (test_size : Z) (distributions : Distributions)
    (tr : list Event) :
  0 <= test_size < 2 ^ 53 -> unit_weights distributions ->
  (Z.to_nat test_size <= length cn)%nat ->
  Forall (fun item => exists count,
              rounded_product (snd item) test_size = Ok count /\
              0 <= count <= test_size) distributions /\
  (exists (st : Sched) (tr' : list Event),
      main_loop raise_exc cn test_size distributions
        (mkSched [new_executor 0 raise_exc] 0) tr = (Ok st, tr') /\
      length (assignments st) = rounded_total test_size distributions /\
      (rounded_total test_size distributions
         <= length distributions * Z.to_nat test_size)%nat /\
      Forall (fun i => (i < Z.to_nat test_size)%nat) (node_indices st)) /\
  rounded_product (float_lit 1 1) (2 ^ 53 + 3) = Ok (2 ^ 53 + 4).
Proof.
  intros Hn Hw Hcn.
  pose proof (unit_weights_counts test_size distributions Hn Hw) as Hcounts.
  split; [|split; [|vm_compute; reflexivity]].
  - eapply Forall_impl; [exact Hw|].
    intros [ev p] (q & Hv & Hq0 & Hq1). simpl in *.
    exact (rounded_product_unit p test_size q Hv Hq0 Hq1 Hn).
  - destruct (main_loop_runs raise_exc cn test_size distributions
                (mkSched [new_executor 0 raise_exc] 0) tr
                (units_ok_initial raise_exc))
      as (st & tr' & Hmain & Hok & Htot & Hidx).
    { by apply unit_weights_defined. }
    { eapply Forall_impl; [exact Hcounts|]. simpl. intros c Hc. lia. }
    destruct (units_ok_counts _ Hok) as [Hlen _].
    exists st, tr'. split; [exact Hmain|].
    split; [by rewrite Hlen, Htot|].
    split.
    + unfold rounded_total.
      assert (Hlen' : length (rounded_counts test_size distributions)
                      = length distributions)
        by (unfold rounded_counts; by rewrite length_map).
      rewrite <- Hlen'. by apply sum_list_bounded.
    + rewrite Hidx. simpl.
      apply List.Forall_forall. intros i Hi.
      apply in_concat in Hi as (l & Hl & Hi).
      apply in_map_iff in Hl as (c & <- & Hc).
      apply in_seq in Hi.
      rewrite List.Forall_forall in Hcounts. specialize (Hcounts c Hc). lia.
Qed.

Lemma main_loop_within_sample_witness :
  exists (st : Sched) (tr' : list Event),
    main_loop true (demo_nodes 45) 45 seven_three
      (mkSched [new_executor 0 true] 0) [] = (Ok st, tr') /\
    length (assignments st) = 45%nat.
Proof.
  destruct (main_loop_within_sample true (demo_nodes 45) 45 seven_three [])
    as (_ & (st & tr' & Hmain & Htot & _) & _).
  - lia.
  - weights_in_unit.
  - vm_compute. lia.
  - exists st, tr'. split; [exact Hmain|]. rewrite Htot.
    vm_compute. reflexivity.
Defined.
